(** * Law search service: retrieval core

    A shallow embedding of the retrieval core of the law search service
    (scoring engine, multi-query aggregation, tiered search orchestration,
    document-store backends and the in-process cache), with the properties
    the specification states about it, followed by further properties of
    the same code, of the remote aggregation, and of the listing, detail
    and article-search endpoints.

    Conventions of the embedding.
    - A Python [str] is a Rocq [string] whose characters are the code points
      below 256; [str.lower], [str.strip] and the whitespace class are the
      Python ones on that range.
    - A Python [int] is a [Z]; a Python [float] is an exact rational [Q]
      (no rounding), so [0.8] is [8 # 10].  The scores of the document
      stores, which can be NaN, are [VectorStore.float]: a rational or NaN.
    - A [dict] is an association list in insertion order.
    - A call that may raise returns a [result]; the calls to collaborators
      outside the repository (the database session, the HTTP client,
      [np.linalg.norm], [json.dumps]) are functions supplied by the
      environment, and so are the quotient of two overflowed doubles, what
      [list.sort] leaves of a list with a NaN key, and what the host file
      system does with a path that leaves the collection directory. *)

From Stdlib Require Import List String Ascii ZArith QArith Lia Bool Arith.
From Stdlib Require Import Permutation Sorted Qabs.
Import ListNotations.
Local Open Scope string_scope.

(* ================================================================== *)
(** * Python primitives *)
(* ================================================================== *)

Module Py.

(** Exceptions that the modelled code raises or lets through. *)
Inductive exn : Type :=
| RuntimeError (msg : string)
| ValueError (msg : string)
| HTTPException (status_code : Z) (error : string) (cause : string)
| UnexpectedResponse (msg : string)
| ExternalError (msg : string).

Inductive result (A : Type) : Type :=
| Ok (a : A)
| Raise (e : exn).
Arguments Ok {A} a.
Arguments Raise {A} e.

(** [str(e)] of an exception. *)
Definition exn_str (e : exn) : string :=
  match e with
  | RuntimeError m | ValueError m | UnexpectedResponse m | ExternalError m => m
  | HTTPException _ err _ => err
  end.

(** ** Lists *)

(** [l[:k]] for a Python int [k]: a negative [k] counts from the end. *)
Definition slice_to {A : Type} (l : list A) (k : Z) : list A :=
  if (k <? 0)%Z
  then firstn (Z.to_nat (Z.of_nat (List.length l) + k)) l
  else firstn (Z.to_nat k) l.

(** Insertion into the sorted tail, before the first element that is not
    smaller: elements with equal keys keep their original order. *)
Fixpoint insert_by {A : Type} (leb : A -> A -> bool) (x : A) (l : list A) : list A :=
  match l with
  | [] => [x]
  | y :: l' => if leb x y then x :: y :: l' else y :: insert_by leb x l'
  end.

(** [list.sort]: a stable sort; [leb a b] says that the key of [a] is not
    greater than the key of [b] in the requested order. *)
Fixpoint sort_by {A : Type} (leb : A -> A -> bool) (l : list A) : list A :=
  match l with
  | [] => []
  | x :: l' => insert_by leb x (sort_by leb l')
  end.

(** ** Dictionaries, in insertion order *)

Fixpoint dict_get {V : Type} (d : list (string * V)) (k : string) : option V :=
  match d with
  | [] => None
  | (k', v) :: d' => if String.eqb k k' then Some v else dict_get d' k
  end.

(** [d[k] = v]: an existing key keeps its position. *)
Fixpoint dict_set {V : Type} (d : list (string * V)) (k : string) (v : V)
  : list (string * V) :=
  match d with
  | [] => [(k, v)]
  | (k', v') :: d' =>
      if String.eqb k k' then (k', v) :: d' else (k', v') :: dict_set d' k v
  end.

Fixpoint dict_del {V : Type} (d : list (string * V)) (k : string)
  : list (string * V) :=
  match d with
  | [] => []
  | (k', v') :: d' =>
      if String.eqb k k' then d' else (k', v') :: dict_del d' k
  end.

Definition dict_mem {V : Type} (d : list (string * V)) (k : string) : bool :=
  match dict_get d k with Some _ => true | None => false end.

Definition dict_values {V : Type} (d : list (string * V)) : list V := map snd d.
Definition dict_keys {V : Type} (d : list (string * V)) : list string := map fst d.

(** ** Strings *)

Definition is_empty (s : string) : bool :=
  match s with EmptyString => true | _ => false end.

Definition len (s : string) : Z := Z.of_nat (String.length s).

Definition in_range (lo hi n : nat) : bool := (lo <=? n)%nat && (n <=? hi)%nat.

(** [str.lower] on one code point below 256: A-Z and the accented capitals
    U+00C0..U+00DE (without the multiplication sign U+00D7) move up by 32. *)
Definition lower_char (c : ascii) : ascii :=
  let n := nat_of_ascii c in
  if in_range 65 90 n || (in_range 192 222 n && negb (n =? 215)%nat)
  then ascii_of_nat (n + 32)
  else c.

Fixpoint lower (s : string) : string :=
  match s with
  | EmptyString => EmptyString
  | String c s' => String (lower_char c) (lower s')
  end.

(** [str.isspace] on one code point below 256; the class [\s] of [re]
    on [str] patterns is the same set. *)
Definition isspace (c : ascii) : bool :=
  let n := nat_of_ascii c in
  in_range 9 13 n || in_range 28 32 n || (n =? 133)%nat || (n =? 160)%nat.

Fixpoint lstrip (s : string) : string :=
  match s with
  | EmptyString => EmptyString
  | String c s' => if isspace c then lstrip s' else s
  end.

Fixpoint rstrip (s : string) : string :=
  match s with
  | EmptyString => EmptyString
  | String c s' =>
      match rstrip s' with
      | EmptyString => if isspace c then EmptyString else String c EmptyString
      | r => String c r
      end
  end.

Definition strip (s : string) : string := rstrip (lstrip s).

(** The empty string and the strings of whitespace only. *)
Fixpoint blank (s : string) : bool :=
  match s with
  | EmptyString => true
  | String c s' => isspace c && blank s'
  end.

Fixpoint startswith (p s : string) : bool :=
  match p, s with
  | EmptyString, _ => true
  | String a p', String b s' => Ascii.eqb a b && startswith p' s'
  | String _ _, EmptyString => false
  end.

Fixpoint find_from (sub s : string) (i : nat) : option nat :=
  if startswith sub s then Some i
  else match s with
       | EmptyString => None
       | String _ s' => find_from sub s' (S i)
       end.

Definition found (o : option nat) : bool :=
  match o with Some _ => true | None => false end.

(** [s.find(sub)]: the lowest index of [sub] in [s], or -1. *)
Definition find (s sub : string) : Z :=
  match find_from sub s 0 with
  | Some i => Z.of_nat i
  | None => (-1)%Z
  end.

(** [sub in s]. *)
Definition contains (sub s : string) : bool :=
  match find_from sub s 0 with Some _ => true | None => false end.

Definition snoc (s : string) (c : ascii) : string := s ++ String c EmptyString.

Fixpoint split_ws_go (s cur : string) : list string :=
  match s with
  | EmptyString => if is_empty cur then [] else [cur]
  | String c s' =>
      if isspace c
      then (if is_empty cur then split_ws_go s' EmptyString
            else cur :: split_ws_go s' EmptyString)
      else split_ws_go s' (snoc cur c)
  end.

(** [s.split()]: the maximal runs of non-whitespace characters.  The
    comprehension [[tok for tok in re.split(r"\s+", s) if tok]] builds the
    same list. *)
Definition split_ws (s : string) : list string := split_ws_go s EmptyString.

Fixpoint split_char_go (sep : ascii) (s cur : string) : list string :=
  match s with
  | EmptyString => [cur]
  | String c s' =>
      if Ascii.eqb c sep then cur :: split_char_go sep s' EmptyString
      else split_char_go sep s' (snoc cur c)
  end.

(** [s.split(sep)] for a one-character separator. *)
Definition split_char (sep : ascii) (s : string) : list string :=
  split_char_go sep s EmptyString.

(** [sep.join(parts)]. *)
Definition join (sep : string) (parts : list string) : string :=
  String.concat sep parts.

(** A slice bound of Python: negative counts from the end, then clamped. *)
Definition clamp_index (n i : Z) : Z :=
  if (i <? 0)%Z then Z.max 0 (n + i) else Z.min i n.

(** [s[lo:hi]]. *)
Definition slice (s : string) (lo hi : Z) : string :=
  let lo' := clamp_index (len s) lo in
  let hi' := clamp_index (len s) hi in
  substring (Z.to_nat lo') (Z.to_nat (hi' - lo')) s.

(** [max(a, b)] and [min(a, b)] of Python keep the first argument unless the
    second is strictly better. *)
Definition max2 (a b : Q) : Q := if Qlt_le_dec a b then b else a.
Definition min2 (a b : Q) : Q := if Qlt_le_dec b a then b else a.

Definition Qltb (a b : Q) : bool := negb (Qle_bool b a).

(** ** [re.sub] with an escaped literal pattern and [re.IGNORECASE] *)

(** One character of the pattern matches one character of the text when
    their lower-case forms agree. *)
Fixpoint startswith_ic (p s : string) : bool :=
  match p, s with
  | EmptyString, _ => true
  | String a p', String b s' =>
      Ascii.eqb (lower_char a) (lower_char b) && startswith_ic p' s'
  | String _ _, EmptyString => false
  end.

Fixpoint re_sub_go (target repl : string) (skip : nat) (s : string) : string :=
  match s with
  | EmptyString => EmptyString
  | String c s' =>
      match skip with
      | S k => re_sub_go target repl k s'
      | O =>
          if startswith_ic target s
          then repl ++ re_sub_go target repl (String.length target - 1) s'
          else String c (re_sub_go target repl 0 s')
      end
  end.

(** [re.sub(re.escape(target), repl, s, flags=re.IGNORECASE)] for a
    non-empty [target] and a replacement template [repl] without
    backslash, which [re] then inserts literally: every non-overlapping
    occurrence, leftmost first, is replaced by [repl].  Targets holding a
    backslash (where the template has escapes) are outside the embedding. *)
Definition re_sub_ignorecase (target repl s : string) : string :=
  re_sub_go target repl 0 s.

End Py.

(* ================================================================== *)
(** * Scoring engine (src/main.py) *)
(* ================================================================== *)

Module Scoring.
Import Py.
Local Open Scope Q_scope.

(** [_lexical_score(text, query)]. *)
Definition _lexical_score (text query : string) : Q :=
  let q := lower (strip query) in
  if is_empty q then 0
  else
    let t := lower text in
    let score := 0 in
    let score := if contains q t then score + 0.8 else score in
    let tokens := split_ws q in
    let score :=
      match tokens with
      | [] => score
      | _ :: _ =>
          let hits := List.length (filter (fun tok => contains tok t) tokens) in
          score + 0.2 * (inject_Z (Z.of_nat hits) / inject_Z (Z.of_nat (List.length tokens)))
      end in
    max2 0 (min2 1 score).

(** The plain leading excerpt returned when nothing can be highlighted. *)
Definition plain_excerpt (text : string) (window : Z) : string :=
  strip (slice text 0 window
         ++ (if (len text >? window)%Z then "..." else "")).

(** The [for tok in tokens] loop of [_make_snippet]: the first token found
    in the lowered text, with its index. *)
Fixpoint first_token_hit (tokens : list string) (lower_text : string)
  : option (Z * string) :=
  match tokens with
  | [] => None
  | tok :: rest =>
      let j := find lower_text (lower tok) in
      if (j =? -1)%Z then first_token_hit rest lower_text else Some (j, tok)
  end.

(** The match that [_make_snippet] settles on: index and highlight target. *)
Definition locate (text q : string) : option (Z * string) :=
  let lower_text := lower text in
  let idx := find lower_text (lower q) in
  if (idx =? -1)%Z then first_token_hit (split_ws q) lower_text
  else Some (idx, q).

Definition window_start (idx window : Z) : Z := Z.max 0 (idx - window / 2).

Definition window_end (text highlight_target : string) (idx window : Z) : Z :=
  Z.min (len text) (idx + len highlight_target + window / 2).

(** [_make_snippet(text, query, window=120)]. *)
Definition _make_snippet (text query : string) (window : Z) : string :=
  let q := strip query in
  if is_empty q then plain_excerpt text window
  else
    match locate text q with
    | None => plain_excerpt text window
    | Some (idx, highlight_target) =>
        let start := window_start idx window in
        let end_ := window_end text highlight_target idx window in
        let snippet := slice text start end_ in
        let snippet :=
          re_sub_ignorecase highlight_target
            ("<em>" ++ highlight_target ++ "</em>") snippet in
        let prefix := if (start >? 0)%Z then "..." else "" in
        let suffix := if (end_ <? len text)%Z then "..." else "" in
        strip (prefix ++ snippet ++ suffix)
    end.

Definition default_window : Z := 120.

(** [_split_query_list(query)]. *)
Definition _split_query_list (query : string) : list string :=
  map strip
    (filter (fun part => negb (is_empty (strip part))) (split_char "," query)).

End Scoring.

(* ================================================================== *)
(** * Records of the search endpoint (src/main.py, src/models/entities.py) *)
(* ================================================================== *)

(** A row of the [laws] table.  The columns that the search path never
    reads ([law_serial], [raw], the timestamps) are left out. *)
Module Law.
Record t : Type := mk {
  law_id : string;
  law_name_kr : string;
  law_abbr : option string;
  department : option string;
  law_type : option string;
  status : option string;
  enforce_date : option string;
  promulgate_date : option string;
  detail_link : option string
}.
End Law.

(** [LawSearchResult]; [matched_articles] is [None] on every path. *)
Module LawSearchResult.
Record t : Type := mk {
  law_id : string;
  law_name_kr : string;
  law_abbr : option string;
  department : option string;
  law_type : option string;
  status : option string;
  enforce_date : option string;
  promulgate_date : option string;
  score : option Q;
  snippet : option string;
  detail_link : option string
}.
End LawSearchResult.

(** One summary record of the remote source, as [fetch_law_for_query]
    refines it: the values of the keys law name, department, enforcement
    date, promulgation date, abbreviation, detail link, serial number,
    law id and status code, all strings. *)
Module RawLaw.
Record t : Type := mk {
  name_kr : string;
  department : string;
  enforce_date : string;
  promulgate_date : string;
  abbr : string;
  detail_link : string;
  serial : string;
  law_id : string;
  status_code : string
}.
End RawLaw.

(** A record of [search_law]: the refined record under the extra key that
    holds the sub-query which found it. *)
Module CollectorItem.
Record t : Type := mk {
  search_term : string;
  law : RawLaw.t
}.
End CollectorItem.

Module LawSearchFilters.
Record t : Type := mk {
  department : option (list string);
  law_type : option (list string);
  status : option (list string);
  enforce_date_from : option string;
  enforce_date_to : option string
}.
End LawSearchFilters.

Inductive SearchType : Type := lexical | semantic | hybrid.

Module LawSearchRequest.
Record t : Type := mk {
  query : string;
  search_type : SearchType;
  top_k : Z;
  filters : option LawSearchFilters.t
}.
End LawSearchRequest.

Module LawSearchMetadata.
Record t : Type := mk {
  search_type : SearchType;
  lexical_count : Z;
  semantic_count : Z;
  cache_hit : bool;
  note : option string
}.
End LawSearchMetadata.

(** [LawSearchResponse] without [search_time_ms], a wall-clock reading. *)
Module LawSearchResponse.
Record t : Type := mk {
  results : list LawSearchResult.t;
  total_count : Z;
  search_metadata : LawSearchMetadata.t
}.
End LawSearchResponse.

(* ================================================================== *)
(** * The collaborators of the search endpoint *)
(* ================================================================== *)

Module Db.
Import Py.

Inductive Column : Type := ColLawId | ColName | ColAbbr | ColDepartment
                         | ColLawType | ColStatus | ColEnforceDate.

Inductive Atom : Type :=
| Eq (c : Column) (v : string)
| ILike (c : Column) (pattern : string).

Inductive Clause : Type :=
| Or (atoms : list Atom)
| In_ (c : Column) (vals : list string)
| Ge (c : Column) (v : string)
| Le (c : Column) (v : string).

(** [select(Law).where( *where ).limit(limit)]. *)
Record Select : Type := mkSelect {
  where_ : list Clause;
  limit : Z
}.

(** The values of one [INSERT ... ON CONFLICT (law_id) DO UPDATE]. *)
Record Upsert : Type := mkUpsert {
  values : Law.t;
  raw : CollectorItem.t
}.

(** What the endpoint does to the outside, in the order it does it. *)
Inductive Event : Type :=
| Selected (s : Select)
| CollectorSearch (query : string) (top_k : Z)
| WriteBack (raw : list CollectorItem.t)
| Upserted (u : Upsert)
| Committed
| RolledBack.

(** The outcomes of the collaborators' calls, each a function of the call's
    arguments: the statements of the database session, its commit and
    rollback, and [search_law] of the collector as the endpoint imports it. *)
Record Env : Type := mkEnv {
  law_api_key : string;
  execute_select : Select -> result (list Law.t);
  execute_upsert : Upsert -> result unit;
  commit : result unit;
  rollback : result unit;
  collector_search_law : string -> Z -> result (list CollectorItem.t)
}.

(** Computations that log their calls and may raise. *)
Definition M (A : Type) : Type := list Event -> list Event * result A.

Definition ret {A : Type} (a : A) : M A := fun log => (log, Ok a).

Definition raise {A : Type} (e : exn) : M A := fun log => (log, Raise e).

Definition bind {A B : Type} (m : M A) (k : A -> M B) : M B :=
  fun log =>
    match m log with
    | (log', Ok a) => k a log'
    | (log', Raise e) => (log', Raise e)
    end.

(** [try: m except Exception as e: ...]: the outcome as a value. *)
Definition attempt {A : Type} (m : M A) : M (result A) :=
  fun log => let '(log', r) := m log in (log', Ok r).

(** A call to a collaborator: logged, then its outcome. *)
Definition call {A : Type} (ev : Event) (outcome : result A) : M A :=
  fun log => (log ++ [ev], outcome)%list.

Definition emit (ev : Event) : M unit := call ev (Ok tt).

Definition run {A : Type} (m : M A) : list Event * result A := m [].

Definition is_write_back (ev : Event) : bool :=
  match ev with WriteBack _ => true | _ => false end.

(** How often the write-back was invoked. *)
Definition write_backs (log : list Event) : nat :=
  List.length (filter is_write_back log).

(** ** A table-backed session, for concrete runs *)

Definition column (c : Column) (l : Law.t) : option string :=
  match c with
  | ColLawId => Some (Law.law_id l)
  | ColName => Some (Law.law_name_kr l)
  | ColAbbr => Law.law_abbr l
  | ColDepartment => Law.department l
  | ColLawType => Law.law_type l
  | ColStatus => Law.status l
  | ColEnforceDate => Law.enforce_date l
  end.

(** SQL [LIKE] on lowered operands: [%] is any run of characters, [_] any
    one character, a backslash takes the next character literally. *)
Fixpoint like (fuel : nat) (pat s : string) : bool :=
  match fuel with
  | O => false
  | S fuel' =>
      match pat with
      | EmptyString => is_empty s
      | String "%" pat' =>
          like fuel' pat' s
          || match s with
             | EmptyString => false
             | String _ s' => like fuel' pat s'
             end
      | String "_" pat' =>
          match s with
          | EmptyString => false
          | String _ s' => like fuel' pat' s'
          end
      | String "\" (String p pat') =>
          match s with
          | EmptyString => false
          | String c s' => Ascii.eqb p c && like fuel' pat' s'
          end
      | String p pat' =>
          match s with
          | EmptyString => false
          | String c s' => Ascii.eqb p c && like fuel' pat' s'
          end
      end
  end.

Definition ilike (pat s : string) : bool :=
  like (S (String.length pat + String.length s)) (lower pat) (lower s).

(** A comparison with SQL NULL is never true. *)
Definition eval_atom (l : Law.t) (a : Atom) : bool :=
  match a with
  | Eq c v => match column c l with Some x => String.eqb x v | None => false end
  | ILike c pat => match column c l with Some x => ilike pat x | None => false end
  end.

Definition eval_clause (l : Law.t) (c : Clause) : bool :=
  match c with
  | Or atoms => existsb (eval_atom l) atoms
  | In_ col vals =>
      match column col l with
      | Some x => existsb (String.eqb x) vals
      | None => false
      end
  | Ge col v => match column col l with Some x => String.leb v x | None => false end
  | Le col v => match column col l with Some x => String.leb x v | None => false end
  end.

(** The rows of [table] that satisfy every clause, in table order, cut at
    the limit. *)
Definition table_select (table : list Law.t) (s : Select) : result (list Law.t) :=
  Ok (firstn (Z.to_nat (limit s))
        (filter (fun l => forallb (eval_clause l) (where_ s)) table)).

End Db.

(* ================================================================== *)
(** * Remote source aggregation (src/pipeline/collectors/law_collector.py) *)
(* ================================================================== *)

Module Collector.
Import Py.

(** [to_query_list(query)]. *)
Definition to_query_list (query : string) : list string :=
  map strip
    (filter (fun part => negb (is_empty (strip part))) (split_char "," query)).

(** The body of the aggregation loop for one sub-query and the outcome that
    [asyncio.gather(..., return_exceptions=True)] holds for it. *)
Definition tag_results (query_str : string) (outcome : result (list RawLaw.t))
  : list CollectorItem.t :=
  match outcome with
  | Raise _ => []
  | Ok laws => map (CollectorItem.mk query_str) laws
  end.

(** [search_law(query, top_k)] over [fetch_law_for_query], the HTTP call. *)
Definition search_law
  (fetch_law_for_query : string -> Z -> result (list RawLaw.t))
  (query : string) (top_k : Z) : list CollectorItem.t :=
  let query_list := to_query_list query in
  match query_list with
  | [] => []
  | _ :: _ =>
      let per_query := Z.max 1 (top_k / Z.of_nat (List.length query_list)) in
      let results_list :=
        map (fun q => fetch_law_for_query q per_query) query_list in
      let aggregated :=
        flat_map (fun '(query_str, outcome) => tag_results query_str outcome)
          (combine query_list results_list) in
      slice_to aggregated top_k
  end.

End Collector.

(* ================================================================== *)
(** * Multi-query aggregation and tiered search (src/main.py) *)
(* ================================================================== *)

Module Main.
Import Py Scoring Db.
Local Open Scope Q_scope.

(** [x or None] on a string. *)
Definition or_none (s : string) : option string :=
  if is_empty s then None else Some s.

(** [x or ""] on an optional string. *)
Definition or_empty (o : option string) : string :=
  match o with Some s => s | None => "" end.

(** [_map_collector_result(item)]. *)
Definition _map_collector_result (item : CollectorItem.t) : LawSearchResult.t :=
  let law := CollectorItem.law item in
  {| LawSearchResult.law_id := RawLaw.law_id law;
     LawSearchResult.law_name_kr := RawLaw.name_kr law;
     LawSearchResult.law_abbr := or_none (RawLaw.abbr law);
     LawSearchResult.department := or_none (RawLaw.department law);
     LawSearchResult.status := or_none (RawLaw.status_code law);
     LawSearchResult.enforce_date := or_none (RawLaw.enforce_date law);
     LawSearchResult.promulgate_date := or_none (RawLaw.promulgate_date law);
     LawSearchResult.detail_link := or_none (RawLaw.detail_link law);
     LawSearchResult.law_type := None;
     LawSearchResult.score := None;
     LawSearchResult.snippet := None |}.

(** The text that a row is scored against. *)
Definition searchable (law : Law.t) : string :=
  strip (join " "
    (filter (fun p => negb (is_empty p))
       [Law.law_name_kr law; or_empty (Law.law_abbr law);
        or_empty (Law.department law); Law.law_id law])).

(** [_law_row_to_search_result(law, query)]. *)
Definition _law_row_to_search_result (law : Law.t) (query : string)
  : LawSearchResult.t :=
  let score := _lexical_score (searchable law) query in
  {| LawSearchResult.law_id := Law.law_id law;
     LawSearchResult.law_name_kr := Law.law_name_kr law;
     LawSearchResult.law_abbr := Law.law_abbr law;
     LawSearchResult.department := Law.department law;
     LawSearchResult.law_type := Law.law_type law;
     LawSearchResult.status := Law.status law;
     LawSearchResult.enforce_date := Law.enforce_date law;
     LawSearchResult.promulgate_date := Law.promulgate_date law;
     LawSearchResult.score := Some score;
     LawSearchResult.snippet :=
       if Qltb 0 score
       then Some (_make_snippet (searchable law) query default_window)
       else None;
     LawSearchResult.detail_link := Law.detail_link law |}.

(** [r.score or 0.0]. *)
Definition score_or_0 (r : LawSearchResult.t) : Q :=
  match LawSearchResult.score r with Some s => s | None => 0 end.

(** [_apply_search_filters(where, filters)]: the clauses it appends. *)
Definition nonempty_list (o : option (list string)) : list (list string) :=
  match o with
  | Some (x :: l) => [x :: l]
  | _ => []
  end.

Definition nonempty_str (o : option string) : list string :=
  match o with
  | Some s => if is_empty s then [] else [s]
  | None => []
  end.

Definition _apply_search_filters (filters : option LawSearchFilters.t)
  : list Clause :=
  match filters with
  | None => []
  | Some f =>
      (map (In_ ColDepartment) (nonempty_list (LawSearchFilters.department f))
       ++ map (In_ ColLawType) (nonempty_list (LawSearchFilters.law_type f))
       ++ map (In_ ColStatus) (nonempty_list (LawSearchFilters.status f))
       ++ map (Ge ColEnforceDate) (nonempty_str (LawSearchFilters.enforce_date_from f))
       ++ map (Le ColEnforceDate) (nonempty_str (LawSearchFilters.enforce_date_to f)))%list
  end.

(** The [LIKE] patterns of one sub-query. *)
Definition patterns (q : string) : list string :=
  map (fun tok => String.append "%" (String.append tok "%"))
    (match split_ws q with [] => [q] | toks => toks end).

Definition like_clauses (q : string) : list Atom :=
  (Eq ColLawId q
   :: flat_map (fun pat => [ILike ColName pat; ILike ColAbbr pat;
                            ILike ColDepartment pat]) (patterns q))%list.

Definition candidate_limit (per_query top_k : Z) : Z :=
  Z.min (Z.max (per_query * 30) (top_k * 5)) 300.

(** The statement that the loop executes for sub-query [q]. *)
Definition sub_query_select (q : string) (per_query top_k : Z)
  (filters : option LawSearchFilters.t) : Select :=
  {| where_ := (Or (like_clauses q) :: _apply_search_filters filters)%list;
     limit := candidate_limit per_query top_k |}.

(** The order of the key [(-(r.score or 0.0), r.law_name_kr)]. *)
Definition rank_leb (a b : LawSearchResult.t) : bool :=
  Qltb (- score_or_0 a) (- score_or_0 b)
  || (Qeq_bool (- score_or_0 a) (- score_or_0 b)
      && String.leb (LawSearchResult.law_name_kr a) (LawSearchResult.law_name_kr b)).

(** The rows of one sub-query, scored, without the rows of score 0, ranked. *)
Definition scored (rows : list Law.t) (q : string) : list LawSearchResult.t :=
  sort_by rank_leb
    (filter (fun r => negb (Qle_bool (score_or_0 r) 0))
       (map (fun law => _law_row_to_search_result law q) rows)).

(** The result set of one sub-query: [scored[:per_query]]. *)
Definition sub_results (rows : list Law.t) (q : string) (per_query : Z)
  : list LawSearchResult.t :=
  slice_to (scored rows q) per_query.

(** One round of the merge: keep [r] unless an entry with the same id and
    a score at least as high is there already. *)
Definition merge_one (by_id : list (string * LawSearchResult.t))
  (r : LawSearchResult.t) : list (string * LawSearchResult.t) :=
  match dict_get by_id (LawSearchResult.law_id r) with
  | None => dict_set by_id (LawSearchResult.law_id r) r
  | Some prev =>
      if Qltb (score_or_0 prev) (score_or_0 r)
      then dict_set by_id (LawSearchResult.law_id r) r
      else by_id
  end.

Definition merge_all (by_id : list (string * LawSearchResult.t))
  (rs : list LawSearchResult.t) : list (string * LawSearchResult.t) :=
  fold_left merge_one rs by_id.

(** The [for q in query_list] loop of [_db_search_laws]. *)
Fixpoint search_loop (env : Env) (query_list : list string)
  (per_query top_k : Z) (filters : option LawSearchFilters.t)
  (by_id : list (string * LawSearchResult.t))
  : M (list (string * LawSearchResult.t)) :=
  match query_list with
  | [] => ret by_id
  | q :: rest =>
      let stmt := sub_query_select q per_query top_k filters in
      bind (call (Selected stmt) (execute_select env stmt)) (fun rows =>
      search_loop env rest per_query top_k filters
        (merge_all by_id (sub_results rows q per_query)))
  end.

Definition per_query_of (top_k : Z) (query_list : list string) : Z :=
  Z.max 1 (top_k / Z.of_nat (List.length query_list)).

(** [_db_search_laws(db, query=..., top_k=..., filters=...)]. *)
Definition _db_search_laws (env : Env) (query : string) (top_k : Z)
  (filters : option LawSearchFilters.t) : M (list LawSearchResult.t) :=
  let query_list := _split_query_list query in
  match query_list with
  | [] => ret []
  | _ :: _ =>
      let per_query := per_query_of top_k query_list in
      bind (search_loop env query_list per_query top_k filters []) (fun by_id =>
      let results := sort_by rank_leb (dict_values by_id) in
      ret (slice_to results top_k))
  end.

(** The result set of sub-query [q]: what the loop merges for it. *)
Definition sub_result_set (env : Env) (per_query top_k : Z)
  (filters : option LawSearchFilters.t) (q : string) : list LawSearchResult.t :=
  match execute_select env (sub_query_select q per_query top_k filters) with
  | Ok rows => sub_results rows q per_query
  | Raise _ => []
  end.

(** The result sets of the sub-queries of one call, in the order of the
    sub-queries. *)
Definition sub_result_sets (env : Env) (query : string) (top_k : Z)
  (filters : option LawSearchFilters.t) : list (list LawSearchResult.t) :=
  let query_list := _split_query_list query in
  map (sub_result_set env (per_query_of top_k query_list) top_k filters) query_list.

(** What the merge keeps true: [by_id] is a dict keyed by the id of its
    entries, each entry was observed, every observed result has an entry
    under its id with a score at least as high, and there are no more
    entries than observed results. *)
Definition merged (by_id : list (string * LawSearchResult.t))
  (observed : list LawSearchResult.t) : Prop :=
  NoDup (dict_keys by_id)
  /\ (forall k r, dict_get by_id k = Some r ->
                  LawSearchResult.law_id r = k /\ In r observed)
  /\ (forall r', In r' observed ->
                 exists r, dict_get by_id (LawSearchResult.law_id r') = Some r
                           /\ score_or_0 r' <= score_or_0 r)
  /\ (List.length by_id <= List.length observed)%nat.

(** The values that [_cache_search_results_to_db] inserts for one item, whose
    stripped id is [law_id]. *)
Definition insert_values (law_id : string) (item : CollectorItem.t) : Upsert :=
  let law := CollectorItem.law item in
  {| values :=
       {| Law.law_id := law_id;
          Law.law_name_kr :=
            if is_empty (RawLaw.name_kr law) then law_id else RawLaw.name_kr law;
          Law.law_abbr := or_none (RawLaw.abbr law);
          Law.department := or_none (RawLaw.department law);
          Law.law_type := None;
          Law.status := or_none (RawLaw.status_code law);
          Law.enforce_date := or_none (RawLaw.enforce_date law);
          Law.promulgate_date := or_none (RawLaw.promulgate_date law);
          Law.detail_link := or_none (RawLaw.detail_link law) |};
     raw := item |}.

Fixpoint upsert_items (env : Env) (raw : list CollectorItem.t) : M unit :=
  match raw with
  | [] => ret tt
  | item :: rest =>
      let law_id := strip (RawLaw.law_id (CollectorItem.law item)) in
      if is_empty law_id then upsert_items env rest
      else
        let u := insert_values law_id item in
        bind (call (Upserted u) (execute_upsert env u)) (fun _ =>
        upsert_items env rest)
  end.

(** [_cache_search_results_to_db(db, raw)], the write-back. *)
Definition _cache_search_results_to_db (env : Env) (raw : list CollectorItem.t)
  : M unit :=
  bind (emit (WriteBack raw)) (fun _ => upsert_items env raw).

(** The best-effort block of [law_search]: write back and commit; on any
    exception roll back, and ignore an exception of the rollback too. *)
Definition best_effort_cache (env : Env) (raw : list CollectorItem.t) : M unit :=
  bind (attempt (bind (_cache_search_results_to_db env raw) (fun _ =>
             call Committed (commit env)))) (fun outcome =>
  match outcome with
  | Ok _ => ret tt
  | Raise _ => bind (attempt (call RolledBack (rollback env))) (fun _ => ret tt)
  end).

Definition note_lexical_only : string :=
  "현재는 lexical 검색만 제공되며 semantic/hybrid는 lexical로 대체 실행됩니다.".

Definition note_no_source : string :=
  "DB에 데이터가 없거나(또는 미적재) LAW_API_KEY가 없어 원격 조회를 할 수 없습니다.".

Definition is_lexical (t : SearchType) : bool :=
  match t with lexical => true | _ => false end.

Definition is_nil {A : Type} (l : list A) : bool :=
  match l with [] => true | _ => false end.

Definition is_postgres (source : option string) : bool :=
  match source with Some s => String.eqb s "postgres" | None => false end.

Definition note_parts (body : LawSearchRequest.t) (api_key : string)
  (source : option string) : list string :=
  ((if is_lexical (LawSearchRequest.search_type body) then [] else [note_lexical_only])
   ++ match source with Some s => [String.append "source=" s] | None => [] end
   ++ (if is_empty api_key && match source with None => true | Some _ => false end
       then [note_no_source] else []))%list.

Definition respond (body : LawSearchRequest.t) (api_key : string)
  (results : list LawSearchResult.t) (source : option string)
  : LawSearchResponse.t :=
  let parts := note_parts body api_key source in
  {| LawSearchResponse.results := results;
     LawSearchResponse.total_count := Z.of_nat (List.length results);
     LawSearchResponse.search_metadata :=
       {| LawSearchMetadata.search_type := LawSearchRequest.search_type body;
          LawSearchMetadata.lexical_count := Z.of_nat (List.length results);
          LawSearchMetadata.semantic_count := 0%Z;
          LawSearchMetadata.cache_hit := is_postgres source;
          LawSearchMetadata.note :=
            if is_nil parts then None else Some (join "; " parts) |} |}.

(** Step 1 of [law_search]: the persistent store first.  The triple is
    [(results, source, db_error)]. *)
Definition attempt_primary (env : Env) (body : LawSearchRequest.t)
  : M (list LawSearchResult.t * option string * option exn) :=
  bind (attempt (_db_search_laws env (LawSearchRequest.query body)
               (LawSearchRequest.top_k body) (LawSearchRequest.filters body)))
  (fun outcome =>
  match outcome with
  | Ok results =>
      ret (results, (if is_nil results then None else Some "postgres"), None)
  | Raise e => ret ([], None, Some e)
  end).

(** Step 2: the remote source, when the first step left nothing and the API
    key is set, then the best-effort write-back. *)
Definition attempt_secondary (env : Env) (body : LawSearchRequest.t)
  (results : list LawSearchResult.t) (source : option string)
  : M (list LawSearchResult.t * option string) :=
  if is_nil results && negb (is_empty (law_api_key env))
  then
    let query := LawSearchRequest.query body in
    let top_k := LawSearchRequest.top_k body in
    bind (attempt (call (CollectorSearch query top_k)
                 (collector_search_law env query top_k))) (fun outcome =>
    match outcome with
    | Ok raw =>
        bind (best_effort_cache env raw) (fun _ =>
        ret (map _map_collector_result raw, Some "law.go.kr"))
    | Raise e =>
        raise (HTTPException 500 "InternalServerError" (exn_str e))
    end)
  else ret (results, source).

(** [law_search(body, request, db)]. *)
Definition law_search (env : Env) (body : LawSearchRequest.t)
  : M LawSearchResponse.t :=
  bind (attempt_primary env body) (fun '(results, source, db_error) =>
  bind (attempt_secondary env body results source) (fun '(results, source) =>
  match db_error with
  | Some e =>
      if is_nil results && is_empty (law_api_key env)
      then raise (HTTPException 503 "ServiceUnavailable" (exn_str e))
      else ret (respond body (law_api_key env) results source)
  | None => ret (respond body (law_api_key env) results source)
  end)).

(** [env] with other outcomes of the upserts, the commit and the rollback. *)
Definition with_writes (env : Env) (upsert : Upsert -> result unit)
  (commit_outcome rollback_outcome : result unit) : Env :=
  {| law_api_key := law_api_key env;
     execute_select := execute_select env;
     execute_upsert := upsert;
     commit := commit_outcome;
     rollback := rollback_outcome;
     collector_search_law := collector_search_law env |}.

(** ** Collaborators for concrete runs *)

Definition plain_law (law_id name : string) : Law.t :=
  {| Law.law_id := law_id; Law.law_name_kr := name; Law.law_abbr := None;
     Law.department := None; Law.law_type := None; Law.status := None;
     Law.enforce_date := None; Law.promulgate_date := None;
     Law.detail_link := None |}.

Definition demo_table : list Law.t :=
  [plain_law "L1" "alpha"; plain_law "L2" "beta"].

Definition plain_raw (law_id name : string) : RawLaw.t :=
  {| RawLaw.name_kr := name; RawLaw.department := ""; RawLaw.enforce_date := "";
     RawLaw.promulgate_date := ""; RawLaw.abbr := ""; RawLaw.detail_link := "";
     RawLaw.serial := ""; RawLaw.law_id := law_id; RawLaw.status_code := "" |}.

(** A session over [table], without API key, whose writes succeed. *)
Definition table_env (table : list Law.t) : Env :=
  {| law_api_key := "";
     execute_select := table_select table;
     execute_upsert := fun _ => Ok tt;
     commit := Ok tt;
     rollback := Ok tt;
     collector_search_law := fun _ _ => Ok [] |}.

(** A session that cannot be reached, without API key. *)
Definition down_env : Env :=
  {| law_api_key := "";
     execute_select := fun _ => Raise (ExternalError "connection refused");
     execute_upsert := fun _ => Raise (ExternalError "connection refused");
     commit := Raise (ExternalError "connection refused");
     rollback := Raise (ExternalError "connection refused");
     collector_search_law := fun _ _ => Ok [] |}.

(** An empty table, an API key, a remote source with two records, and a
    session on which every write, the commit and the rollback fail. *)
Definition fallback_env : Env :=
  {| law_api_key := "key";
     execute_select := table_select [];
     execute_upsert := fun _ => Raise (ExternalError "read-only");
     commit := Raise (ExternalError "read-only");
     rollback := Raise (ExternalError "read-only");
     collector_search_law := fun q _ =>
       Ok [CollectorItem.mk q (plain_raw "L1" "alpha");
           CollectorItem.mk q (plain_raw "L2" "beta")] |}.

Definition request (query : string) (top_k : Z) : LawSearchRequest.t :=
  {| LawSearchRequest.query := query;
     LawSearchRequest.search_type := lexical;
     LawSearchRequest.top_k := top_k;
     LawSearchRequest.filters := None |}.

End Main.

(* ================================================================== *)
(** * Document store (src/core/vector_store.py) *)
(* ================================================================== *)

Module VectorStore.
Import Py.
Local Open Scope Q_scope.

(** [VectorDocument]; metadata values are strings. *)
Record VectorDocument : Type := mkDocument {
  id : string;
  embedding : list Q;
  content : string;
  metadata : list (string * string);
  payload : option (list (string * string))
}.

(** The fields of [VectorStoreConfig] that the backends read. *)
Record VectorStoreConfig : Type := mkConfig {
  collection_name : string;
  embedding_dimension : Z;
  qdrant_url : option string;
  qdrant_api_key : option string
}.

(** [collection or self.config.collection_name]: [None] and the empty
    string both stand for the configured collection. *)
Definition _get_collection_name (config : VectorStoreConfig)
  (collection : option string) : string :=
  match collection with
  | Some c => if is_empty c then collection_name config else c
  | None => collection_name config
  end.

(** [all(doc.metadata.get(k) == v for k, v in filters.items())]. *)
Definition matches (filters : list (string * string)) (doc : VectorDocument) : bool :=
  forallb (fun '(k, v) =>
             match dict_get (metadata doc) k with
             | Some x => String.eqb x v
             | None => false
             end) filters.

(** The documents left by [filters]; [None] and the empty dict are no
    restriction. *)
Definition apply_filters (filters : option (list (string * string)))
  (documents : list VectorDocument) : list VectorDocument :=
  match filters with
  | Some (f :: fs) => filter (matches (f :: fs)) documents
  | _ => documents
  end.

(** A Python float as far as the stores compare it: a number, taken
    exactly, or NaN.  The infinities, which the comparisons order like
    numbers, are left out. *)
Inductive float : Type :=
| Num (q : Q)
| NaN.

Definition is_nan (x : float) : bool :=
  match x with
  | NaN => true
  | Num _ => false
  end.

(** [a >= b] on floats: false as soon as one side is NaN. *)
Definition fge (a b : float) : bool :=
  match a, b with
  | Num x, Num y => Qle_bool y x
  | _, _ => false
  end.

(** [a * b] and [a + b] on floats: NaN goes through. *)
Definition fmul (a b : float) : float :=
  match a, b with
  | Num x, Num y => Num (x * y)
  | _, _ => NaN
  end.

Definition fadd (a b : float) : float :=
  match a, b with
  | Num x, Num y => Num (x + y)
  | _, _ => NaN
  end.

Record SearchResult : Type := mkResult {
  result_id : string;
  score : float;
  result_content : option string;
  result_metadata : list (string * string);
  result_payload : option (list (string * string))
}.

(** What the stores take from numpy and from the floats of CPython.
    [linalg_norm] is [np.linalg.norm], which has no exact rational value in
    general.  [true_divide a b] is [float(a / b)] for a divisor other than
    zero: the quotient, or NaN where the doubles behind both operands have
    overflowed (inf / inf).  [sort_with_nan] is what [list.sort] leaves of a
    list in which a key is NaN: every comparison with NaN is false, and the
    order that comes out is not determined by the keys. *)
Record Numerics : Type := mkNumerics {
  linalg_norm : list Q -> Q;
  true_divide : Q -> Q -> float;
  sort_with_nan : list (VectorDocument * float) -> list (VectorDocument * float)
}.

(** [np.dot] on two one-dimensional arrays: shapes must agree. *)
Fixpoint np_dot (a b : list Q) : result Q :=
  match a, b with
  | [], [] => Ok 0
  | x :: a', y :: b' =>
      match np_dot a' b' with
      | Ok d => Ok (x * y + d)
      | Raise e => Raise e
      end
  | _, _ => Raise (ValueError "shapes not aligned")
  end.

(** Division of floats as the scoring code needs it: a zero divisor, which
    numpy would answer with inf or nan, is reported as such, so that a
    theorem can say that it does not happen. *)
Inductive quotient : Type :=
| Quot (x : float)
| ZeroDivisor.

Definition divide (np : Numerics) (a b : Q) : quotient :=
  if Qeq_bool b 0 then ZeroDivisor else Quot (true_divide np a b).

(** [_cosine_similarity(vec1, vec2)], the same text in the in-process and
    the file-backed store. *)
Definition cosine_quotient (np : Numerics) (vec1 vec2 : list Q)
  : result quotient :=
  match np_dot vec1 vec2 with
  | Raise e => Raise e
  | Ok dot_product =>
      let norm1 := linalg_norm np vec1 in
      let norm2 := linalg_norm np vec2 in
      if Qeq_bool norm1 0 || Qeq_bool norm2 0 then Ok (Quot (Num 0))
      else Ok (divide np dot_product (norm1 * norm2))
  end.

Definition _cosine_similarity (np : Numerics) (vec1 vec2 : list Q)
  : result float :=
  match cosine_quotient np vec1 vec2 with
  | Raise e => Raise e
  | Ok (Quot x) => Ok x
  | Ok ZeroDivisor => Raise (ExternalError "division by zero")
  end.

(** An exact Euclidean norm on the vectors whose squared norm is the square
    of a rational (an integer square root otherwise), for concrete runs. *)
Definition norm_sqrt (v : list Q) : Q :=
  let sq := Qred (fold_right (fun x acc => x * x + acc) 0 v) in
  Z.sqrt (Qnum sq) # Pos.sqrt (Qden sq).

(** Numerics for concrete runs in which nothing overflows: every quotient
    is a number, and [sort_with_nan] is never reached from a score computed
    here. *)
Definition exact_floats : Numerics :=
  {| linalg_norm := norm_sqrt;
     true_divide := fun a b => Num (a / b);
     sort_with_nan := fun l => l |}.

(** The largest double, [sys.float_info.max]. *)
Definition float_max : Q := inject_Z (2 ^ 1024 - 2 ^ 971).

(** Numerics for concrete runs with overflow: a quotient whose operands are
    both beyond the largest double is inf / inf, which is NaN.
    [sort_with_nan] leaves the list as it is, which is what CPython does to
    a list of three whose middle key is NaN. *)
Definition overflowing_floats : Numerics :=
  {| linalg_norm := norm_sqrt;
     true_divide := fun a b =>
       if Qltb float_max (Qabs a) && Qltb float_max (Qabs b)
       then NaN else Num (a / b);
     sort_with_nan := fun l => l |}.

(** The scoring loop: each document with its score, or the first exception. *)
Fixpoint score_all (score_of : VectorDocument -> result float)
  (docs : list VectorDocument) : result (list (VectorDocument * float)) :=
  match docs with
  | [] => Ok []
  | doc :: rest =>
      match score_of doc with
      | Raise e => Raise e
      | Ok s =>
          match score_all score_of rest with
          | Raise e => Raise e
          | Ok l => Ok ((doc, s) :: l)
          end
      end
  end.

(** The order of [sort(key=lambda x: x[1], reverse=True)], on keys that are
    numbers and on float keys. *)
Definition by_score_desc (a b : VectorDocument * Q) : bool :=
  Qle_bool (snd b) (snd a).

Definition by_float_desc (a b : VectorDocument * float) : bool :=
  fge (snd a) (snd b).

Definition has_nan (scored : list (VectorDocument * float)) : bool :=
  existsb (fun p => is_nan (snd p)) scored.

(** [results_with_scores.sort(key=lambda x: x[1], reverse=True)]: the keys
    order the list when they are all numbers. *)
Definition sort_desc (np : Numerics) (scored : list (VectorDocument * float))
  : list (VectorDocument * float) :=
  if has_nan scored then sort_with_nan np scored
  else sort_by by_float_desc scored.

Definition to_result (p : VectorDocument * float) : SearchResult :=
  let '(doc, s) := p in
  {| result_id := id doc;
     score := s;
     result_content := Some (content doc);
     result_metadata := metadata doc;
     result_payload := payload doc |}.

(** A configuration for concrete runs. *)
Definition demo_config : VectorStoreConfig :=
  {| collection_name := "default"; embedding_dimension := 2;
     qdrant_url := None; qdrant_api_key := None |}.

(** Three documents for concrete runs; the norms of their embeddings are
    1, 1 and 5. *)
Definition doc_a : VectorDocument :=
  {| id := "a"; embedding := [1; 0]; content := "Road Traffic Act";
     metadata := [("kind", "act")]; payload := None |}.

Definition doc_b : VectorDocument :=
  {| id := "b"; embedding := [0; 1]; content := "Income Tax Act";
     metadata := [("kind", "act")]; payload := None |}.

Definition doc_c : VectorDocument :=
  {| id := "c"; embedding := [3; 4]; content := "Road rules";
     metadata := [("kind", "decree")]; payload := None |}.

(** Two documents for concrete runs with overflow: one whose embedding is
    so large that its norm and its dot product with [[10; 10]] are beyond
    the largest double, and one whose embedding is [[10; 10]] itself. *)
Definition doc_huge : VectorDocument :=
  {| id := "h"; embedding := [inject_Z (10 ^ 308); inject_Z (10 ^ 308)];
     content := "Huge"; metadata := []; payload := None |}.

Definition doc_near : VectorDocument :=
  {| id := "n"; embedding := [10; 10]; content := "Near";
     metadata := []; payload := None |}.

(** Results in non-increasing order of score: [r1.score >= r2.score]. *)
Definition score_desc (r1 r2 : SearchResult) : Prop :=
  fge (score r1) (score r2) = true.

(** [json.dumps] on a metadata dict whose keys and values need no escape,
    for concrete runs. *)
Definition dquote : string := String (ascii_of_nat 34) EmptyString.

Definition json_dumps_plain (d : list (string * string)) : string :=
  String.append "{"
    (String.append
       (join ", " (map (fun '(k, v) =>
                          String.append dquote
                            (String.append k
                               (String.append dquote
                                  (String.append ": "
                                     (String.append dquote
                                        (String.append v dquote)))))) d))
       "}").

(** Sort, cut at [top_k], build the results. *)
Definition rank (np : Numerics) (scored : list (VectorDocument * float))
  (top_k : Z) : list SearchResult :=
  map to_result (slice_to (sort_desc np scored) top_k).

End VectorStore.

(* ================================================================== *)
(** * In-process document store (src/core/in_memory_store.py) *)
(* ================================================================== *)

Module InMemoryVectorStore.
Import Py VectorStore.

Definition Collection : Type := list (string * VectorDocument).

Record t : Type := mk {
  config : VectorStoreConfig;
  _collections : list (string * Collection);
  _initialized : bool
}.

(** [InMemoryVectorStore(config)]. *)
Definition __init__ (config : VectorStoreConfig) : t :=
  {| config := config; _collections := []; _initialized := false |}.

Definition initialize (s : t) : t * result unit :=
  ({| config := config s; _collections := _collections s; _initialized := true |},
   Ok tt).

(** A store of three documents, for concrete runs. *)
Definition demo : t :=
  {| config := demo_config;
     _collections := [("default", [("a", doc_a); ("b", doc_b); ("c", doc_c)])];
     _initialized := true |}.

(** A store in which the middle one of three documents overflows. *)
Definition demo_overflow : t :=
  {| config := demo_config;
     _collections :=
       [("default", [("a", doc_a); ("h", doc_huge); ("n", doc_near)])];
     _initialized := true |}.

Definition close (s : t) : t * result unit :=
  ({| config := config s; _collections := []; _initialized := false |}, Ok tt).

Definition with_collections (s : t) (c : list (string * Collection)) : t :=
  {| config := config s; _collections := c; _initialized := _initialized s |}.

(** [self._collections[name]] on the [defaultdict(dict)]: a missing key is
    entered with an empty collection. *)
Definition getitem (s : t) (name : string) : t * Collection :=
  match dict_get (_collections s) name with
  | Some c => (s, c)
  | None => (with_collections s (dict_set (_collections s) name []), [])
  end.

(** [self._collections[name][doc_id] = doc]. *)
Definition store_document (s : t) (name : string) (doc : VectorDocument) : t :=
  let '(s1, c) := getitem s name in
  with_collections s1 (dict_set (_collections s1) name (dict_set c (id doc) doc)).

Definition add_documents (s : t) (documents : list VectorDocument)
  (collection : option string) : t * result (list string) :=
  let coll_name := _get_collection_name (config s) collection in
  (fold_left (fun st doc => store_document st coll_name doc) documents s,
   Ok (map id documents)).

(** One round of the loop of [delete_documents]. *)
Definition delete_one (name : string) (acc : t * Z) (doc_id : string) : t * Z :=
  let '(s, deleted_count) := acc in
  let '(s1, c) := getitem s name in
  if dict_mem c doc_id
  then (with_collections s1 (dict_set (_collections s1) name (dict_del c doc_id)),
        (deleted_count + 1)%Z)
  else (s1, deleted_count).

Definition delete_documents (s : t) (ids : list string)
  (collection : option string) : t * result Z :=
  let coll_name := _get_collection_name (config s) collection in
  let '(s', n) := fold_left (delete_one coll_name) ids (s, 0%Z) in
  (s', Ok n).

Definition search (np : Numerics) (s : t) (query_embedding : list Q)
  (top_k : Z) (collection : option string)
  (filters : option (list (string * string))) : t * result (list SearchResult) :=
  let coll_name := _get_collection_name (config s) collection in
  let '(s1, c) := getitem s coll_name in
  let filtered_docs := apply_filters filters (dict_values c) in
  match filtered_docs with
  | [] => (s1, Ok [])
  | _ :: _ =>
      match score_all (fun doc => _cosine_similarity np query_embedding (embedding doc))
              filtered_docs with
      | Raise e => (s1, Raise e)
      | Ok results_with_scores => (s1, Ok (rank np results_with_scores top_k))
      end
  end.

(** [hybrid_search]: the vector search alone, with twice the budget, cut
    again; [query] and the two weights are not read. *)
Definition hybrid_search (np : Numerics) (s : t) (query : string)
  (query_embedding : list Q) (top_k : Z) (collection : option string)
  (filters : option (list (string * string))) (vector_weight lexical_weight : Q)
  : t * result (list SearchResult) :=
  match search np s query_embedding (top_k * 2) collection filters with
  | (s1, Ok vector_results) => (s1, Ok (slice_to vector_results top_k))
  | (s1, Raise e) => (s1, Raise e)
  end.

Definition count_documents (s : t) (collection : option string)
  (filters : option (list (string * string))) : t * result Z :=
  let coll_name := _get_collection_name (config s) collection in
  let '(s1, c) := getitem s coll_name in
  (s1, Ok (Z.of_nat (List.length (apply_filters filters (dict_values c))))).

Definition delete_collection (s : t) (collection : string) : t * result unit :=
  if dict_mem (_collections s) collection
  then (with_collections s (dict_del (_collections s) collection), Ok tt)
  else (s, Ok tt).

Definition collection_exists (s : t) (collection : string) : t * result bool :=
  (s, Ok (dict_mem (_collections s) collection)).

End InMemoryVectorStore.

(* ================================================================== *)
(** * File-backed document store (src/core/file_system_store.py) *)
(* ================================================================== *)

Module FileSystemVectorStore.
Import Py VectorStore.
Local Open Scope Q_scope.

(** A collection directory: file name to the document that the JSON file
    holds, in listing order.  What else the directory may hold
    (sub-directories, files that are not a document) is not listed by
    [_get_all_documents] and is left out. *)
Definition Directory : Type := list (string * VectorDocument).

(** The length of [s.encode("utf-8")] for code points below 256. *)
Fixpoint utf8_length (s : string) : nat :=
  match s with
  | EmptyString => 0
  | String c s' =>
      ((if (nat_of_ascii c <? 128)%nat then 1 else 2) + utf8_length s')%nat
  end.

Definition nul : string := String (ascii_of_nat 0) EmptyString.

(** The names that a Linux file system takes for one entry of a directory:
    not empty, not "." and not "..", without "/" and without NUL, of at
    most 255 bytes. *)
Definition entry_name (n : string) : bool :=
  negb (is_empty n) && negb (String.eqb n ".") && negb (String.eqb n "..")
  && negb (contains "/" n) && negb (contains nul n)
  && (utf8_length n <=? 255)%nat.

(** What the host does with a path that is more than an entry of the
    collection directory.  [coll_dir / f"{doc_id}.json"] keeps whatever the
    id holds: an id with a path separator names a file in a sub-directory,
    in another collection or outside the storage, which [glob("*.json")] on
    the collection directory does not list, and a NUL or a name that is too
    long makes [open] raise.  [write_path] is the write of [_save_document]
    and [unlink_path] the test and removal of [delete_documents] at such a
    path: the storage afterwards, and the outcome. *)
Record Host : Type := mkHost {
  write_path : list (string * Directory) -> string -> string -> VectorDocument
               -> list (string * Directory) * result unit;
  unlink_path : list (string * Directory) -> string -> string
                -> list (string * Directory) * result bool
}.

(** A host for concrete runs, which refuses every such path. *)
Definition refusing_host : Host :=
  {| write_path := fun st _ _ _ => (st, Raise (ExternalError "path refused"));
     unlink_path := fun st _ _ => (st, Raise (ExternalError "path refused")) |}.

Record t : Type := mk {
  config : VectorStoreConfig;
  storage : list (string * Directory);
  _initialized : bool
}.

Definition __init__ (config : VectorStoreConfig) (on_disk : list (string * Directory)) : t :=
  {| config := config; storage := on_disk; _initialized := false |}.

Definition initialize (s : t) : t * result unit :=
  ({| config := config s; storage := storage s; _initialized := true |}, Ok tt).

(** A store over a directory of three documents, for concrete runs. *)
Definition demo : t :=
  {| config := demo_config;
     storage := [("default", [("a.json", doc_a); ("b.json", doc_b); ("c.json", doc_c)])];
     _initialized := true |}.

(** A directory in which the middle one of three documents overflows. *)
Definition demo_overflow : t :=
  {| config := demo_config;
     storage :=
       [("default", [("a.json", doc_a); ("h.json", doc_huge); ("n.json", doc_near)])];
     _initialized := true |}.

Definition close (s : t) : t * result unit :=
  ({| config := config s; storage := storage s; _initialized := false |}, Ok tt).

Definition with_storage (s : t) (d : list (string * Directory)) : t :=
  {| config := config s; storage := d; _initialized := _initialized s |}.

Definition file_name (doc_id : string) : string := String.append doc_id ".json".

(** Whether [coll_dir / f"{doc_id}.json"] is the entry [file_name doc_id]
    of the directory [coll_name] of the storage. *)
Definition in_collection_dir (coll_name doc_id : string) : bool :=
  entry_name coll_name && entry_name (file_name doc_id).

(** [_save_document(doc, collection)]: the directory is made when missing
    and the file is written over. *)
Definition _save_document (host : Host) (s : t) (doc : VectorDocument)
  (coll_name : string) : t * result unit :=
  if in_collection_dir coll_name (id doc)
  then
    let dir := match dict_get (storage s) coll_name with
               | Some d => d
               | None => []
               end in
    (with_storage s
       (dict_set (storage s) coll_name (dict_set dir (file_name (id doc)) doc)),
     Ok tt)
  else
    let '(st, r) := write_path host (storage s) coll_name (file_name (id doc)) doc in
    (with_storage s st, r).

(** The loop of [add_documents]: an exception leaves the files written so
    far. *)
Fixpoint save_all (host : Host) (s : t) (documents : list VectorDocument)
  (coll_name : string) : t * result unit :=
  match documents with
  | [] => (s, Ok tt)
  | doc :: rest =>
      match _save_document host s doc coll_name with
      | (s1, Ok _) => save_all host s1 rest coll_name
      | (s1, Raise e) => (s1, Raise e)
      end
  end.

Definition add_documents (host : Host) (s : t) (documents : list VectorDocument)
  (collection : option string) : t * result (list string) :=
  let coll_name := _get_collection_name (config s) collection in
  match save_all host s documents coll_name with
  | (s', Ok _) => (s', Ok (map id documents))
  | (s', Raise e) => (s', Raise e)
  end.

(** One round of the loop of [delete_documents]: whether the file was there
    and has been removed. *)
Definition delete_one (host : Host) (coll_name : string) (s : t) (doc_id : string)
  : t * result bool :=
  if in_collection_dir coll_name doc_id
  then
    match dict_get (storage s) coll_name with
    | Some dir =>
        if dict_mem dir (file_name doc_id)
        then (with_storage s (dict_set (storage s) coll_name
                                (dict_del dir (file_name doc_id))),
              Ok true)
        else (s, Ok false)
    | None => (s, Ok false)
    end
  else
    let '(st, r) := unlink_path host (storage s) coll_name (file_name doc_id) in
    (with_storage s st, r).

Fixpoint delete_all (host : Host) (coll_name : string) (s : t) (ids : list string)
  (deleted_count : Z) : t * result Z :=
  match ids with
  | [] => (s, Ok deleted_count)
  | doc_id :: rest =>
      match delete_one host coll_name s doc_id with
      | (s1, Ok true) => delete_all host coll_name s1 rest (deleted_count + 1)%Z
      | (s1, Ok false) => delete_all host coll_name s1 rest deleted_count
      | (s1, Raise e) => (s1, Raise e)
      end
  end.

Definition delete_documents (host : Host) (s : t) (ids : list string)
  (collection : option string) : t * result Z :=
  let coll_name := _get_collection_name (config s) collection in
  delete_all host coll_name s ids 0%Z.

(** [_get_all_documents(collection)]: the files of the directory whose name
    does not start with a dot. *)
Definition _get_all_documents (s : t) (coll_name : string) : list VectorDocument :=
  match dict_get (storage s) coll_name with
  | None => []
  | Some dir =>
      map snd (filter (fun '(name, _) => negb (startswith "." name)) dir)
  end.

Definition search (np : Numerics) (s : t) (query_embedding : list Q)
  (top_k : Z) (collection : option string)
  (filters : option (list (string * string))) : t * result (list SearchResult) :=
  let coll_name := _get_collection_name (config s) collection in
  let filtered_docs := apply_filters filters (_get_all_documents s coll_name) in
  match filtered_docs with
  | [] => (s, Ok [])
  | _ :: _ =>
      match score_all (fun doc => _cosine_similarity np query_embedding (embedding doc))
              filtered_docs with
      | Raise e => (s, Raise e)
      | Ok results_with_scores => (s, Ok (rank np results_with_scores top_k))
      end
  end.

(** The score that [_lexical_search] gives one document; [json_dumps] is
    [json.dumps] on the metadata. *)
Definition lexical_score_of (json_dumps : list (string * string) -> string)
  (query_lower : string) (doc : VectorDocument) : Q :=
  let searchable_text :=
    lower (String.append (content doc)
             (String.append " " (json_dumps (metadata doc)))) in
  let score := 0 in
  let score := if contains query_lower searchable_text then score + 0.8 else score in
  let words := split_ws query_lower in
  fold_left (fun score word =>
               if contains word searchable_text
               then score + 0.2 / inject_Z (Z.of_nat (List.length words))
               else score) words score.

(** [_lexical_search(query, documents)]. *)
Definition _lexical_search (json_dumps : list (string * string) -> string)
  (query : string) (documents : list VectorDocument)
  : list (VectorDocument * Q) :=
  let query_lower := lower query in
  sort_by by_score_desc
    (filter (fun p => Qltb 0 (snd p))
       (map (fun doc => (doc, lexical_score_of json_dumps query_lower doc))
          documents)).

(** A dict of scores keyed by document id, filled in the order of [l]. *)
Definition scores_by_id {S : Type} (l : list (VectorDocument * S))
  : list (string * S) :=
  fold_left (fun d p => dict_set d (id (fst p)) (snd p)) l [].

(** [d.get(k, 0.0)]. *)
Definition get_or_0 {S : Type} (zero : S) (d : list (string * S)) (k : string) : S :=
  match dict_get d k with Some x => x | None => zero end.

(** [vec_score * vector_weight + lex_score * lexical_weight]. *)
Definition combine (vec_score : float) (vector_weight lex_score lexical_weight : Q)
  : float :=
  fadd (fmul vec_score (Num vector_weight)) (Num (lex_score * lexical_weight)).

(** The scoring loops of [hybrid_search]: [results_with_scores], the
    candidates with the scores that the list is then sorted by. *)
Definition hybrid_scores (np : Numerics)
  (json_dumps : list (string * string) -> string) (query : string)
  (query_embedding : list Q) (vector_weight lexical_weight : Q)
  (filtered_docs : list VectorDocument)
  : result (list (VectorDocument * float)) :=
  match score_all (fun doc => _cosine_similarity np query_embedding (embedding doc))
          filtered_docs with
  | Raise e => Raise e
  | Ok vector_results =>
      let vector_scores := scores_by_id vector_results in
      let lexical_scores :=
        scores_by_id (_lexical_search json_dumps query filtered_docs) in
      let combined_scores :=
        fold_left (fun d doc =>
                     dict_set d (id doc)
                       (combine (get_or_0 (Num 0) vector_scores (id doc))
                          vector_weight
                          (get_or_0 0 lexical_scores (id doc))
                          lexical_weight))
          filtered_docs [] in
      Ok (flat_map (fun doc =>
                      match dict_get combined_scores (id doc) with
                      | Some c => [(doc, c)]
                      | None => []
                      end) filtered_docs)
  end.

Definition hybrid_search (np : Numerics)
  (json_dumps : list (string * string) -> string) (s : t) (query : string)
  (query_embedding : list Q) (top_k : Z) (collection : option string)
  (filters : option (list (string * string))) (vector_weight lexical_weight : Q)
  : t * result (list SearchResult) :=
  let coll_name := _get_collection_name (config s) collection in
  let filtered_docs := apply_filters filters (_get_all_documents s coll_name) in
  match filtered_docs with
  | [] => (s, Ok [])
  | _ :: _ =>
      match hybrid_scores np json_dumps query query_embedding vector_weight
              lexical_weight filtered_docs with
      | Raise e => (s, Raise e)
      | Ok results_with_scores => (s, Ok (rank np results_with_scores top_k))
      end
  end.

Definition count_documents (s : t) (collection : option string)
  (filters : option (list (string * string))) : t * result Z :=
  let coll_name := _get_collection_name (config s) collection in
  (s, Ok (Z.of_nat (List.length
                      (apply_filters filters (_get_all_documents s coll_name))))).

Definition delete_collection (s : t) (collection : string) : t * result unit :=
  let coll_name := _get_collection_name (config s) (Some collection) in
  (with_storage s (dict_del (storage s) coll_name), Ok tt).

Definition collection_exists (s : t) (collection : string) : t * result bool :=
  let coll_name := _get_collection_name (config s) (Some collection) in
  (s, Ok (dict_mem (storage s) coll_name)).

End FileSystemVectorStore.

(* ================================================================== *)
(** * Remote document store (src/core/qdrant_store.py) *)
(* ================================================================== *)

Module QdrantVectorStore.
Import Py VectorStore.

Record PointStruct : Type := mkPoint {
  point_id : string;
  vector : list Q;
  point_payload : list (string * string)
}.

Record ScoredPoint : Type := mkScored {
  scored_id : string;
  scored_score : float;
  scored_payload : option (list (string * string))
}.

(** The calls of [AsyncQdrantClient] that the store makes, by outcome. *)
Record AsyncQdrantClient : Type := mkClient {
  client_collection_exists : string -> result bool;
  client_create_collection : string -> Z -> result unit;
  client_upsert : string -> list PointStruct -> result unit;
  client_delete : string -> list string -> result unit;
  client_search : string -> list Q -> Z -> option (list (string * string))
                  -> result (list ScoredPoint);
  client_search_named : string -> string -> list Q -> Z
                        -> option (list (string * string))
                        -> result (list ScoredPoint);
  client_count : string -> result Z;
  client_delete_collection : string -> result unit
}.

Record t : Type := mk {
  config : VectorStoreConfig;
  client : option AsyncQdrantClient
}.

Definition __init__ (config : VectorStoreConfig) : t :=
  {| config := config; client := None |}.

Definition not_initialized : exn := RuntimeError "VectorStore not initialized".

(** [_ensure_collection_exists()]. *)
Definition _ensure_collection_exists (c : AsyncQdrantClient)
  (config : VectorStoreConfig) : result unit :=
  match client_collection_exists c (collection_name config) with
  | Raise e => Raise e
  | Ok true => Ok tt
  | Ok false =>
      client_create_collection c (collection_name config)
        (embedding_dimension config)
  end.

(** [initialize()]; [connect] builds the client for a URL and a key. *)
Definition initialize
  (connect : string -> option string -> AsyncQdrantClient) (s : t)
  : t * result unit :=
  match qdrant_url (config s) with
  | None => (s, Raise (ValueError "QDRANT_URL is required for QdrantVectorStore"))
  | Some url =>
      if is_empty url
      then (s, Raise (ValueError "QDRANT_URL is required for QdrantVectorStore"))
      else
        let c := connect url (qdrant_api_key (config s)) in
        ({| config := config s; client := Some c |},
         _ensure_collection_exists c (config s))
  end.

Definition close (s : t) : t * result unit :=
  ({| config := config s; client := None |}, Ok tt).

(** [_to_qdrant_point(doc)]. *)
Definition _to_qdrant_point (doc : VectorDocument) : PointStruct :=
  let merged :=
    fold_left (fun d '(k, v) => dict_set d k v) (metadata doc)
      [("content", content doc)] in
  let merged :=
    match payload doc with
    | Some (x :: extra) => fold_left (fun d '(k, v) => dict_set d k v) (x :: extra) merged
    | _ => merged
    end in
  {| point_id := id doc; vector := embedding doc; point_payload := merged |}.

(** [_to_search_result(scored_point)]. *)
Definition _to_search_result (p : ScoredPoint) : SearchResult :=
  let full := match scored_payload p with Some d => d | None => [] end in
  let rest := dict_del full "content" in
  {| result_id := scored_id p;
     score := scored_score p;
     result_content := dict_get full "content";
     result_metadata := rest;
     result_payload := Some rest |}.

Definition query_filter (filters : option (list (string * string)))
  : option (list (string * string)) :=
  match filters with
  | Some (f :: fs) => Some (f :: fs)
  | _ => None
  end.

Definition add_documents (s : t) (documents : list VectorDocument)
  (collection : option string) : t * result (list string) :=
  match client s with
  | None => (s, Raise not_initialized)
  | Some c =>
      let coll_name := _get_collection_name (config s) collection in
      match client_upsert c coll_name (map _to_qdrant_point documents) with
      | Raise e => (s, Raise e)
      | Ok _ => (s, Ok (map id documents))
      end
  end.

Definition delete_documents (s : t) (ids : list string)
  (collection : option string) : t * result Z :=
  match client s with
  | None => (s, Raise not_initialized)
  | Some c =>
      let coll_name := _get_collection_name (config s) collection in
      match client_delete c coll_name ids with
      | Raise e => (s, Raise e)
      | Ok _ => (s, Ok (Z.of_nat (List.length ids)))
      end
  end.

Definition search (s : t) (query_embedding : list Q) (top_k : Z)
  (collection : option string) (filters : option (list (string * string)))
  : t * result (list SearchResult) :=
  match client s with
  | None => (s, Raise not_initialized)
  | Some c =>
      let coll_name := _get_collection_name (config s) collection in
      match client_search c coll_name query_embedding top_k (query_filter filters) with
      | Raise e => (s, Raise e)
      | Ok results => (s, Ok (map _to_search_result results))
      end
  end.

Definition hybrid_search (s : t) (query : string) (query_embedding : list Q)
  (top_k : Z) (collection : option string)
  (filters : option (list (string * string))) (vector_weight lexical_weight : Q)
  : t * result (list SearchResult) :=
  match client s with
  | None => (s, Raise not_initialized)
  | Some c =>
      let coll_name := _get_collection_name (config s) collection in
      match client_search_named c coll_name "vector" query_embedding top_k
              (query_filter filters) with
      | Raise (UnexpectedResponse _) => (s, Ok [])
      | Raise e => (s, Raise e)
      | Ok results => (s, Ok (map _to_search_result results))
      end
  end.

Definition count_documents (s : t) (collection : option string)
  (filters : option (list (string * string))) : t * result Z :=
  match client s with
  | None => (s, Raise not_initialized)
  | Some c =>
      let coll_name := _get_collection_name (config s) collection in
      match client_count c coll_name with
      | Raise e => (s, Raise e)
      | Ok n => (s, Ok n)
      end
  end.

Definition delete_collection (s : t) (collection : string) : t * result unit :=
  match client s with
  | None => (s, Raise not_initialized)
  | Some c =>
      match client_delete_collection c collection with
      | Raise (UnexpectedResponse _) => (s, Ok tt)
      | Raise e => (s, Raise e)
      | Ok _ => (s, Ok tt)
      end
  end.

Definition collection_exists (s : t) (collection : string) : t * result bool :=
  match client s with
  | None => (s, Ok false)
  | Some c => (s, client_collection_exists c collection)
  end.

End QdrantVectorStore.

(* ================================================================== *)
(** * In-process cache (src/core/cache.py, src/core/in_memory_cache.py) *)
(* ================================================================== *)

Module InMemoryCache.
Import Py.
Local Open Scope Q_scope.

(** The fields of [CacheConfig] that the in-process cache reads. *)
Record CacheConfig : Type := mkConfig {
  ttl : Z;
  prefix : string
}.

(** A stored entry: the value and its expiry, a reading of [time.time()]. *)
Definition Entry : Type := (string * Q)%type.

Record t : Type := mk {
  config : CacheConfig;
  _store : list (string * Entry);
  _initialized : bool
}.

Definition __init__ (config : CacheConfig) : t :=
  {| config := config; _store := []; _initialized := false |}.

Definition with_store (s : t) (d : list (string * Entry)) : t :=
  {| config := config s; _store := d; _initialized := _initialized s |}.

Definition initialize (s : t) : t * result unit :=
  ({| config := config s; _store := _store s; _initialized := true |}, Ok tt).

Definition close (s : t) : t * result unit :=
  ({| config := config s; _store := []; _initialized := false |}, Ok tt).

Definition not_initialized : exn := RuntimeError "Cache not initialized".

Definition expired_before (current_time : Q) (e : string * Entry) : bool :=
  Qltb (snd (snd e)) current_time.

(** [_cleanup_expired()], with the reading of the clock it takes. *)
Definition _cleanup_expired (s : t) (current_time : Q) : t :=
  let expired_keys := map fst (filter (expired_before current_time) (_store s)) in
  with_store s (fold_left (fun d key => dict_del d key) expired_keys (_store s)).

(** [get(key)]; [now_sweep] and [now_check] are its two readings of the
    clock, in that order. *)
Definition get (s : t) (key : string) (now_sweep now_check : Q)
  : t * result (option string) :=
  if negb (_initialized s) then (s, Raise not_initialized)
  else
    let s1 := _cleanup_expired s now_sweep in
    match dict_get (_store s1) key with
    | None => (s1, Ok None)
    | Some (value, expiry_time) =>
        if Qltb expiry_time now_check
        then (with_store s1 (dict_del (_store s1) key), Ok None)
        else (s1, Ok (Some value))
    end.

(** [ttl or self.config.ttl]: no ttl and a ttl of 0 both give the default. *)
Definition effective_ttl (s : t) (ttl_arg : option Z) : Z :=
  match ttl_arg with
  | Some n => if (n =? 0)%Z then ttl (config s) else n
  | None => ttl (config s)
  end.

(** [set(key, value, ttl)] at clock reading [now]. *)
Definition set (s : t) (key value : string) (ttl_arg : option Z) (now : Q)
  : t * result unit :=
  if negb (_initialized s) then (s, Raise not_initialized)
  else
    let expiry_time := now + inject_Z (effective_ttl s ttl_arg) in
    (with_store s (dict_set (_store s) key (value, expiry_time)), Ok tt).

Definition delete (s : t) (key : string) : t * result unit :=
  if negb (_initialized s) then (s, Raise not_initialized)
  else if dict_mem (_store s) key
       then (with_store s (dict_del (_store s) key), Ok tt)
       else (s, Ok tt).

Definition exists_ (s : t) (key : string) (now_sweep now_check : Q)
  : t * result bool :=
  match get s key now_sweep now_check with
  | (s1, Ok (Some _)) => (s1, Ok true)
  | (s1, Ok None) => (s1, Ok false)
  | (s1, Raise e) => (s1, Raise e)
  end.

Definition full_prefix (s : t) (logical : string) : string :=
  String.append (prefix (config s))
    (String.append ":" (String.append logical ":")).

Definition clear_prefix (s : t) (logical : string) : t * result Z :=
  if negb (_initialized s) then (s, Raise not_initialized)
  else
    let keys_to_delete :=
      filter (startswith (full_prefix s logical)) (dict_keys (_store s)) in
    (with_store s (fold_left (fun d key => dict_del d key) keys_to_delete (_store s)),
     Ok (Z.of_nat (List.length keys_to_delete))).

(** The calls that a client makes between a [set] and a later [get]. *)
Inductive Op : Type :=
| OpGet (key : string) (now_sweep now_check : Q)
| OpSet (key value : string) (ttl_arg : option Z) (now : Q)
| OpDelete (key : string)
| OpExists (key : string) (now_sweep now_check : Q)
| OpClearPrefix (logical : string).

Definition step (s : t) (op : Op) : t :=
  match op with
  | OpGet k a b => fst (get s k a b)
  | OpSet k v ttl_arg now => fst (set s k v ttl_arg now)
  | OpDelete k => fst (delete s k)
  | OpExists k a b => fst (exists_ s k a b)
  | OpClearPrefix p => fst (clear_prefix s p)
  end.

Definition steps (s : t) (ops : list Op) : t := fold_left step ops s.



(** An initialised, empty cache with the default ttl of one hour, for
    concrete runs. *)
Definition demo : t :=
  {| config := {| ttl := 3600; prefix := "law_search" |};
     _store := [];
     _initialized := true |}.

End InMemoryCache.

(* ================================================================== *)
(** * Further predicates on strings *)
(* ================================================================== *)

Module PyMore.
Import Py.

(** A string that does not start with whitespace. *)
Definition starts_clean (s : string) : bool :=
  match s with
  | EmptyString => true
  | String c _ => negb (isspace c)
  end.

(** [c in s] for one character. *)
Fixpoint has_char (c : ascii) (s : string) : bool :=
  match s with
  | EmptyString => false
  | String d s' => Ascii.eqb d c || has_char c s'
  end.

(** What [_lexical_score] counts: the tokens of the query found in the text. *)
Definition token_hits (text query : string) : list string :=
  filter (fun tok => contains tok (lower text)) (split_ws (lower (strip query))).

End PyMore.

Module ScoringMore.
Import Py PyMore.

(** A well-formed search term: not empty, trimmed, without comma. *)
Definition term_ok (t : string) : Prop :=
  is_empty t = false /\ strip t = t /\ has_char "," t = false.

End ScoringMore.

Module MainMore.
Import Py PyMore Scoring Db Main.

(** A query of whitespace and commas only. *)
Fixpoint only_separators (s : string) : bool :=
  match s with
  | EmptyString => true
  | String c s' => (isspace c || Ascii.eqb c ",") && only_separators s'
  end.

(** The statement of sub-query [q] within the call for [query]. *)
Definition statement_of (query : string) (top_k : Z)
  (filters : option LawSearchFilters.t) (q : string) : Select :=
  sub_query_select q (per_query_of top_k (_split_query_list query)) top_k filters.


Definition is_upsert (ev : Event) : bool :=
  match ev with Upserted _ => true | _ => false end.

(** What a returned result holds of a record of the remote source: the
    id and the name as they are; the abbreviation, the department, the
    status code, the two dates and the link when they are not empty, and
    nothing in their place when they are; no type, no score, no snippet. *)
Definition carries (r : LawSearchResult.t) (item : CollectorItem.t) : Prop :=
  let law := CollectorItem.law item in
  let given (s : string) := if is_empty s then None else Some s in
  LawSearchResult.law_id r = RawLaw.law_id law
  /\ LawSearchResult.law_name_kr r = RawLaw.name_kr law
  /\ LawSearchResult.law_abbr r = given (RawLaw.abbr law)
  /\ LawSearchResult.department r = given (RawLaw.department law)
  /\ LawSearchResult.status r = given (RawLaw.status_code law)
  /\ LawSearchResult.enforce_date r = given (RawLaw.enforce_date law)
  /\ LawSearchResult.promulgate_date r = given (RawLaw.promulgate_date law)
  /\ LawSearchResult.detail_link r = given (RawLaw.detail_link law)
  /\ LawSearchResult.law_type r = None
  /\ LawSearchResult.score r = None
  /\ LawSearchResult.snippet r = None.

(** The records that the write-back stores: those with an id that is not
    blank, each under its stripped id. *)
Definition storable (raw : list CollectorItem.t) : list Upsert :=
  map (fun item => insert_values (strip (RawLaw.law_id (CollectorItem.law item))) item)
    (filter (fun item =>
               negb (is_empty (strip (RawLaw.law_id (CollectorItem.law item)))))
       raw).

End MainMore.

Module WriteBackMore.
Import Py Db Main MainMore.

Definition is_ok {A : Type} (r : result A) : bool :=
  match r with Ok _ => true | Raise _ => false end.

(** Every upsert of the write-back is accepted by the session. *)
Definition all_upserts_ok (env : Env) (raw : list CollectorItem.t) : bool :=
  forallb (fun u => is_ok (execute_upsert env u)) (storable raw).

(** A session over an empty table, an API key, and a remote source that
    cannot be reached. *)
Definition remote_down_env : Env :=
  {| law_api_key := "key";
     execute_select := table_select [];
     execute_upsert := fun _ => Ok tt;
     commit := Ok tt;
     rollback := Ok tt;
     collector_search_law := fun _ _ => Raise (ExternalError "timed out") |}.

(** Two records of the remote source, the second without id. *)
Definition two_records : list CollectorItem.t :=
  [CollectorItem.mk "tax" (plain_raw " L1 " "alpha");
   CollectorItem.mk "tax" (plain_raw "  " "beta")].

(** A session whose upserts succeed and whose commit fails. *)
Definition commit_fails_env : Env :=
  {| law_api_key := "key";
     execute_select := table_select [];
     execute_upsert := fun _ => Ok tt;
     commit := Raise (ExternalError "serialization failure");
     rollback := Ok tt;
     collector_search_law := fun _ _ => Ok two_records |}.

End WriteBackMore.

(* ================================================================== *)
(** * Views of the document stores *)
(* ================================================================== *)

Module StoreViews.
Import Py VectorStore.

(** The documents stored under a collection name; none when the name is
    not there. *)
Definition documents_of (colls : list (string * list (string * VectorDocument)))
  (name : string) : list (string * VectorDocument) :=
  match dict_get colls name with
  | Some c => c
  | None => []
  end.

(** The last document of [docs] with id [k]. *)
Definition last_with_id (k : string) (docs : list VectorDocument)
  : option VectorDocument :=
  List.find (fun d => String.eqb (id d) k) (rev docs).

(** The ids whose file the listing of the file-backed store skips. *)
Definition hidden (doc_id : string) : bool :=
  is_empty doc_id || startswith "." doc_id.

(** Membership in a list of ids. *)
Definition mentions (ids : list string) (k : string) : bool :=
  existsb (String.eqb k) ids.

End StoreViews.

Module QdrantViews.
Import Py VectorStore QdrantVectorStore.

(** The result that the store builds when the service returns, with score
    [sc], the point that the store had built for [doc]. *)
Definition returned (doc : VectorDocument) (sc : float) : SearchResult :=
  _to_search_result
    {| scored_id := point_id (_to_qdrant_point doc);
       scored_score := sc;
       scored_payload := Some (point_payload (_to_qdrant_point doc)) |}.

End QdrantViews.

(* ================================================================== *)
(** * Views of the in-process cache *)
(* ================================================================== *)

Module CacheViews.
Import Py InMemoryCache.
Local Open Scope Q_scope.

(** [op], run on a cache configured as [s], leaves alone an entry stored
    under [key] that expires at [e]: it does not store under [key], does
    not delete it, does not clear a prefix of it, and reads the clock no
    later than [e]. *)
Definition keeps (s : t) (key : string) (e : Q) (op : Op) : Prop :=
  match op with
  | OpGet k a b => a <= e /\ (k = key -> b <= e)
  | OpExists k a b => a <= e /\ (k = key -> b <= e)
  | OpSet k _ _ _ => k <> key
  | OpDelete k => k <> key
  | OpClearPrefix p => startswith (full_prefix s p) key = false
  end.

(** The cache is initialised, configured as [s], and holds [value] under
    [key] until [e]. *)
Definition holds (s : t) (key value : string) (e : Q) (s1 : t) : Prop :=
  _initialized s1 = true
  /\ NoDup (dict_keys (_store s1))
  /\ dict_get (_store s1) key = Some (value, e)
  /\ config s1 = config s.

(** [key_parts[-1] = x]. *)
Fixpoint set_last (l : list string) (x : string) : list string :=
  match l with
  | [] => []
  | [_] => [x]
  | a :: l' => a :: set_last l' x
  end.

(** [Cache._make_key(prefix, *args)] of [src/core/cache.py], with the
    arguments already turned into strings; [md5_hex] is
    [hashlib.md5(...).hexdigest()]. *)
Definition _make_key (md5_hex : string -> string) (s : t) (logical : string)
  (args : list string) : string :=
  let key_parts := prefix (config s) :: logical :: args in
  let key_string := join ":" key_parts in
  if (len key_string >? 250)%Z
  then join ":" (set_last key_parts (md5_hex key_string))
  else key_string.

End CacheViews.

Module CollectorViews.
Import Py Collector.

(** The budget of one sub-query in a call of [search_law]. *)
Definition per_query (query : string) (top_k : Z) : Z :=
  Z.max 1 (top_k / Z.of_nat (List.length (to_query_list query))).

(** Everything that the sub-queries of [query] deliver, in the order of the
    sub-queries, each record tagged with its sub-query. *)
Definition gathered (fetch_law_for_query : string -> Z -> result (list RawLaw.t))
  (query : string) (top_k : Z) : list CollectorItem.t :=
  flat_map (fun q => tag_results q (fetch_law_for_query q (per_query query top_k)))
    (to_query_list query).

(** A remote source that fails for the term [tax] and knows one law for
    every other term. *)
Definition flaky_fetch (q : string) (display : Z) : result (list RawLaw.t) :=
  if String.eqb q "tax" then Raise (ExternalError "timed out")
  else Ok [Main.plain_raw "L1" q].

End CollectorViews.

(* ================================================================== *)
(** * The listing endpoint (src/main.py, list_laws) *)
(* ================================================================== *)

Module ListLaws.
Import Py Db.

Inductive SortBy : Type := by_enforce_date | by_law_name_kr | by_updated_at.
Inductive SortOrder : Type := asc | desc.

(** The query parameters of [GET /api/v1/law]. *)
Record Params : Type := mkParams {
  page : Z;
  page_size : Z;
  department : option string;
  law_type : option string;
  status : option string;
  sort_by : SortBy;
  sort_order : SortOrder
}.

(** [if x: filters.append(column == x)]. *)
Definition equals (c : Column) (o : option string) : list (Column * string) :=
  match o with
  | Some v => if is_empty v then [] else [(c, v)]
  | None => []
  end.

Definition filters_of (p : Params) : list (Column * string) :=
  (equals ColDepartment (department p)
   ++ equals ColLawType (law_type p)
   ++ equals ColStatus (status p))%list.

(** [select(Law).where( *filters ).order_by(...).offset(...).limit(...)]. *)
Record PageSelect : Type := mkPageSelect {
  page_where : list (Column * string);
  order_column : SortBy;
  ascending : bool;
  offset : Z;
  page_limit : Z
}.

Inductive Event : Type :=
| Counted (filters : list (Column * string))
| Listed (stmt : PageSelect).

(** The outcomes of the two statements, each a function of the statement:
    [db.scalar(select(func.count())...)], which may give [None], and
    [db.execute(stmt)]. *)
Record Env : Type := mkEnv {
  scalar_count : list (Column * string) -> result (option Z);
  execute_page : PageSelect -> result (list Law.t)
}.

Record LawListItem : Type := mkItem {
  item_law_id : string;
  item_law_name_kr : string;
  item_law_abbr : option string;
  item_department : option string;
  item_law_type : option string;
  item_status : option string;
  item_enforce_date : option string;
  item_detail_link : option string
}.

Record Pagination : Type := mkPagination {
  pagination_page : Z;
  pagination_page_size : Z;
  total_items : Z;
  total_pages : Z
}.

Record LawListResponse : Type := mkResponse {
  items : list LawListItem;
  pagination : Pagination
}.

(** What the endpoint answers: the response, HTTP 400 ValidationError with
    the two parameters as details, or HTTP 503 ServiceUnavailable with the
    text of the exception as cause. *)
Inductive Outcome : Type :=
| Returned (r : LawListResponse)
| ValidationError (page page_size : Z)
| ServiceUnavailable (cause : string).

Definition to_item (r : Law.t) : LawListItem :=
  {| item_law_id := Law.law_id r;
     item_law_name_kr := Law.law_name_kr r;
     item_law_abbr := Law.law_abbr r;
     item_department := Law.department r;
     item_law_type := Law.law_type r;
     item_status := Law.status r;
     item_enforce_date := Law.enforce_date r;
     item_detail_link := Law.detail_link r |}.

(** [(page - 1) * page_size]. *)
Definition offset_of (p : Params) : Z := (page p - 1) * page_size p.

(** [(total_items + page_size - 1) // page_size if total_items else 0]. *)
Definition total_pages_of (total page_size : Z) : Z :=
  if (total =? 0)%Z then 0%Z else ((total + page_size - 1) / page_size)%Z.

Definition statement (p : Params) : PageSelect :=
  {| page_where := filters_of p;
     order_column := sort_by p;
     ascending := match sort_order p with asc => true | desc => false end;
     offset := offset_of p;
     page_limit := page_size p |}.

Definition invalid (p : Params) : bool :=
  (page p <? 1)%Z || (page_size p <? 1)%Z || (page_size p >? 100)%Z.

(** [list_laws(...)]: the statements executed, in order, and the answer. *)
Definition list_laws (env : Env) (p : Params) : list Event * Outcome :=
  if invalid p then ([], ValidationError (page p) (page_size p))
  else
    match scalar_count env (filters_of p) with
    | Raise e => ([Counted (filters_of p)], ServiceUnavailable (exn_str e))
    | Ok counted =>
        let total := match counted with
                     | Some n => n
                     | None => 0%Z
                     end in
        match execute_page env (statement p) with
        | Raise e =>
            ([Counted (filters_of p); Listed (statement p)],
             ServiceUnavailable (exn_str e))
        | Ok rows =>
            ([Counted (filters_of p); Listed (statement p)],
             Returned
               {| items := map to_item rows;
                  pagination :=
                    {| pagination_page := page p;
                       pagination_page_size := page_size p;
                       total_items := total;
                       total_pages := total_pages_of total (page_size p) |} |})
        end
    end.

(** The window of rows that the statement of page [n] asks for. *)
Definition in_window (page_size n i : Z) : Prop :=
  ((n - 1) * page_size <= i < (n - 1) * page_size + page_size)%Z.

(** A table-backed session: the count of the rows that satisfy the equality
    filters, and the requested window of them in table order. *)
Definition satisfies (filters : list (Column * string)) (l : Law.t) : bool :=
  forallb (fun '(c, v) =>
             match column c l with
             | Some x => String.eqb x v
             | None => false
             end) filters.

Definition table_env (table : list Law.t) : Env :=
  {| scalar_count := fun filters =>
       Ok (Some (Z.of_nat (List.length (filter (satisfies filters) table))));
     execute_page := fun stmt =>
       Ok (firstn (Z.to_nat (page_limit stmt))
             (skipn (Z.to_nat (offset stmt))
                (filter (satisfies (page_where stmt)) table))) |}.

Definition first_page (page_size : Z) : Params :=
  {| page := 1; page_size := page_size; department := None; law_type := None;
     status := None; sort_by := by_enforce_date; sort_order := desc |}.

End ListLaws.

(* ================================================================== *)
(** * The detail endpoint (src/main.py, get_law_detail) *)
(* ================================================================== *)

Module LawDetail.
Import Py.

(** A detail record, a dict; of its values the endpoint's control flow
    reads none, and the response reads the id and the name. *)
Definition Detail : Type := list (string * string).

(** [bool(detail)]: a dict is true when it is not empty. *)
Definition truthy (d : Detail) : bool :=
  match d with [] => false | _ :: _ => true end.

Inductive Event : Type :=
| Lookup (law_id : string)
| Fetch (law_id : string)
| CacheDetail (detail : Detail)
| Committed
| RolledBack.

(** The outcomes of the collaborators' calls: [_get_law_detail_from_db],
    [fetch_law_detail] of the collector, [_cache_law_detail_to_db], and the
    commit and the rollback of the session. *)
Record Env : Type := mkEnv {
  law_api_key : string;
  lookup : string -> bool -> bool -> result (option Detail);
  fetch : string -> bool -> bool -> result Detail;
  cache_detail : Detail -> result unit;
  commit : result unit;
  rollback : result unit
}.

(** The fields of [LawDetailResponse] that do not come from the record
    unchanged, and where the record came from. *)
Record Response : Type := mkResponse {
  law_id : string;
  law_name_kr : string;
  detail : Detail;
  source : string
}.

(** What the endpoint answers: the response, HTTP 404 NotFound, HTTP 503
    ServiceUnavailable with the text of the exception, or an exception of
    the collector that no handler of the endpoint catches. *)
Inductive Outcome : Type :=
| Served (r : Response)
| NotFound (law_id : string)
| ServiceUnavailable (cause : string)
| Uncaught (e : exn).

(** [str(detail.get(key) or fallback)]. *)
Definition get_or (d : Detail) (key fallback : string) : string :=
  match dict_get d key with
  | Some v => if is_empty v then fallback else v
  | None => fallback
  end.

(** The best-effort block: write back and commit; on any exception roll
    back, whose own exception is ignored. *)
Definition best_effort (env : Env) (d : Detail) : list Event :=
  match cache_detail env d with
  | Ok _ =>
      match commit env with
      | Ok _ => [CacheDetail d; Committed]
      | Raise _ => [CacheDetail d; Committed; RolledBack]
      end
  | Raise _ => [CacheDetail d; RolledBack]
  end.

(** The end of the endpoint: the errors for a missing or empty record, or
    the response. *)
Definition finish (env : Env) (id : string) (found : option Detail)
  (src : option string) (db_error : option exn) : Outcome :=
  let failed :=
    match db_error with
    | Some e =>
        if is_empty (law_api_key env) then ServiceUnavailable (exn_str e)
        else NotFound id
    | None => NotFound id
    end in
  match found with
  | Some d =>
      if truthy d
      then Served {| law_id := get_or d "law_id" id;
                     law_name_kr := get_or d "law_name_kr" id;
                     detail := d;
                     source := match src with Some s => s | None => "" end |}
      else failed
  | None => failed
  end.

(** [get_law_detail(law_id, include_articles, include_full_text)]: the
    calls made, in order, and the answer. *)
Definition get_law_detail (env : Env) (id : string)
  (include_articles include_full_text : bool) : list Event * Outcome :=
  let '(found, src, db_error) :=
    match lookup env id include_articles include_full_text with
    | Ok (Some d) => (Some d, (if truthy d then Some "postgres" else None), None)
    | Ok None => (None, None, None)
    | Raise e => (None, None, Some e)
    end in
  match found with
  | None =>
      if is_empty (law_api_key env)
      then ([Lookup id], finish env id found src db_error)
      else
        match fetch env id include_articles include_full_text with
        | Raise e => ([Lookup id; Fetch id], Uncaught e)
        | Ok d =>
            if truthy d
            then (Lookup id :: Fetch id :: best_effort env d,
                  finish env id (Some d) (Some "law.go.kr") db_error)
            else ([Lookup id; Fetch id], finish env id (Some d) src db_error)
        end
  | Some _ => ([Lookup id], finish env id found src db_error)
  end.

Definition is_cache (ev : Event) : bool :=
  match ev with CacheDetail _ => true | _ => false end.

Definition is_fetch (ev : Event) : bool :=
  match ev with Fetch _ => true | _ => false end.

(** A session that cannot be reached, an API key, and a remote source that
    does not know the law. *)
Definition db_down_remote_empty : Env :=
  {| law_api_key := "key";
     lookup := fun _ _ _ => Raise (ExternalError "connection refused");
     fetch := fun _ _ _ => Ok [];
     cache_detail := fun _ => Ok tt;
     commit := Ok tt;
     rollback := Ok tt |}.

(** An empty table, an API key, a remote source that knows the law, and a
    session on which every write fails. *)
Definition remote_only : Env :=
  {| law_api_key := "key";
     lookup := fun _ _ _ => Ok None;
     fetch := fun id _ _ => Ok [("law_id", id); ("law_name_kr", "")];
     cache_detail := fun _ => Raise (ExternalError "read-only");
     commit := Raise (ExternalError "read-only");
     rollback := Raise (ExternalError "read-only") |}.

End LawDetail.

(* ================================================================== *)
(** * The article search endpoint (src/main.py, search_articles) *)
(* ================================================================== *)

Module Articles.
Import Py Scoring.
Local Open Scope Q_scope.

(** A row of [LawArticle]. *)
Record LawArticle : Type := mkArticle {
  article_no : string;
  title : option string;
  content : string
}.

(** An article of the record that the collector delivers, a dict whose
    values may be missing. *)
Record RemoteArticle : Type := mkRemoteArticle {
  remote_article_no : option string;
  remote_title : option string;
  remote_content : option string
}.

(** The record of the collector as this endpoint reads it. *)
Record RemoteDetail : Type := mkRemoteDetail {
  remote_law_name_kr : option string;
  remote_articles : list RemoteArticle
}.

Record ArticleSearchResult : Type := mkResult {
  result_article_no : string;
  result_title : option string;
  result_content : string;
  score : Q;
  snippet : string
}.

Record ArticleSearchResponse : Type := mkResponse {
  law_id : string;
  law_name_kr : option string;
  results : list ArticleSearchResult;
  total_count : Z
}.

Definition or_empty (o : option string) : string :=
  match o with Some s => s | None => "" end.

(** [" ".join([article_no, title or "", content]).strip()]. *)
Definition searchable (no : string) (title : option string) (content : string)
  : string :=
  strip (join " " [no; or_empty title; content]).

(** The result built for a row of the table, scored against [q]. *)
Definition score_row (q : string) (row : LawArticle) : ArticleSearchResult :=
  let text := searchable (article_no row) (title row) (content row) in
  {| result_article_no := article_no row;
     result_title := title row;
     result_content := content row;
     score := _lexical_score text q;
     snippet := _make_snippet text q default_window |}.

(** The result built for an article of the collector's record. *)
Definition score_remote (query : string) (art : RemoteArticle)
  : ArticleSearchResult :=
  let no := strip (or_empty (remote_article_no art)) in
  let body := strip (or_empty (remote_content art)) in
  let text := searchable no (remote_title art) body in
  {| result_article_no := if is_empty no then "(unknown)" else no;
     result_title := remote_title art;
     result_content := body;
     score := _lexical_score text query;
     snippet := _make_snippet text query default_window |}.



(** The [LIKE] patterns of the query. *)
Definition patterns (q : string) : list string :=
  map (fun tok => String.append "%" (String.append tok "%"))
    (match split_ws q with [] => [q] | toks => toks end).

Inductive Event : Type :=
| GetLaw (law_id : string)
| CountArticles (law_id : string)
| SelectArticles (law_id : string) (patterns : list string)
| Fetch (law_id : string)
| CacheDetail (detail : RemoteDetail)
| Committed
| RolledBack.

(** The outcomes of the collaborators' calls: [db.get(Law, law_id)], of
    which the name is read; the count of the articles, which may be [None];
    the selection of at most 500 articles by id; [fetch_law_detail], where
    [None] stands for the empty dict; the write-back, the commit and the
    rollback. *)
Record Env : Type := mkEnv {
  law_api_key : string;
  get_law : string -> result (option string);
  count_articles : string -> result (option Z);
  select_articles : string -> list string -> result (list LawArticle);
  fetch : string -> result (option RemoteDetail);
  cache_detail : RemoteDetail -> result unit;
  commit : result unit;
  rollback : result unit
}.

Inductive Outcome : Type :=
| Answered (r : ArticleSearchResponse)
| NotFound (law_id : string)
| ServiceUnavailable (cause : string)
| Uncaught (e : exn).

(** The local variables of the endpoint after its first step. *)
Record Locals : Type := mkLocals {
  name : option string;
  found : list ArticleSearchResult;
  count : Z;
  db_error : option exn;
  need_remote_fallback : bool
}.

Definition nothing (name : option string) (db_error : option exn) : Locals :=
  {| name := name; found := []; count := 0%Z; db_error := db_error;
     need_remote_fallback := true |}.


(** The best-effort block: write back and commit; on any exception roll
    back, whose own exception is ignored. *)
Definition best_effort (env : Env) (d : RemoteDetail) : list Event :=
  match cache_detail env d with
  | Ok _ =>
      match commit env with
      | Ok _ => [CacheDetail d; Committed]
      | Raise _ => [CacheDetail d; Committed; RolledBack]
      end
  | Raise _ => [CacheDetail d; RolledBack]
  end.

Definition respond (id : string) (name : option string)
  (found : list ArticleSearchResult) (count : Z) : Outcome :=
  Answered {| law_id := id; law_name_kr := name; results := found;
              total_count := count |}.





Definition is_cache (ev : Event) : bool :=
  match ev with CacheDetail _ => true | _ => false end.




End Articles.

(* ================================================================== *)
(** * Facts about the Python primitives *)
(* ================================================================== *)

Module PyFacts.
Import Py.

Section Sorting.
Context {A : Type} (leb : A -> A -> bool).

Lemma insert_by_perm (x : A) (l : list A) :
  Permutation (insert_by leb x l) (x :: l).
Proof.
  induction l as [|y l IH]; simpl.
  - apply Permutation_refl.
  - destruct (leb x y).
    + apply Permutation_refl.
    + eapply Permutation_trans; [apply perm_skip, IH | apply perm_swap].
Qed.

Lemma sort_by_perm (l : list A) : Permutation (sort_by leb l) l.
Proof.
  induction l as [|x l IH]; simpl.
  - constructor.
  - eapply Permutation_trans; [apply insert_by_perm | now apply perm_skip].
Qed.

Lemma sort_by_length (l : list A) : List.length (sort_by leb l) = List.length l.
Proof. apply Permutation_length, sort_by_perm. Qed.

Lemma sort_by_In (l : list A) (x : A) : In x (sort_by leb l) <-> In x l.
Proof.
  split; apply Permutation_in;
    [apply sort_by_perm | apply Permutation_sym, sort_by_perm].
Qed.

Hypothesis leb_total : forall a b, leb a b = true \/ leb b a = true.
Hypothesis leb_trans : forall a b c, leb a b = true -> leb b c = true -> leb a c = true.

Let le (a b : A) : Prop := leb a b = true.

Lemma insert_by_sorted (x : A) (l : list A) :
  StronglySorted le l -> StronglySorted le (insert_by leb x l).
Proof.
  induction 1 as [|y l Hs IH Hall]; simpl.
  - repeat constructor.
  - destruct (leb x y) eqn:E.
    + constructor; [now constructor|].
      constructor; [exact E|].
      eapply Forall_impl; [|exact Hall].
      intros z Hz. eapply leb_trans; eassumption.
    + constructor; [exact IH|].
      assert (Hyx : le y x) by (destruct (leb_total x y); [congruence | assumption]).
      eapply Permutation_Forall; [apply Permutation_sym, insert_by_perm|].
      now constructor.
Qed.

Lemma sort_by_sorted (l : list A) : StronglySorted le (sort_by leb l).
Proof.
  induction l as [|x l IH]; simpl; [constructor | now apply insert_by_sorted].
Qed.

End Sorting.

Section Slices.
Context {A : Type}.

Lemma firstn_incl (n : nat) (l : list A) (x : A) : In x (firstn n l) -> In x l.
Proof.
  intros H. rewrite <- (firstn_skipn n l). apply in_or_app. now left.
Qed.

Lemma slice_to_incl (l : list A) (k : Z) (x : A) : In x (slice_to l k) -> In x l.
Proof. unfold slice_to. destruct (k <? 0)%Z; apply firstn_incl. Qed.

Lemma slice_to_length (l : list A) (k : Z) :
  (0 <= k)%Z -> (Z.of_nat (List.length (slice_to l k)) <= k)%Z.
Proof.
  intros Hk. unfold slice_to.
  destruct (k <? 0)%Z eqn:E; [apply Z.ltb_lt in E; lia|].
  rewrite length_firstn. lia.
Qed.

Lemma slice_to_all (l : list A) (k : Z) :
  (Z.of_nat (List.length l) <= k)%Z -> slice_to l k = l.
Proof.
  intros Hk. unfold slice_to.
  destruct (k <? 0)%Z eqn:E; [apply Z.ltb_lt in E; lia|].
  apply firstn_all2. lia.
Qed.

Lemma firstn_StronglySorted (R : A -> A -> Prop) (n : nat) (l : list A) :
  StronglySorted R l -> StronglySorted R (firstn n l).
Proof.
  revert n. induction l as [|x l IH]; intros n Hs.
  - rewrite firstn_nil. constructor.
  - destruct n; simpl; [constructor|].
    inversion Hs as [|? ? Hs' Hall]; subst.
    constructor; [now apply IH|].
    rewrite Forall_forall in *. intros y Hy. apply Hall.
    rewrite <- (firstn_skipn n l). apply in_or_app. now left.
Qed.

Lemma slice_to_StronglySorted (R : A -> A -> Prop) (l : list A) (k : Z) :
  StronglySorted R l -> StronglySorted R (slice_to l k).
Proof.
  unfold slice_to. destruct (k <? 0)%Z; apply firstn_StronglySorted.
Qed.

Lemma firstn_NoDup (n : nat) (l : list A) : NoDup l -> NoDup (firstn n l).
Proof.
  revert n. induction l as [|x l IH]; intros n Hnd.
  - rewrite firstn_nil. constructor.
  - destruct n; simpl; [constructor|].
    inversion Hnd as [|? ? Hnot Hnd']; subst.
    constructor; [|now apply IH].
    intros Hin. apply Hnot.
    rewrite <- (firstn_skipn n l). apply in_or_app. now left.
Qed.

End Slices.

Lemma map_slice_to {A B : Type} (f : A -> B) (l : list A) (k : Z) :
  map f (slice_to l k) = slice_to (map f l) k.
Proof.
  unfold slice_to. rewrite length_map.
  destruct (k <? 0)%Z; symmetry; apply firstn_map.
Qed.

Lemma slice_to_NoDup {A : Type} (l : list A) (k : Z) :
  NoDup l -> NoDup (slice_to l k).
Proof. unfold slice_to. destruct (k <? 0)%Z; apply firstn_NoDup. Qed.

Section Dicts.
Context {V : Type}.
Implicit Types (d : list (string * V)) (k : string) (v : V).

Lemma dict_get_In d k v : dict_get d k = Some v -> In (k, v) d.
Proof.
  induction d as [|[k' v'] d IH]; simpl; [discriminate|].
  destruct (String.eqb k k') eqn:E.
  - apply String.eqb_eq in E. subst. intros [= ->]. now left.
  - intros H. right. now apply IH.
Qed.

Lemma dict_get_None d k : dict_get d k = None <-> ~ In k (dict_keys d).
Proof.
  induction d as [|[k' v'] d IH]; simpl.
  - tauto.
  - destruct (String.eqb k k') eqn:E.
    + apply String.eqb_eq in E. subst. split; [discriminate | intros H; exfalso; auto].
    + apply String.eqb_neq in E. rewrite IH. split.
      * intros H [H1 | H1]; [congruence | auto].
      * intros H H1. apply H. now right.
Qed.

Lemma dict_get_set d k v k' :
  dict_get (dict_set d k v) k' = if String.eqb k' k then Some v else dict_get d k'.
Proof.
  induction d as [|[k0 v0] d IH]; simpl.
  - reflexivity.
  - destruct (String.eqb k k0) eqn:E; simpl.
    + apply String.eqb_eq in E. subst k0.
      destruct (String.eqb k' k); reflexivity.
    + rewrite IH. destruct (String.eqb k' k0) eqn:E0; [|reflexivity].
      apply String.eqb_eq in E0. subst k0.
      rewrite String.eqb_sym, E. reflexivity.
Qed.

Lemma dict_keys_set d k v :
  dict_keys (dict_set d k v)
  = if dict_mem d k then dict_keys d else (dict_keys d ++ [k])%list.
Proof.
  unfold dict_mem. induction d as [|[k0 v0] d IH]; simpl.
  - reflexivity.
  - destruct (String.eqb k k0) eqn:E; simpl; [reflexivity|].
    unfold dict_keys in *. rewrite IH.
    destruct (dict_get d k); reflexivity.
Qed.

Lemma dict_set_NoDup d k v : NoDup (dict_keys d) -> NoDup (dict_keys (dict_set d k v)).
Proof.
  intros Hnd. rewrite dict_keys_set. unfold dict_mem.
  destruct (dict_get d k) eqn:E; [exact Hnd|].
  apply dict_get_None in E.
  apply (Permutation_NoDup (l := k :: dict_keys d)).
  - apply Permutation_cons_append.
  - now constructor.
Qed.

Lemma dict_set_length d k v :
  List.length (dict_set d k v) = if dict_mem d k then List.length d else S (List.length d).
Proof.
  unfold dict_mem. induction d as [|[k0 v0] d IH]; simpl.
  - reflexivity.
  - destruct (String.eqb k k0) eqn:E; simpl; [reflexivity|].
    rewrite IH. destruct (dict_get d k); reflexivity.
Qed.

Lemma dict_In_get d k v : NoDup (dict_keys d) -> In (k, v) d -> dict_get d k = Some v.
Proof.
  induction d as [|[k0 v0] d IH]; simpl; [tauto|].
  intros Hnd [H | H].
  - injection H as -> ->. now rewrite String.eqb_refl.
  - inversion Hnd as [|? ? Hnot Hnd']; subst.
    destruct (String.eqb k k0) eqn:E.
    + apply String.eqb_eq in E. subst. exfalso. apply Hnot.
      change k0 with (fst (k0, v)). now apply in_map.
    + now apply IH.
Qed.

Lemma dict_del_incl d k e : In e (dict_del d k) -> In e d.
Proof.
  induction d as [|[k0 v0] d IH]; simpl; [tauto|].
  destruct (String.eqb k k0).
  - intros H. now right.
  - intros [H | H]; [now left | right; now apply IH].
Qed.

Lemma dict_get_del_other d k k' :
  k' <> k -> dict_get (dict_del d k) k' = dict_get d k'.
Proof.
  intros Hne. induction d as [|[k0 v0] d IH]; simpl; [reflexivity|].
  destruct (String.eqb k k0) eqn:E; simpl.
  - apply String.eqb_eq in E. subst k0.
    apply String.eqb_neq in Hne. now rewrite Hne.
  - rewrite IH. reflexivity.
Qed.

Lemma dict_get_del_same d k : NoDup (dict_keys d) -> dict_get (dict_del d k) k = None.
Proof.
  induction d as [|[k0 v0] d IH]; simpl; [reflexivity|].
  intros Hnd. inversion Hnd as [|? ? Hnot Hnd']; subst.
  destruct (String.eqb k k0) eqn:E; simpl.
  - apply String.eqb_eq in E. subst k0. now apply dict_get_None.
  - rewrite E. now apply IH.
Qed.

Lemma dict_del_keys_incl d k x : In x (dict_keys (dict_del d k)) -> In x (dict_keys d).
Proof.
  unfold dict_keys. rewrite !in_map_iff.
  intros [e [He Hin]]. exists e. split; [exact He|]. eapply dict_del_incl; eauto.
Qed.

Lemma dict_del_NoDup d k : NoDup (dict_keys d) -> NoDup (dict_keys (dict_del d k)).
Proof.
  induction d as [|[k0 v0] d IH]; simpl; [auto|].
  intros Hnd. inversion Hnd as [|? ? Hnot Hnd']; subst.
  destruct (String.eqb k k0); simpl; [exact Hnd'|].
  constructor; [|now apply IH].
  intros Hin. apply Hnot. eapply dict_del_keys_incl; eauto.
Qed.

End Dicts.

(** ** Comparison of floats *)

Lemma Qltb_lt (a b : Q) : (Qltb a b = true <-> a < b)%Q.
Proof.
  unfold Qltb. rewrite negb_true_iff. split.
  - intros H. apply Qnot_le_lt. intros Hle.
    apply Qle_bool_iff in Hle. congruence.
  - intros H. destruct (Qle_bool b a) eqn:E; [|reflexivity].
    apply Qle_bool_iff in E. exfalso. eapply Qlt_not_le; eassumption.
Qed.

Lemma Qltb_true_le (a b : Q) : Qltb a b = true -> (a <= b)%Q.
Proof. intros H. apply Qlt_le_weak. now apply Qltb_lt. Qed.

Lemma Qltb_false_le (a b : Q) : Qltb a b = false -> (b <= a)%Q.
Proof. unfold Qltb. rewrite negb_false_iff. apply Qle_bool_iff. Qed.

(** ** Blank strings *)

Lemma lstrip_blank (s : string) : blank s = true -> lstrip s = EmptyString.
Proof.
  induction s as [|c s IH]; simpl; [reflexivity|].
  intros H. apply andb_prop in H as [Hc Hs]. rewrite Hc. now apply IH.
Qed.

Lemma strip_blank (s : string) : blank s = true -> strip s = EmptyString.
Proof. intros H. unfold strip. now rewrite lstrip_blank. Qed.

Lemma contains_empty (s : string) : contains EmptyString s = true.
Proof. unfold contains. destruct s; reflexivity. Qed.

Lemma find_from_eq (p s : string) (i : nat) :
  find_from p s i
  = if startswith p s then Some i
    else match s with
         | EmptyString => None
         | String _ s' => find_from p s' (S i)
         end.
Proof. destruct s; reflexivity. Qed.

Lemma find_from_found (p s : string) (i j : nat) :
  found (find_from p s i) = found (find_from p s j).
Proof.
  revert i j. induction s as [|c s IH]; intros i j.
  - rewrite (find_from_eq p EmptyString i), (find_from_eq p EmptyString j).
    destruct (startswith p EmptyString); reflexivity.
  - rewrite (find_from_eq p (String c s) i), (find_from_eq p (String c s) j).
    destruct (startswith p (String c s)); [reflexivity | apply IH].
Qed.

Lemma contains_found (p s : string) : contains p s = found (find_from p s 0).
Proof. reflexivity. Qed.

Lemma contains_here (p s : string) : startswith p s = true -> contains p s = true.
Proof. intros H. rewrite contains_found, find_from_eq, H. reflexivity. Qed.

Lemma contains_cons (p s : string) (c : ascii) :
  contains p s = true -> contains p (String c s) = true.
Proof.
  rewrite !contains_found. intros H. rewrite find_from_eq.
  destruct (startswith p (String c s)); [reflexivity|].
  now rewrite (find_from_found p s 1 0).
Qed.

Lemma contains_app_r (p s t : string) :
  contains p t = true -> contains p (String.append s t) = true.
Proof.
  intros H. induction s as [|c s IH]; simpl; [exact H | now apply contains_cons].
Qed.

Lemma lower_app (s t : string) :
  lower (String.append s t) = String.append (lower s) (lower t).
Proof. induction s as [|c s IH]; simpl; [reflexivity | now rewrite IH]. Qed.

End PyFacts.

(* ================================================================== *)
(** * Scoring engine: lexical score and snippet *)
(* ================================================================== *)

Module ScoringFacts.
Import Py PyFacts Scoring.
Local Open Scope Q_scope.

Lemma max2_min2_range (x : Q) : 0 <= max2 0 (min2 1 x) /\ max2 0 (min2 1 x) <= 1.
Proof.
  unfold max2, min2.
  destruct (Qlt_le_dec x 1) as [H1 | H1];
    [destruct (Qlt_le_dec 0 x) as [H0 | H0] | destruct (Qlt_le_dec 0 1) as [H0 | H0]];
    split; try apply Qle_refl; try (apply Qlt_le_weak; assumption);
    try discriminate; try assumption.
Qed.

(** The lexical score of [src/main.py] lies in [0, 1]. *)
Theorem lexical_score_range (text query : string) :
  0 <= _lexical_score text query /\ _lexical_score text query <= 1.
Proof.
  unfold _lexical_score.
  destruct (is_empty (lower (strip query))).
  - split; discriminate.
  - apply max2_min2_range.
Qed.

(** The lexical score of [src/main.py] is exactly 0 on an empty or
    whitespace-only query. *)
Theorem lexical_score_blank (text query : string) :
  blank query = true -> _lexical_score text query = 0.
Proof.
  intros H. unfold _lexical_score. now rewrite (strip_blank _ H).
Qed.

Lemma lexical_score_blank_witness :
  blank "  " = true /\ _lexical_score "the quick brown fox" "  " = 0.
Proof.
  split; [reflexivity | apply (lexical_score_blank "the quick brown fox" "  "); reflexivity].
Defined.

(** C4, at the input where the code departs from it: the lexical scorer of
    the file-backed store has neither the blank-query guard nor the clamp of
    [_lexical_score]; on the empty query and on a query of one space it
    gives every document the score 0.8, where the claim requires 0. *)
Theorem lexical_search_blank_query (json_dumps : list (string * string) -> string)
  (doc : VectorStore.VectorDocument) :
  FileSystemVectorStore._lexical_search json_dumps "" [doc] = [(doc, 0.8)]
  /\ FileSystemVectorStore._lexical_search json_dumps " " [doc] = [(doc, 0.8)]
  /\ ~ 0.8 == 0.
Proof.
  assert (Hsp : forall s t,
             contains " " (lower (String.append s (String " " t))) = true).
  { intros s t. rewrite lower_app. apply contains_app_r, contains_here. reflexivity. }
  unfold FileSystemVectorStore._lexical_search,
    FileSystemVectorStore.lexical_score_of.
  repeat split.
  - simpl lower. simpl map. rewrite contains_empty. reflexivity.
  - change (lower " ") with " ". simpl map. rewrite Hsp. reflexivity.
  - discriminate.
Qed.

(** The example of the specification: the query is emphasised and there
    is no leading ellipsis. *)
Example make_snippet_quick :
  _make_snippet "the quick brown fox" "quick" default_window
  = "the <em>quick</em> brown fox".
Proof. reflexivity. Qed.

(** C5, at the input where the code departs from it: the emphasised text is
    the query as typed, not the matched substring of the text, so the
    casing of the text is lost inside the marker. *)
Theorem make_snippet_casing :
  _make_snippet "The Quick brown fox" "quick" default_window
  = "The <em>quick</em> brown fox"
  /\ contains "<em>Quick</em>"
       (_make_snippet "The Quick brown fox" "quick" default_window) = false
  /\ _make_snippet "the quick brown fox" "quick" default_window
     = "the <em>quick</em> brown fox".
Proof. repeat split. Qed.

(** The prefix of a snippet with a match is the ellipsis exactly when the
    window starts after the first character of the text. *)
Lemma make_snippet_unfold (text query : string) (window idx : Z) (target : string) :
  is_empty (strip query) = false ->
  locate text (strip query) = Some (idx, target) ->
  _make_snippet text query window
  = strip ((if (window_start idx window >? 0)%Z then "..." else "")
           ++ re_sub_ignorecase target ("<em>" ++ target ++ "</em>")
                (slice text (window_start idx window)
                   (window_end text target idx window))
           ++ (if (window_end text target idx window <? len text)%Z
               then "..." else "")).
Proof.
  intros Hq Hloc. unfold _make_snippet. rewrite Hq, Hloc. reflexivity.
Qed.

Lemma rstrip_cons (c : ascii) (s : string) :
  isspace c = false -> rstrip (String c s) = String c (rstrip s).
Proof. intros H. simpl. rewrite H. destruct (rstrip s); reflexivity. Qed.

Lemma strip_ellipsis (rest : string) :
  startswith "..." (strip (String.append "..." rest)) = true.
Proof.
  change (String.append "..." rest) with (String "." (String "." (String "." rest))).
  unfold strip. change (lstrip (String "." (String "." (String "." rest))))
    with (String "." (String "." (String "." rest))).
  rewrite !rstrip_cons by reflexivity. reflexivity.
Qed.

(** When the window starts after the first character of the text, the
    snippet begins with the ellipsis. *)
Lemma make_snippet_leading_ellipsis (text query : string) (window idx : Z)
  (target : string) :
  is_empty (strip query) = false ->
  locate text (strip query) = Some (idx, target) ->
  (window_start idx window > 0)%Z ->
  startswith "..." (_make_snippet text query window) = true.
Proof.
  intros Hq Hloc Hstart.
  rewrite (make_snippet_unfold text query window idx target Hq Hloc).
  apply Z.gtb_gt in Hstart. rewrite Hstart. apply strip_ellipsis.
Qed.

Lemma make_snippet_leading_ellipsis_witness :
  startswith "..." (_make_snippet "the quick brown fox" "quick" 4) = true.
Proof.
  apply (make_snippet_leading_ellipsis "the quick brown fox" "quick" 4 4 "quick");
    reflexivity.
Defined.

Lemma make_snippet_unfold_witness :
  _make_snippet "the quick brown fox" "quick" 4
  = strip ("..." ++ re_sub_ignorecase "quick" "<em>quick</em>" "e quick b" ++ "...").
Proof.
  exact (make_snippet_unfold "the quick brown fox" "quick" 4 4 "quick"
           eq_refl eq_refl).
Defined.

End ScoringFacts.

(* ================================================================== *)
(** * Document stores: similarity, ranking, initialisation, collections *)
(* ================================================================== *)

Module StoreFacts.
Import Py PyFacts VectorStore.
Local Open Scope Q_scope.

Lemma by_score_desc_total (a b : VectorDocument * Q) :
  by_score_desc a b = true \/ by_score_desc b a = true.
Proof.
  unfold by_score_desc. rewrite !Qle_bool_iff.
  destruct (Qlt_le_dec (snd a) (snd b)) as [H | H]; [right | left]; auto.
  now apply Qlt_le_weak.
Qed.

Lemma by_score_desc_trans (a b c : VectorDocument * Q) :
  by_score_desc a b = true -> by_score_desc b c = true -> by_score_desc a c = true.
Proof.
  unfold by_score_desc. rewrite !Qle_bool_iff. intros H1 H2.
  eapply Qle_trans; eassumption.
Qed.

Lemma StronglySorted_map {A B : Type} (R : A -> A -> Prop) (S : B -> B -> Prop)
  (f : A -> B) (l : list A) :
  (forall a b, R a b -> S (f a) (f b)) ->
  StronglySorted R l -> StronglySorted S (map f l).
Proof.
  intros HRS. induction 1 as [|x l Hs IH Hall]; simpl; constructor; auto.
  rewrite Forall_forall in *. intros y Hy.
  apply in_map_iff in Hy as [a [<- Ha]]. auto.
Qed.

Lemma insert_by_map {A B : Type} (f : A -> B) (leA : A -> A -> bool)
  (leB : B -> B -> bool) (x : A) (l : list A) :
  (forall a b, leB (f a) (f b) = leA a b) ->
  insert_by leB (f x) (map f l) = map f (insert_by leA x l).
Proof.
  intros H. induction l as [|y l IH]; simpl; [reflexivity|].
  rewrite H. destruct (leA x y); simpl; [reflexivity | now rewrite IH].
Qed.

Lemma sort_by_map {A B : Type} (f : A -> B) (leA : A -> A -> bool)
  (leB : B -> B -> bool) (l : list A) :
  (forall a b, leB (f a) (f b) = leA a b) ->
  sort_by leB (map f l) = map f (sort_by leA l).
Proof.
  intros H. induction l as [|x l IH]; simpl; [reflexivity|].
  rewrite IH. now apply insert_by_map.
Qed.

(** A list of scores without NaN is a list of numbers. *)
Lemma no_nan_numbers (scored : list (VectorDocument * float)) :
  has_nan scored = false ->
  exists l : list (VectorDocument * Q),
    scored = map (fun p => (fst p, Num (snd p))) l.
Proof.
  induction scored as [|[d [q|]] scored IH]; simpl.
  - now exists [].
  - intros H. destruct (IH H) as [l ->]. now exists ((d, q) :: l).
  - discriminate.
Qed.

Lemma has_nan_false (scored : list (VectorDocument * float)) :
  (forall doc sc, In (doc, sc) scored -> sc <> NaN) -> has_nan scored = false.
Proof.
  induction scored as [|[d [q|]] scored IH]; simpl; intros H.
  - reflexivity.
  - apply IH. intros doc sc Hin. apply (H doc sc). now right.
  - exfalso. apply (H d NaN); [now left | reflexivity].
Qed.

(** Without NaN among the keys, the sort is the sort of the numbers. *)
Lemma sort_desc_numbers (np : Numerics) (l : list (VectorDocument * Q)) :
  sort_desc np (map (fun p => (fst p, Num (snd p))) l)
  = map (fun p => (fst p, Num (snd p))) (sort_by by_score_desc l).
Proof.
  unfold sort_desc.
  assert (H : has_nan (map (fun p : VectorDocument * Q => (fst p, Num (snd p))) l)
              = false).
  { induction l as [|[d q] l IH]; simpl; auto. }
  rewrite H. apply sort_by_map. intros [d1 q1] [d2 q2]. reflexivity.
Qed.

Lemma sort_desc_sorted (np : Numerics) (scored : list (VectorDocument * float)) :
  has_nan scored = false ->
  StronglySorted (fun a b => by_float_desc a b = true) (sort_desc np scored).
Proof.
  intros H. destruct (no_nan_numbers scored H) as [l ->].
  rewrite sort_desc_numbers.
  apply StronglySorted_map with (R := fun a b => by_score_desc a b = true).
  - intros [d1 q1] [d2 q2] Hle. exact Hle.
  - apply sort_by_sorted; [apply by_score_desc_total | apply by_score_desc_trans].
Qed.

Lemma sort_desc_perm (np : Numerics) (scored : list (VectorDocument * float)) :
  has_nan scored = false -> Permutation (sort_desc np scored) scored.
Proof.
  intros H. unfold sort_desc. rewrite H. apply sort_by_perm.
Qed.

Lemma rank_sorted (np : Numerics) (scored : list (VectorDocument * float))
  (top_k : Z) :
  has_nan scored = false ->
  StronglySorted score_desc (rank np scored top_k).
Proof.
  intros H. unfold rank.
  apply StronglySorted_map with (R := fun a b => by_float_desc a b = true).
  - intros [d1 s1] [d2 s2] Hle. exact Hle.
  - now apply slice_to_StronglySorted, sort_desc_sorted.
Qed.

Lemma rank_length (np : Numerics) (scored : list (VectorDocument * float))
  (top_k : Z) :
  (0 <= top_k)%Z -> (Z.of_nat (List.length (rank np scored top_k)) <= top_k)%Z.
Proof. intros H. unfold rank. rewrite length_map. now apply slice_to_length. Qed.

(** A NaN score is in no order with any other score: a list of two or more
    results that holds one is not sorted. *)
Lemma nan_not_sorted (l : list SearchResult) (r : SearchResult) :
  In r l -> score r = NaN -> (2 <= List.length l)%nat ->
  ~ StronglySorted score_desc l.
Proof.
  intros Hin Hnan Hlen Hs.
  assert (Hpair : forall l', StronglySorted score_desc l' -> In r l' ->
                   forall r', In r' l' -> r' = r \/ score_desc r r' \/ score_desc r' r).
  { induction 1 as [|x l' Hs' IH Hall]; intros Hr r' Hr'; [destruct Hr|].
    rewrite Forall_forall in Hall.
    destruct Hr as [-> | Hr], Hr' as [-> | Hr']; auto. }
  assert (Hnone : forall r', ~ score_desc r r' /\ ~ score_desc r' r).
  { intros r'. unfold score_desc. rewrite Hnan.
    split; [simpl; discriminate | destruct (score r'); simpl; discriminate]. }
  assert (Hall : forall r', In r' l -> r' = r).
  { intros r' Hr'. destruct (Hpair l Hs Hin r' Hr') as [E | [E | E]]; [exact E| |];
      exfalso; now apply (Hnone r') in E. }
  destruct l as [|x [|y l]]; simpl in Hlen; try lia.
  inversion Hs as [|? ? _ Hx]; subst. apply Forall_inv in Hx.
  rewrite (Hall x (or_introl eq_refl)) in Hx.
  now apply (Hnone y) in Hx.
Qed.

Lemma np_dot_same_length (a b : list Q) :
  List.length a = List.length b -> exists d, np_dot a b = Ok d.
Proof.
  revert b. induction a as [|x a IH]; intros [|y b] H; simpl in *; try discriminate.
  - now exists 0.
  - destruct (IH b) as [d ->]; [congruence|]. eexists. reflexivity.
Qed.

Lemma divide_nonzero (np : Numerics) (a n1 n2 : Q) :
  Qeq_bool n1 0 || Qeq_bool n2 0 = false -> divide np a (n1 * n2) <> ZeroDivisor.
Proof.
  intros H. apply orb_false_elim in H as [H1 H2].
  unfold divide. destruct (Qeq_bool (n1 * n2) 0) eqn:E; [|discriminate].
  apply Qeq_bool_eq in E. apply Qmult_integral in E.
  destruct E as [E | E]; apply Qeq_eq_bool in E; congruence.
Qed.

(** The quotient is never taken with a zero divisor. *)
Lemma cosine_no_zero_divisor (np : Numerics) (vec1 vec2 : list Q) :
  cosine_quotient np vec1 vec2 <> Ok ZeroDivisor.
Proof.
  unfold cosine_quotient. destruct (np_dot vec1 vec2) as [d|e]; [|discriminate].
  destruct (Qeq_bool (linalg_norm np vec1) 0 || Qeq_bool (linalg_norm np vec2) 0)
    eqn:E; [discriminate|].
  intros [= H]. revert H. now apply divide_nonzero.
Qed.

Lemma cosine_total (np : Numerics) (vec1 vec2 : list Q) :
  List.length vec1 = List.length vec2 ->
  exists x, _cosine_similarity np vec1 vec2 = Ok x.
Proof.
  intros H. unfold _cosine_similarity.
  pose proof (cosine_no_zero_divisor np vec1 vec2) as Hz.
  unfold cosine_quotient in *.
  destruct (np_dot_same_length _ _ H) as [d Hd]. rewrite Hd in *.
  destruct (Qeq_bool (linalg_norm np vec1) 0 || Qeq_bool (linalg_norm np vec2) 0).
  - now exists (Num 0).
  - destruct (divide np d (linalg_norm np vec1 * linalg_norm np vec2)) as [x|];
      [now exists x | congruence].
Qed.

(** C8, as amended: for two vectors of the same length, a zero norm of
    either makes the cosine similarity exactly 0, and for all vectors the
    division by the product of the norms never has a zero divisor. *)
Theorem cosine_zero_norm (np : Numerics) (vec1 vec2 : list Q) :
  List.length vec1 = List.length vec2 ->
  linalg_norm np vec1 == 0 \/ linalg_norm np vec2 == 0 ->
  _cosine_similarity np vec1 vec2 = Ok (Num 0)
  /\ forall v1 v2, cosine_quotient np v1 v2 <> Ok ZeroDivisor.
Proof.
  intros Hlen Hz. split; [|intros; apply cosine_no_zero_divisor].
  unfold _cosine_similarity, cosine_quotient.
  destruct (np_dot_same_length _ _ Hlen) as [d ->].
  assert (E : Qeq_bool (linalg_norm np vec1) 0 || Qeq_bool (linalg_norm np vec2) 0
              = true).
  { apply orb_true_iff. destruct Hz as [Hz | Hz]; [left | right];
      now apply Qeq_eq_bool. }
  now rewrite E.
Qed.

Lemma cosine_zero_norm_witness :
  _cosine_similarity exact_floats [0; 0] [3; 4] = Ok (Num 0)
  /\ forall v1 v2, cosine_quotient exact_floats v1 v2 <> Ok ZeroDivisor.
Proof.
  apply (cosine_zero_norm exact_floats [0; 0] [3; 4]).
  - reflexivity.
  - left. reflexivity.
Defined.

(** C8, as stated, fails where the two vectors differ in length: [np.dot]
    raises before the norms are looked at, so the zero vector of length 2
    against a vector of length 3 does not give 0. *)
Lemma cosine_zero_norm_counterexample :
  linalg_norm exact_floats [0; 0] == 0
  /\ _cosine_similarity exact_floats [0; 0] [1; 2; 3]
     = Raise (ValueError "shapes not aligned").
Proof. split; reflexivity. Qed.

End StoreFacts.

Module BackendFacts.
Import Py PyFacts VectorStore StoreViews StoreFacts InMemoryVectorStore.
Local Open Scope Q_scope.

Lemma getitem_collections (s : t) (name : string) :
  dict_mem (_collections (fst (getitem s name))) name = true.
Proof.
  unfold getitem, dict_mem. destruct (dict_get (_collections s) name) eqn:E; simpl.
  - now rewrite E.
  - now rewrite dict_get_set, String.eqb_refl.
Qed.

Lemma getitem_unwritten (s : t) (name : string) :
  (forall docs, dict_get (_collections s) name = Some docs -> docs = []) ->
  snd (getitem s name) = []
  /\ dict_get (_collections (fst (getitem s name))) name = Some [].
Proof.
  intros H. unfold getitem. destruct (dict_get (_collections s) name) eqn:E; simpl.
  - rewrite (H _ eq_refl) in *. auto.
  - now rewrite dict_get_set, String.eqb_refl.
Qed.

(** Reading a collection enters no other name and takes none away. *)
Lemma getitem_other (s : t) (name other : string) :
  other <> name ->
  dict_mem (_collections (fst (getitem s name))) other
  = dict_mem (_collections s) other.
Proof.
  intros Hne. unfold getitem, dict_mem.
  destruct (dict_get (_collections s) name) eqn:E; simpl; [reflexivity|].
  rewrite dict_get_set. now destruct (String.eqb_spec other name).
Qed.

Lemma getitem_stored (s : t) (name : string) :
  snd (getitem s name) = documents_of (_collections s) name.
Proof.
  unfold getitem, documents_of, Collection.
  now destruct (@dict_get (list (string * VectorDocument)) (_collections s) name).
Qed.

(** The scores of a scoring loop in which no document scores NaN. *)
Lemma score_all_no_nan (score_of : VectorDocument -> result float)
  (docs : list VectorDocument) (scored : list (VectorDocument * float)) :
  score_all score_of docs = Ok scored ->
  (forall doc, In doc docs -> score_of doc <> Ok NaN) ->
  has_nan scored = false.
Proof.
  revert scored. induction docs as [|d docs IH]; intros scored; simpl.
  - now intros [= <-].
  - destruct (score_of d) as [x|e] eqn:E; [|discriminate].
    destruct (score_all score_of docs) as [l|e]; [|discriminate].
    intros [= <-] H. simpl. rewrite (IH l eq_refl) by (intros; apply H; now right).
    destruct x as [x|]; [reflexivity|].
    exfalso. apply (H d); [now left | exact E].
Qed.

Lemma search_sorted (np : Numerics) (s s' : t) (q : list Q) (top_k : Z)
  (collection : option string) (filters : option (list (string * string)))
  (l : list SearchResult) :
  search np s q top_k collection filters = (s', Ok l) ->
  ((0 <= top_k)%Z -> (Z.of_nat (List.length l) <= top_k)%Z)
  /\ ((forall doc,
         In doc (apply_filters filters
                   (dict_values
                      (documents_of (_collections s)
                         (_get_collection_name (config s) collection)))) ->
         _cosine_similarity np q (embedding doc) <> Ok NaN) ->
      StronglySorted score_desc l).
Proof.
  unfold search.
  rewrite <- (getitem_stored s (_get_collection_name (config s) collection)).
  destruct (getitem s (_get_collection_name (config s) collection)) as [s1 c].
  cbn [snd].
  destruct (apply_filters filters (dict_values c)) as [|d ds].
  - intros [= _ <-]. split; [simpl; lia | constructor].
  - destruct (score_all _ (d :: ds)) as [scored|e] eqn:E; [|discriminate].
    intros [= _ <-]. split; [apply rank_length|].
    intros Hnan. apply rank_sorted. now apply (score_all_no_nan _ _ _ E).
Qed.

(** C6, at the input where the code departs from it: the in-process store
    keeps an [_initialized] flag and never reads it, so every operation on
    a store that was never initialised succeeds, and [add_documents] stores
    the document. *)
Theorem in_memory_before_initialize (np : Numerics)
  (config : VectorStoreConfig) (doc : VectorDocument) :
  let s := __init__ config in
  _initialized s = false
  /\ snd (add_documents s [doc] None) = Ok [id doc]
  /\ snd (count_documents (fst (add_documents s [doc] None)) None None) = Ok 1%Z
  /\ snd (delete_documents s [id doc] None) = Ok 0%Z
  /\ snd (search np s (embedding doc) 10 None None) = Ok []
  /\ snd (hybrid_search np s "q" (embedding doc) 10 None None 0.7 0.3) = Ok []
  /\ snd (count_documents s None None) = Ok 0%Z
  /\ snd (delete_collection s "laws") = Ok tt.
Proof.
  cbv zeta. repeat split.
  unfold add_documents, count_documents, store_document, getitem, __init__. simpl.
  rewrite !String.eqb_refl. simpl. rewrite !String.eqb_refl. reflexivity.
Qed.

(** The remote store does refuse every operation before [initialize]. *)
Lemma qdrant_before_initialize (config : VectorStoreConfig)
  (docs : list VectorDocument) (ids : list string) (q : list Q) (top_k : Z)
  (collection : option string) (filters : option (list (string * string)))
  (query name : string) (vw lw : Q) :
  let s := QdrantVectorStore.__init__ config in
  snd (QdrantVectorStore.add_documents s docs collection)
  = Raise QdrantVectorStore.not_initialized
  /\ snd (QdrantVectorStore.delete_documents s ids collection)
     = Raise QdrantVectorStore.not_initialized
  /\ snd (QdrantVectorStore.search s q top_k collection filters)
     = Raise QdrantVectorStore.not_initialized
  /\ snd (QdrantVectorStore.hybrid_search s query q top_k collection filters vw lw)
     = Raise QdrantVectorStore.not_initialized
  /\ snd (QdrantVectorStore.count_documents s collection filters)
     = Raise QdrantVectorStore.not_initialized
  /\ snd (QdrantVectorStore.delete_collection s name)
     = Raise QdrantVectorStore.not_initialized.
Proof. cbv zeta. repeat split. Qed.

(** The file-backed store, like the in-process one, never reads its flag. *)
Lemma file_system_before_initialize (host : FileSystemVectorStore.Host)
  (config : VectorStoreConfig) (doc : VectorDocument) :
  let s := FileSystemVectorStore.__init__ config [] in
  FileSystemVectorStore._initialized s = false
  /\ (FileSystemVectorStore.in_collection_dir
        (_get_collection_name config None) (id doc) = true ->
      snd (FileSystemVectorStore.add_documents host s [doc] None) = Ok [id doc])
  /\ snd (FileSystemVectorStore.count_documents s None None) = Ok 0%Z.
Proof.
  cbv zeta. repeat split. intros H.
  unfold FileSystemVectorStore.add_documents, FileSystemVectorStore.save_all,
    FileSystemVectorStore._save_document.
  cbn [FileSystemVectorStore.config FileSystemVectorStore.__init__].
  now rewrite H.
Qed.

(** C10, as amended: on the in-process store, [search] and
    [count_documents] act on the collection that [_get_collection_name]
    resolves the name to, which is the name itself unless it is empty and
    the configured collection otherwise.  When no document is stored under
    it they return the empty list and zero, and enter that collection,
    empty, into the store, so that [collection_exists] is true of it
    afterwards, while [collection_exists] of every other name is what it
    was before. *)
Theorem search_creates_collection (np : Numerics) (s : t) (name : string)
  (q : list Q) (top_k : Z) (filters : option (list (string * string))) :
  let resolved := _get_collection_name (config s) (Some name) in
  (forall docs, dict_get (_collections s) resolved = Some docs -> docs = []) ->
  let after_search := fst (search np s q top_k (Some name) filters) in
  let after_count := fst (count_documents s (Some name) filters) in
  (name <> "" -> resolved = name)
  /\ (name = "" -> resolved = collection_name (config s))
  /\ snd (search np s q top_k (Some name) filters) = Ok []
  /\ snd (collection_exists after_search resolved) = Ok true
  /\ dict_get (_collections after_search) resolved = Some []
  /\ snd (count_documents s (Some name) filters) = Ok 0%Z
  /\ snd (collection_exists after_count resolved) = Ok true
  /\ dict_get (_collections after_count) resolved = Some []
  /\ (forall other, other <> resolved ->
        snd (collection_exists after_search other) = snd (collection_exists s other)
        /\ snd (collection_exists after_count other)
           = snd (collection_exists s other)).
Proof.
  cbv zeta. intros Hun.
  set (resolved := _get_collection_name (config s) (Some name)) in *.
  split; [|split].
  - intros Hne. unfold resolved. simpl. destruct name; [congruence | reflexivity].
  - intros ->. reflexivity.
  - destruct (getitem_unwritten s resolved Hun) as [Hc Hs].
    pose proof (getitem_other s resolved) as Hother.
    assert (Hf : apply_filters filters
                   (dict_values (@nil (string * VectorDocument))) = []).
    { destruct filters as [[|f fs]|]; reflexivity. }
    unfold search, count_documents, collection_exists, dict_mem in *.
    fold resolved.
    destruct (getitem s resolved) as [s1 c] eqn:G. simpl in Hc, Hs, Hother.
    subst c. rewrite Hf. simpl. rewrite Hs.
    repeat split; intros; f_equal; now apply Hother.
Qed.

Lemma search_creates_collection_witness :
  let s := __init__ demo_config in
  snd (search exact_floats s [1; 0] 10 (Some "laws") None) = Ok []
  /\ snd (collection_exists (fst (search exact_floats s [1; 0] 10 (Some "laws") None))
            "laws") = Ok true
  /\ snd (collection_exists s "laws") = Ok false.
Proof.
  assert (Hun : forall docs,
             dict_get (_collections (__init__ demo_config))
               (_get_collection_name (config (__init__ demo_config)) (Some "laws"))
             = Some docs ->
             docs = []) by (intros docs E; discriminate E).
  destruct (search_creates_collection exact_floats (__init__ demo_config) "laws"
              [1; 0] 10 None Hun) as (_ & _ & H1 & H2 & _).
  cbv zeta. split; [exact H1 | split; [exact H2 | reflexivity]].
Defined.

(** C10, as stated, fails for the empty name: [search] reads it as the
    configured collection and enters that one, while [collection_exists]
    looks the empty name up as it is. *)
Lemma search_creates_collection_counterexample :
  let s := __init__ demo_config in
  let after_search := fst (search exact_floats s [1; 0] 10 (Some "") None) in
  snd (search exact_floats s [1; 0] 10 (Some "") None) = Ok []
  /\ snd (collection_exists after_search "") = Ok false
  /\ snd (collection_exists after_search "default") = Ok true.
Proof. cbv zeta. repeat split. Qed.

End BackendFacts.

Module HybridSearchFacts.
Import Py PyFacts VectorStore StoreViews StoreFacts.
Local Open Scope Q_scope.

Lemma score_all_total (score_of : VectorDocument -> result float)
  (docs : list VectorDocument) :
  (forall doc, In doc docs -> exists x, score_of doc = Ok x) ->
  exists l, score_all score_of docs = Ok l.
Proof.
  induction docs as [|d docs IH]; intros H; simpl.
  - now exists [].
  - destruct (H d (or_introl eq_refl)) as [x ->].
    destruct IH as [l ->]; [intros; apply H; now right|].
    eexists. reflexivity.
Qed.

Lemma apply_filters_incl (filters : option (list (string * string)))
  (docs : list VectorDocument) (doc : VectorDocument) :
  In doc (apply_filters filters docs) -> In doc docs.
Proof.
  destruct filters as [[|f fs]|]; simpl; auto.
  intros H. now apply filter_In in H.
Qed.

Lemma score_all_fst (score_of : VectorDocument -> result float)
  (docs : list VectorDocument) (scored : list (VectorDocument * float)) :
  score_all score_of docs = Ok scored ->
  map fst scored = docs
  /\ forall doc sc, In (doc, sc) scored -> score_of doc = Ok sc.
Proof.
  revert scored. induction docs as [|d docs IH]; intros scored; simpl.
  - intros [= <-]. split; [reflexivity | intros ? ? []].
  - destruct (score_of d) as [x|e] eqn:E; [|discriminate].
    destruct (score_all score_of docs) as [l|e]; [|discriminate].
    intros [= <-]. destruct (IH l eq_refl) as [Hf Hs]. split.
    + simpl. now rewrite Hf.
    + intros doc sc [[= <- <-] | Hin]; [exact E | now apply Hs].
Qed.

(** A dict filled by a loop over [l] holds, under each key it has, a value
    that the loop has stored. *)
Lemma fold_dict_set_get {A V : Type} (key : A -> string) (val : A -> V)
  (l : list A) (d : list (string * V)) (k : string) (v : V) :
  dict_get (fold_left (fun d a => dict_set d (key a) (val a)) l d) k = Some v ->
  (exists a, In a l /\ key a = k /\ val a = v) \/ dict_get d k = Some v.
Proof.
  revert d. induction l as [|a l IH]; intros d; cbn [fold_left]; [now right|].
  intros H. apply IH in H as [(a' & Hin & Hk & Hv) | H].
  - left. exists a'. split; [now right | now split].
  - rewrite dict_get_set in H. destruct (String.eqb_spec k (key a)) as [-> | Hne].
    + injection H as <-. left. exists a. split; [now left | now split].
    + now right.
Qed.

(** A combined score is a number when the vector score is one. *)
Lemma combine_number (x : float) (vw lex lw : Q) :
  x <> NaN -> FileSystemVectorStore.combine x vw lex lw <> NaN.
Proof. destruct x as [x|]; [discriminate | congruence]. Qed.

(** Where no candidate scores NaN against the query, none of the combined
    scores is NaN. *)
Lemma hybrid_scores_numbers (np : Numerics)
  (json_dumps : list (string * string) -> string) (query : string) (q : list Q)
  (vw lw : Q) (docs : list VectorDocument)
  (scored : list (VectorDocument * float)) :
  FileSystemVectorStore.hybrid_scores np json_dumps query q vw lw docs = Ok scored ->
  (forall doc, In doc docs -> _cosine_similarity np q (embedding doc) <> Ok NaN) ->
  has_nan scored = false.
Proof.
  unfold FileSystemVectorStore.hybrid_scores.
  destruct (score_all _ docs) as [vector_results|e] eqn:E; [|discriminate].
  intros [= <-] Hnan. apply has_nan_false.
  intros doc sc Hin. apply in_flat_map in Hin as (doc' & _ & Hin).
  destruct (dict_get _ (id doc')) as [c|] eqn:G; [|destruct Hin].
  destruct Hin as [[= <- <-] | []].
  apply (fold_dict_set_get id) in G as [(a & _ & _ & <-) | G]; [|discriminate G].
  apply combine_number.
  unfold FileSystemVectorStore.get_or_0.
  destruct (dict_get (FileSystemVectorStore.scores_by_id vector_results) (id a))
    as [x|] eqn:V; [|discriminate].
  unfold FileSystemVectorStore.scores_by_id in V.
  apply (fold_dict_set_get (fun p => id (fst p)) snd) in V
    as [([d0 x0] & Hin0 & _ & Hx) | V]; [|discriminate V].
  simpl in Hx. subst x0.
  destruct (score_all_fst _ _ _ E) as [Hf Hs].
  intros ->. apply (Hnan d0).
  - rewrite <- Hf. apply in_map_iff. now exists (d0, NaN).
  - now apply Hs.
Qed.

Lemma file_system_hybrid_sorted (np : Numerics)
  (json_dumps : list (string * string) -> string)
  (s s' : FileSystemVectorStore.t) (query : string) (q : list Q) (top_k : Z)
  (collection : option string) (filters : option (list (string * string)))
  (vw lw : Q) (l : list SearchResult) :
  FileSystemVectorStore.hybrid_search np json_dumps s query q top_k collection
    filters vw lw = (s', Ok l) ->
  ((0 <= top_k)%Z -> (Z.of_nat (List.length l) <= top_k)%Z)
  /\ ((forall scored,
         FileSystemVectorStore.hybrid_scores np json_dumps query q vw lw
           (apply_filters filters
              (FileSystemVectorStore._get_all_documents s
                 (_get_collection_name (FileSystemVectorStore.config s)
                    collection)))
         = Ok scored ->
         has_nan scored = false) ->
      StronglySorted score_desc l).
Proof.
  unfold FileSystemVectorStore.hybrid_search.
  destruct (apply_filters filters _) as [|d ds].
  - intros [= _ <-]. split; [simpl; lia | constructor].
  - destruct (FileSystemVectorStore.hybrid_scores _ _ _ _ _ _ (d :: ds))
      as [scored|e]; [|discriminate].
    intros [= _ <-]. split; [apply rank_length|].
    intros Hnan. apply rank_sorted. now apply Hnan.
Qed.

Lemma in_memory_hybrid_sorted (np : Numerics)
  (s s' : InMemoryVectorStore.t) (query : string) (q : list Q) (top_k : Z)
  (collection : option string) (filters : option (list (string * string)))
  (vw lw : Q) (l : list SearchResult) :
  InMemoryVectorStore.hybrid_search np s query q top_k collection filters vw lw
  = (s', Ok l) ->
  ((0 <= top_k)%Z -> (Z.of_nat (List.length l) <= top_k)%Z)
  /\ ((forall doc,
         In doc (apply_filters filters
                   (dict_values
                      (documents_of (InMemoryVectorStore._collections s)
                         (_get_collection_name (InMemoryVectorStore.config s)
                            collection)))) ->
         _cosine_similarity np q (embedding doc) <> Ok NaN) ->
      StronglySorted score_desc l).
Proof.
  unfold InMemoryVectorStore.hybrid_search.
  destruct (InMemoryVectorStore.search np s q (top_k * 2) collection filters)
    as [s1 [vector_results|e]] eqn:E; [|discriminate].
  intros [= _ <-].
  apply BackendFacts.search_sorted in E as [_ Hs].
  split; [apply slice_to_length|].
  intros Hnan. now apply slice_to_StronglySorted, Hs.
Qed.

(** Both stores return a list when every stored embedding has the length
    of the query embedding. *)
Lemma file_system_hybrid_returns (np : Numerics)
  (json_dumps : list (string * string) -> string)
  (s : FileSystemVectorStore.t) (query : string) (q : list Q) (top_k : Z)
  (collection : option string) (filters : option (list (string * string)))
  (vw lw : Q) :
  (forall doc,
      In doc (FileSystemVectorStore._get_all_documents s
                (_get_collection_name (FileSystemVectorStore.config s) collection)) ->
      List.length (embedding doc) = List.length q) ->
  exists l,
    FileSystemVectorStore.hybrid_search np json_dumps s query q top_k collection
      filters vw lw = (s, Ok l).
Proof.
  intros Hdim.
  unfold FileSystemVectorStore.hybrid_search, FileSystemVectorStore.hybrid_scores.
  destruct (apply_filters filters _) as [|d ds] eqn:F.
  - now exists [].
  - destruct (score_all_total
                (fun doc => _cosine_similarity np q (embedding doc)) (d :: ds))
      as [scored ->].
    + intros doc Hin. apply cosine_total. symmetry. apply Hdim.
      apply (apply_filters_incl filters). now rewrite F.
    + eexists. reflexivity.
Qed.

Lemma in_memory_hybrid_returns (np : Numerics)
  (s : InMemoryVectorStore.t) (query : string) (q : list Q) (top_k : Z)
  (collection : option string) (filters : option (list (string * string)))
  (vw lw : Q) :
  (forall c doc,
      dict_get (InMemoryVectorStore._collections s)
        (_get_collection_name (InMemoryVectorStore.config s) collection) = Some c ->
      In doc (dict_values c) ->
      List.length (embedding doc) = List.length q) ->
  exists s' l,
    InMemoryVectorStore.hybrid_search np s query q top_k collection filters vw lw
    = (s', Ok l).
Proof.
  intros Hdim.
  unfold InMemoryVectorStore.hybrid_search, InMemoryVectorStore.search,
    InMemoryVectorStore.getitem.
  destruct (dict_get _ _) as [c|] eqn:G.
  - destruct (apply_filters filters (dict_values c)) as [|d ds] eqn:F.
    + now exists s, (slice_to [] top_k).
    + destruct (score_all_total
                  (fun doc => _cosine_similarity np q (embedding doc)) (d :: ds))
        as [scored ->].
      * intros doc Hin. apply cosine_total. symmetry. apply (Hdim c); [reflexivity|].
        apply (apply_filters_incl filters). now rewrite F.
      * eexists _, _. reflexivity.
  - assert (F : apply_filters filters (dict_values (@nil (string * VectorDocument))) = [])
      by (destruct filters as [[|f fs]|]; reflexivity).
    rewrite F. eexists _, _. reflexivity.
Qed.

(** C7, as amended: whatever the documents, the query, the embedding and
    [top_k], the list that [hybrid_search] returns, in the file-backed and
    in the in-process store, has at most [top_k] elements when [top_k] is
    not negative, and is in non-increasing order of score when none of the
    scores that the store sorts by is NaN: the combined scores of the
    candidates in the file-backed store, their cosine similarities in the
    in-process one, the candidates being the documents of the collection
    that pass the filters.  With a NaN among these scores the sort does not
    order the list. *)
Theorem hybrid_search_sorted_bounded (np : Numerics)
  (json_dumps : list (string * string) -> string)
  (fs : FileSystemVectorStore.t) (mem : InMemoryVectorStore.t)
  (query : string) (q : list Q) (top_k : Z) (collection : option string)
  (filters : option (list (string * string))) (vw lw : Q) :
  (forall fs' l,
      FileSystemVectorStore.hybrid_search np json_dumps fs query q top_k
        collection filters vw lw = (fs', Ok l) ->
      ((0 <= top_k)%Z -> (Z.of_nat (List.length l) <= top_k)%Z)
      /\ ((forall scored,
             FileSystemVectorStore.hybrid_scores np json_dumps query q vw lw
               (apply_filters filters
                  (FileSystemVectorStore._get_all_documents fs
                     (_get_collection_name (FileSystemVectorStore.config fs)
                        collection)))
             = Ok scored ->
             has_nan scored = false) ->
          StronglySorted score_desc l))
  /\ (forall mem' l,
         InMemoryVectorStore.hybrid_search np mem query q top_k collection
           filters vw lw = (mem', Ok l) ->
         ((0 <= top_k)%Z -> (Z.of_nat (List.length l) <= top_k)%Z)
         /\ ((forall doc,
                In doc (apply_filters filters
                          (dict_values
                             (documents_of (InMemoryVectorStore._collections mem)
                                (_get_collection_name
                                   (InMemoryVectorStore.config mem) collection)))) ->
                _cosine_similarity np q (embedding doc) <> Ok NaN) ->
             StronglySorted score_desc l)).
Proof.
  split; intros st l H.
  - eapply file_system_hybrid_sorted; eauto.
  - eapply in_memory_hybrid_sorted; eauto.
Qed.

Lemma hybrid_search_sorted_bounded_witness :
  exists l,
    FileSystemVectorStore.hybrid_search exact_floats json_dumps_plain
      FileSystemVectorStore.demo "road" [1; 0] 2 None None 0.7 0.3
    = (FileSystemVectorStore.demo, Ok l)
    /\ List.length l = 2%nat
    /\ StronglySorted score_desc l
    /\ (Z.of_nat (List.length l) <= 2)%Z.
Proof.
  eexists. split; [vm_compute; reflexivity|]. split; [reflexivity|].
  destruct (hybrid_search_sorted_bounded exact_floats json_dumps_plain
              FileSystemVectorStore.demo InMemoryVectorStore.demo
              "road" [1; 0] 2 None None 0.7 0.3) as [Hfs _].
  destruct (Hfs _ _ eq_refl) as [Hlen Hsorted].
  split; [|apply Hlen; lia].
  apply Hsorted. intros scored E. vm_compute in E. now inversion E.
Defined.

(** C7, as stated, fails for a negative [top_k], which the slice reads from
    the end of the list: with three documents and [top_k = -1] the
    file-backed store returns two results and the in-process store none,
    and neither length is at most -1. *)
Lemma hybrid_search_counterexample :
  exists l1 l2,
    FileSystemVectorStore.hybrid_search exact_floats json_dumps_plain
      FileSystemVectorStore.demo "road" [1; 0] (-1) None None 0.7 0.3
    = (FileSystemVectorStore.demo, Ok l1)
    /\ InMemoryVectorStore.hybrid_search exact_floats
         InMemoryVectorStore.demo "road" [1; 0] (-1) None None 0.7 0.3
       = (InMemoryVectorStore.demo, Ok l2)
    /\ List.length l1 = 2%nat
    /\ List.length l2 = 0%nat
    /\ ~ (Z.of_nat (List.length l1) <= -1)%Z
    /\ ~ (Z.of_nat (List.length l2) <= -1)%Z.
Proof.
  eexists _, _. split; [vm_compute; reflexivity|].
  split; [vm_compute; reflexivity|].
  repeat split; simpl; lia.
Qed.

(** With a NaN among the scores, neither store returns a list in order:
    the document whose embedding overflows scores NaN, and the list comes
    back in the order of the candidates. *)
Lemma hybrid_search_with_nan :
  (exists l,
      snd (FileSystemVectorStore.hybrid_search overflowing_floats json_dumps_plain
             FileSystemVectorStore.demo_overflow "road" [10; 10] 3 None None
             0.7 0.3) = Ok l
      /\ map result_id l = ["a"; "h"; "n"]
      /\ ~ StronglySorted score_desc l)
  /\ (exists l,
         snd (InMemoryVectorStore.hybrid_search overflowing_floats
                InMemoryVectorStore.demo_overflow "road" [10; 10] 3 None None
                0.7 0.3) = Ok l
         /\ map result_id l = ["a"; "h"; "n"]
         /\ ~ StronglySorted score_desc l).
Proof.
  split; eexists; (split; [vm_compute; reflexivity|]); (split; [reflexivity|]);
    intros H; inversion H as [|? ? _ Hall]; subst;
    apply Forall_inv in Hall; vm_compute in Hall; discriminate Hall.
Qed.

End HybridSearchFacts.

(* ================================================================== *)
(** * In-process cache: expiry *)
(* ================================================================== *)

Module CacheFacts.
Import Py PyFacts InMemoryCache.
Local Open Scope Q_scope.

(** What a run of deletions leaves under a key of a dict. *)
Lemma dict_get_dels (d : list (string * Entry)) (ks : list string) (k : string) :
  NoDup (dict_keys d) ->
  NoDup (dict_keys (fold_left (fun d key => dict_del d key) ks d))
  /\ dict_get (fold_left (fun d key => dict_del d key) ks d) k
     = if existsb (String.eqb k) ks then None else dict_get d k.
Proof.
  revert d. induction ks as [|k0 ks IH]; intros d Hnd; simpl.
  - auto.
  - destruct (IH (dict_del d k0) (dict_del_NoDup d k0 Hnd)) as [Hnd' Hget].
    split; [exact Hnd'|]. rewrite Hget.
    destruct (existsb (String.eqb k) ks); [now rewrite orb_true_r|].
    rewrite orb_false_r. destruct (String.eqb k k0) eqn:E.
    + apply String.eqb_eq in E. subst. now apply dict_get_del_same.
    + apply String.eqb_neq in E. now apply dict_get_del_other.
Qed.










(** [set], unlike [get], does not sweep: an entry that expired at time 160
    is still stored after a [set] of another key at time 200. *)
Example set_does_not_sweep :
  let s := fst (set demo "k" "v" (Some 60%Z) 100) in
  dict_get (_store (fst (set s "other" "x" None 200))) "k" = Some ("v", 100 + inject_Z 60)
  /\ dict_get (_store (fst (get s "other" 200 200))) "k" = None.
Proof. split; reflexivity. Qed.



End CacheFacts.

(* ================================================================== *)
(** * Tiered search: primary, secondary, write-back *)
(* ================================================================== *)

Module OrchestratorFacts.
Import Py PyFacts Scoring Db Main MainMore.
Local Open Scope list_scope.

Lemma write_backs_app (l1 l2 : list Event) :
  write_backs (l1 ++ l2) = (write_backs l1 + write_backs l2)%nat.
Proof. unfold write_backs. now rewrite filter_app, length_app. Qed.

Lemma write_backs_snoc (log : list Event) (ev : Event) :
  write_backs (log ++ [ev])
  = (write_backs log + if is_write_back ev then 1 else 0)%nat.
Proof.
  rewrite write_backs_app. unfold write_backs. simpl.
  destruct (is_write_back ev); reflexivity.
Qed.

(** The search loop only selects. *)
Lemma search_loop_log (env : Env) (qs : list string) (per_query top_k : Z)
  (filters : option LawSearchFilters.t) (by_id : list (string * LawSearchResult.t))
  (log : list Event) :
  write_backs (fst (search_loop env qs per_query top_k filters by_id log))
  = write_backs log.
Proof.
  revert by_id log. induction qs as [|q qs IH]; intros by_id log; simpl.
  - reflexivity.
  - unfold bind, call.
    destruct (execute_select env (sub_query_select q per_query top_k filters))
      as [rows|e]; simpl.
    + rewrite IH, write_backs_snoc. simpl. lia.
    + rewrite write_backs_snoc. simpl. lia.
Qed.

Lemma db_search_log (env : Env) (query : string) (top_k : Z)
  (filters : option LawSearchFilters.t) (log : list Event) :
  write_backs (fst (_db_search_laws env query top_k filters log)) = write_backs log.
Proof.
  unfold _db_search_laws. destruct (_split_query_list query) as [|q qs]; [reflexivity|].
  unfold bind.
  pose proof (search_loop_log env (q :: qs) (per_query_of top_k (q :: qs)) top_k
                filters [] log) as H.
  destruct (search_loop env (q :: qs) _ top_k filters [] log) as [log' [by_id|e]];
    exact H.
Qed.

(** The loop of the write-back only upserts. *)
Lemma upsert_items_log (env : Env) (raw : list CollectorItem.t) (log : list Event) :
  write_backs (fst (upsert_items env raw log)) = write_backs log.
Proof.
  revert log. induction raw as [|item raw IH]; intros log; simpl.
  - reflexivity.
  - destruct (is_empty (strip (RawLaw.law_id (CollectorItem.law item)))); [apply IH|].
    unfold bind, call.
    destruct (execute_upsert env _) as [[]|e]; simpl.
    + rewrite IH, write_backs_snoc. simpl. lia.
    + rewrite write_backs_snoc. simpl. lia.
Qed.

(** The best-effort block returns normally whatever the session does, and
    invokes the write-back once. *)
Lemma best_effort_cache_spec (env : Env) (raw : list CollectorItem.t)
  (log : list Event) :
  exists log',
    best_effort_cache env raw log = (log', Ok tt)
    /\ write_backs log' = S (write_backs log).
Proof.
  unfold best_effort_cache, _cache_search_results_to_db, bind, attempt, emit, call, ret.
  pose proof (upsert_items_log env raw (log ++ [WriteBack raw])) as H.
  rewrite write_backs_snoc in H. simpl in H.
  destruct (upsert_items env raw (log ++ [WriteBack raw])) as [log1 [[]|e]];
    simpl in H.
  - destruct (commit env) as [[]|e].
    + eexists. split; [reflexivity|]. rewrite write_backs_snoc. simpl. lia.
    + destruct (rollback env) as [[]|e']; (eexists; split; [reflexivity|]);
        rewrite !write_backs_snoc; simpl; lia.
  - destruct (rollback env) as [[]|e']; (eexists; split; [reflexivity|]);
      rewrite !write_backs_snoc; simpl; lia.
Qed.

Lemma is_empty_false (s : string) : s <> "" -> is_empty s = false.
Proof. destruct s; [congruence | reflexivity]. Qed.

(** C1: without API key, [law_search] fails with ServiceUnavailable (503)
    when the search of the persistent store raised, and returns a response
    with an empty result list when that search returned no rows. *)
Theorem law_search_without_secondary (env : Env) (body : LawSearchRequest.t) :
  law_api_key env = "" ->
  (forall log e,
      run (_db_search_laws env (LawSearchRequest.query body)
             (LawSearchRequest.top_k body) (LawSearchRequest.filters body))
      = (log, Raise e) ->
      run (law_search env body)
      = (log, Raise (HTTPException 503 "ServiceUnavailable" (exn_str e))))
  /\ (forall log,
         run (_db_search_laws env (LawSearchRequest.query body)
                (LawSearchRequest.top_k body) (LawSearchRequest.filters body))
         = (log, Ok []) ->
         exists response,
           run (law_search env body) = (log, Ok response)
           /\ LawSearchResponse.results response = []
           /\ LawSearchResponse.total_count response = 0%Z).
Proof.
  intros Hkey. split.
  - intros log e H.
    unfold run, law_search, attempt_primary, bind, attempt in *. rewrite H. simpl.
    unfold attempt_secondary. rewrite Hkey. reflexivity.
  - intros log H.
    unfold run, law_search, attempt_primary, bind, attempt in *. rewrite H. simpl.
    unfold attempt_secondary. rewrite Hkey. simpl.
    eexists. split; [reflexivity|]. split; reflexivity.
Qed.

Lemma law_search_without_secondary_witness :
  (exists log,
      run (law_search down_env (request "alpha" 10))
      = (log, Raise (HTTPException 503 "ServiceUnavailable" "connection refused")))
  /\ (exists log response,
         run (law_search (table_env []) (request "alpha" 10)) = (log, Ok response)
         /\ LawSearchResponse.results response = []).
Proof.
  split.
  - destruct (law_search_without_secondary down_env (request "alpha" 10) eq_refl)
      as [Hraise _].
    eexists. exact (Hraise _ (ExternalError "connection refused") eq_refl).
  - destruct (law_search_without_secondary (table_env []) (request "alpha" 10) eq_refl)
      as [_ Hempty].
    destruct (Hempty _ eq_refl) as (response & Hrun & Hres & _).
    eexists _, response. split; [exact Hrun | exact Hres].
Defined.

(** The run of [law_search] through the remote source. *)
Lemma secondary_run (env : Env) (body : LawSearchRequest.t)
  (raw : list CollectorItem.t) (log1 : list Event)
  (r1 : result (list LawSearchResult.t)) :
  law_api_key env <> "" ->
  run (_db_search_laws env (LawSearchRequest.query body)
         (LawSearchRequest.top_k body) (LawSearchRequest.filters body))
  = (log1, r1) ->
  r1 = Ok [] \/ (exists e, r1 = Raise e) ->
  collector_search_law env (LawSearchRequest.query body) (LawSearchRequest.top_k body)
  = Ok raw ->
  exists log,
    run (law_search env body)
    = (log, Ok (respond body (law_api_key env) (map _map_collector_result raw)
                  (Some "law.go.kr")))
    /\ write_backs log = 1%nat
    /\ In (WriteBack raw) log
    /\ List.length (LawSearchResponse.results
                      (respond body (law_api_key env)
                         (map _map_collector_result raw) (Some "law.go.kr")))
       = List.length raw.
Proof.
  intros Hkey Hprim Hr1 Hcoll.
  pose proof (db_search_log env (LawSearchRequest.query body)
                (LawSearchRequest.top_k body) (LawSearchRequest.filters body) [])
    as Hlog1.
  unfold run in *. rewrite Hprim in Hlog1. simpl in Hlog1.
  destruct (best_effort_cache_spec env raw
              (log1 ++ [CollectorSearch (LawSearchRequest.query body)
                          (LawSearchRequest.top_k body)]))
    as (log & Hbe & Hwb).
  assert (Hin : In (WriteBack raw) log).
  { revert Hbe. unfold best_effort_cache, _cache_search_results_to_db, bind, attempt,
      emit, call, ret.
    set (l0 := (log1 ++ [CollectorSearch _ _]) ++ [WriteBack raw]).
    assert (Hmono : forall raw' l, In (WriteBack raw) l ->
                                   In (WriteBack raw) (fst (upsert_items env raw' l))).
    { induction raw' as [|item raw' IH]; intros l Hl; simpl; [exact Hl|].
      destruct (is_empty _); [now apply IH|].
      unfold bind, call. destruct (execute_upsert env _) as [[]|e]; simpl.
      - apply IH. apply in_or_app. now left.
      - apply in_or_app. now left. }
    assert (H0 : In (WriteBack raw) l0) by (apply in_or_app; right; now left).
    specialize (Hmono raw l0 H0).
    destruct (upsert_items env raw l0) as [l1 [[]|e]]; simpl in Hmono.
    - destruct (commit env) as [[]|e].
      + intros [= <-]. apply in_or_app. now left.
      + destruct (rollback env) as [[]|e']; intros [= <-];
          repeat (apply in_or_app; left); exact Hmono.
    - destruct (rollback env) as [[]|e']; intros [= <-];
        repeat (apply in_or_app; left); exact Hmono. }
  exists log. split; [|split; [|split]].
  - unfold law_search, attempt_primary, bind, attempt. rewrite Hprim.
    destruct Hr1 as [-> | [e ->]]; simpl;
      unfold attempt_secondary; rewrite (is_empty_false _ Hkey); simpl;
      unfold bind, attempt, call; rewrite Hcoll; simpl;
      unfold bind; rewrite Hbe; simpl; try reflexivity.
    destruct (map _map_collector_result raw); reflexivity.
  - rewrite Hwb, write_backs_snoc, Hlog1. reflexivity.
  - exact Hin.
  - simpl. apply length_map.
Qed.

Lemma db_search_with_writes (env : Env) (upsert : Upsert -> result unit)
  (c r : result unit) (query : string) (top_k : Z)
  (filters : option LawSearchFilters.t) (log : list Event) :
  _db_search_laws (with_writes env upsert c r) query top_k filters log
  = _db_search_laws env query top_k filters log.
Proof.
  unfold _db_search_laws. destruct (_split_query_list query) as [|q0 qs0]; [reflexivity|].
  unfold bind.
  assert (H : forall qs by_id l,
             search_loop (with_writes env upsert c r) qs
               (per_query_of top_k (q0 :: qs0)) top_k filters by_id l
             = search_loop env qs (per_query_of top_k (q0 :: qs0)) top_k filters by_id l).
  { induction qs as [|q qs IH]; intros by_id l; simpl; [reflexivity|].
    unfold bind, call. simpl execute_select.
    destruct (execute_select env _); [apply IH | reflexivity]. }
  now rewrite H.
Qed.

Lemma map_collector_result_carries (raw : list CollectorItem.t) :
  Forall2 carries (map _map_collector_result raw) raw.
Proof.
  induction raw as [|item raw IH]; simpl; constructor; [|exact IH].
  unfold carries, _map_collector_result, or_none. cbn. repeat split.
Qed.

(** C2: with an API key, when the search of the persistent store returned
    no rows or raised and the remote source returns [raw], [law_search]
    returns the records of [raw], one result for each record and in the
    order of [raw], each with the id, the name and the other fields of its
    record, with the source law.go.kr; the write-back is invoked exactly
    once, with [raw]; and the response is the same whatever the upserts,
    the commit and the rollback do, so a failure of the write-back neither
    changes it nor reaches the caller. *)
Theorem law_search_secondary (env : Env) (body : LawSearchRequest.t)
  (raw : list CollectorItem.t) (log1 : list Event)
  (r1 : result (list LawSearchResult.t)) :
  law_api_key env <> "" ->
  run (_db_search_laws env (LawSearchRequest.query body)
         (LawSearchRequest.top_k body) (LawSearchRequest.filters body))
  = (log1, r1) ->
  r1 = Ok [] \/ (exists e, r1 = Raise e) ->
  collector_search_law env (LawSearchRequest.query body) (LawSearchRequest.top_k body)
  = Ok raw ->
  let response := respond body (law_api_key env) (map _map_collector_result raw)
                    (Some "law.go.kr") in
  (exists log,
      run (law_search env body) = (log, Ok response)
      /\ write_backs log = 1%nat
      /\ In (WriteBack raw) log)
  /\ LawSearchResponse.results response = map _map_collector_result raw
  /\ Forall2 carries (LawSearchResponse.results response) raw
  /\ List.length (LawSearchResponse.results response) = List.length raw
  /\ LawSearchResponse.total_count response = Z.of_nat (List.length raw)
  /\ (forall upsert c r,
         snd (run (law_search (with_writes env upsert c r) body)) = Ok response
         /\ write_backs (fst (run (law_search (with_writes env upsert c r) body)))
            = 1%nat).
Proof.
  intros Hkey Hprim Hr1 Hcoll response.
  split; [|split; [reflexivity|split; [apply map_collector_result_carries|
    split; [apply length_map|split; [simpl; now rewrite length_map|]]]]].
  - destruct (secondary_run env body raw log1 r1 Hkey Hprim Hr1 Hcoll)
      as (log & Hrun & Hwb & Hin & _).
    exists log. auto.
  - intros upsert c r.
    destruct (secondary_run (with_writes env upsert c r) body raw log1 r1)
      as (log & Hrun & Hwb & _); auto.
    + unfold run. rewrite db_search_with_writes. exact Hprim.
    + rewrite Hrun. auto.
Qed.

Lemma law_search_secondary_witness :
  exists log response,
    run (law_search fallback_env (request "alpha" 10)) = (log, Ok response)
    /\ List.length (LawSearchResponse.results response) = 2%nat
    /\ Forall2 carries (LawSearchResponse.results response)
         [CollectorItem.mk "alpha" (plain_raw "L1" "alpha");
          CollectorItem.mk "alpha" (plain_raw "L2" "beta")]
    /\ write_backs log = 1%nat.
Proof.
  destruct (law_search_secondary fallback_env (request "alpha" 10)
              [CollectorItem.mk "alpha" (plain_raw "L1" "alpha");
               CollectorItem.mk "alpha" (plain_raw "L2" "beta")]
              _ _ ltac:(discriminate) eq_refl (or_introl eq_refl) eq_refl)
    as ((log & Hrun & Hwb & _) & _ & Hcarries & Hlen & _).
  exists log. eexists. split; [exact Hrun|]. split; [exact Hlen|].
  split; [exact Hcarries | exact Hwb].
Defined.

End OrchestratorFacts.

(* ================================================================== *)
(** * Multi-query aggregation: merge by id *)
(* ================================================================== *)

Module AggregatorFacts.
Import Py PyFacts Scoring Db Main.
Local Open Scope list_scope.
Local Open Scope Q_scope.

Lemma merged_nil : merged [] [].
Proof.
  repeat split; simpl; try constructor; try discriminate; try contradiction.
Qed.

Lemma merge_one_merged (by_id : list (string * LawSearchResult.t))
  (observed : list LawSearchResult.t) (r : LawSearchResult.t) :
  merged by_id observed -> merged (merge_one by_id r) (observed ++ [r]).
Proof.
  intros (Hnd & Hget & Hobs & Hlen). unfold merge_one.
  destruct (dict_get by_id (LawSearchResult.law_id r)) as [prev|] eqn:E.
  - destruct (Qltb (score_or_0 prev) (score_or_0 r)) eqn:L.
    + split; [now apply dict_set_NoDup|]. split; [|split].
      * intros k r0. rewrite dict_get_set.
        destruct (String.eqb k (LawSearchResult.law_id r)) eqn:K.
        -- apply String.eqb_eq in K. intros [= <-].
           split; [now symmetry | apply in_or_app; right; now left].
        -- intros H. destruct (Hget _ _ H) as [H1 H2].
           split; [exact H1 | apply in_or_app; now left].
      * intros r' Hin. rewrite dict_get_set.
        apply in_app_or in Hin as [Hin | [<- | []]].
        -- destruct (Hobs r' Hin) as (r0 & G & Hle).
           destruct (String.eqb (LawSearchResult.law_id r')
                       (LawSearchResult.law_id r)) eqn:K.
           ++ apply String.eqb_eq in K. rewrite K, E in G. injection G as <-.
              exists r. split; [reflexivity|].
              eapply Qle_trans; [exact Hle | now apply Qltb_true_le].
           ++ exists r0. auto.
        -- rewrite String.eqb_refl. exists r. split; [reflexivity | apply Qle_refl].
      * rewrite dict_set_length. unfold dict_mem. rewrite E, length_app. simpl. lia.
    + split; [exact Hnd|]. split; [|split].
      * intros k r0 H. destruct (Hget _ _ H) as [H1 H2].
        split; [exact H1 | apply in_or_app; now left].
      * intros r' Hin. apply in_app_or in Hin as [Hin | [<- | []]].
        -- now apply Hobs.
        -- exists prev. split; [exact E | now apply Qltb_false_le].
      * rewrite length_app. simpl. lia.
  - split; [now apply dict_set_NoDup|]. split; [|split].
    + intros k r0. rewrite dict_get_set.
      destruct (String.eqb k (LawSearchResult.law_id r)) eqn:K.
      * apply String.eqb_eq in K. intros [= <-].
        split; [now symmetry | apply in_or_app; right; now left].
      * intros H. destruct (Hget _ _ H) as [H1 H2].
        split; [exact H1 | apply in_or_app; now left].
    + intros r' Hin. rewrite dict_get_set.
      apply in_app_or in Hin as [Hin | [<- | []]].
      * destruct (Hobs r' Hin) as (r0 & G & Hle).
        destruct (String.eqb (LawSearchResult.law_id r')
                    (LawSearchResult.law_id r)) eqn:K.
        -- apply String.eqb_eq in K. rewrite K, E in G. discriminate.
        -- exists r0. auto.
      * rewrite String.eqb_refl. exists r. split; [reflexivity | apply Qle_refl].
    + rewrite dict_set_length. unfold dict_mem. rewrite E, length_app. simpl. lia.
Qed.

Lemma merge_all_merged (rs : list LawSearchResult.t)
  (by_id : list (string * LawSearchResult.t)) (observed : list LawSearchResult.t) :
  merged by_id observed -> merged (merge_all by_id rs) (observed ++ rs).
Proof.
  unfold merge_all. revert by_id observed.
  induction rs as [|r rs IH]; intros by_id observed H; simpl.
  - now rewrite app_nil_r.
  - replace (observed ++ r :: rs) with ((observed ++ [r]) ++ rs)
      by (now rewrite <- app_assoc).
    apply IH. now apply merge_one_merged.
Qed.

Lemma search_loop_merged (env : Env) (qs : list string) (per_query top_k : Z)
  (filters : option LawSearchFilters.t)
  (by_id out : list (string * LawSearchResult.t))
  (observed : list LawSearchResult.t) (log log' : list Event) :
  merged by_id observed ->
  search_loop env qs per_query top_k filters by_id log = (log', Ok out) ->
  merged out
    (observed ++ List.concat (map (sub_result_set env per_query top_k filters) qs)).
Proof.
  revert by_id observed log. induction qs as [|q qs IH]; intros by_id observed log H; simpl.
  - unfold ret. intros [= _ <-]. now rewrite app_nil_r.
  - unfold bind, call, sub_result_set.
    destruct (execute_select env (sub_query_select q per_query top_k filters))
      as [rows|e]; [|discriminate].
    intros Hrun. rewrite app_assoc.
    eapply IH; [|exact Hrun]. now apply merge_all_merged.
Qed.

Lemma merged_ids (by_id : list (string * LawSearchResult.t))
  (observed : list LawSearchResult.t) :
  merged by_id observed ->
  map LawSearchResult.law_id (dict_values by_id) = dict_keys by_id.
Proof.
  intros (Hnd & Hget & _). unfold dict_values, dict_keys. rewrite map_map.
  apply map_ext_in. intros [k r] Hin. simpl.
  apply (dict_In_get _ _ _ Hnd) in Hin. now destruct (Hget _ _ Hin).
Qed.

Lemma concat_length_bound {A : Type} (f : string -> list A) (qs : list string)
  (bound : Z) :
  (forall q, Z.of_nat (List.length (f q)) <= bound)%Z ->
  (Z.of_nat (List.length (List.concat (map f qs))) <= Z.of_nat (List.length qs) * bound)%Z.
Proof.
  intros H. induction qs as [|q qs IH]; simpl List.length.
  - simpl. lia.
  - simpl List.concat. rewrite length_app. specialize (H q). lia.
Qed.

Lemma sub_result_set_length (env : Env) (per_query top_k : Z)
  (filters : option LawSearchFilters.t) (q : string) :
  (0 <= per_query)%Z ->
  (Z.of_nat (List.length (sub_result_set env per_query top_k filters q))
   <= per_query)%Z.
Proof.
  intros H. unfold sub_result_set, sub_results.
  destruct (execute_select env _); [now apply slice_to_length | simpl; lia].
Qed.

Lemma budget (top_k : Z) (qs : list string) :
  qs <> [] ->
  (Z.of_nat (List.length qs) <= top_k)%Z ->
  (Z.of_nat (List.length qs) * per_query_of top_k qs <= top_k)%Z.
Proof.
  intros Hne Hle. unfold per_query_of.
  assert (Hpos : (0 < Z.of_nat (List.length qs))%Z) by (destruct qs; simpl; [congruence | lia]).
  assert (H1 : (1 <= top_k / Z.of_nat (List.length qs))%Z)
    by (apply Z.div_le_lower_bound; lia).
  rewrite Z.max_r by lia. now apply Z.mul_div_le.
Qed.

Lemma search_law_length
  (fetch_law_for_query : string -> Z -> result (list RawLaw.t))
  (query : string) (top_k : Z) :
  (0 <= top_k)%Z ->
  (Z.of_nat (List.length (Collector.search_law fetch_law_for_query query top_k))
   <= top_k)%Z.
Proof.
  intros H. unfold Collector.search_law.
  destruct (Collector.to_query_list query); [simpl; lia | now apply slice_to_length].
Qed.

(** C3, as amended: the persistent-store aggregation [_db_search_laws]
    returns no document id twice; every result it returns comes from a
    sub-query result set and has the highest score observed for its id; its
    length is at most [top_k] when [top_k] is not negative; and when there
    are no more sub-queries than [top_k], so that the final cut removes
    nothing, every id of a result set is in the output.  The remote
    aggregation [search_law] keeps the length bound only. *)
Theorem db_search_merge (env : Env) (query : string) (top_k : Z)
  (filters : option LawSearchFilters.t) (log : list Event)
  (out : list LawSearchResult.t) :
  run (_db_search_laws env query top_k filters) = (log, Ok out) ->
  let observed := List.concat (sub_result_sets env query top_k filters) in
  NoDup (map LawSearchResult.law_id out)
  /\ (forall r, In r out ->
        In r observed
        /\ forall r', In r' observed ->
             LawSearchResult.law_id r' = LawSearchResult.law_id r ->
             score_or_0 r' <= score_or_0 r)
  /\ ((0 <= top_k)%Z -> (Z.of_nat (List.length out) <= top_k)%Z)
  /\ ((Z.of_nat (List.length (_split_query_list query)) <= top_k)%Z ->
      forall r', In r' observed ->
        exists r, In r out
                  /\ LawSearchResult.law_id r = LawSearchResult.law_id r')
  /\ (forall fetch_law_for_query,
         (0 <= top_k)%Z ->
         (Z.of_nat (List.length
                      (Collector.search_law fetch_law_for_query query top_k))
          <= top_k)%Z).
Proof.
  intros Hrun observed.
  cut (NoDup (map LawSearchResult.law_id out)
       /\ (forall r, In r out ->
             In r observed
             /\ forall r', In r' observed ->
                  LawSearchResult.law_id r' = LawSearchResult.law_id r ->
                  score_or_0 r' <= score_or_0 r)
       /\ ((0 <= top_k)%Z -> (Z.of_nat (List.length out) <= top_k)%Z)
       /\ ((Z.of_nat (List.length (_split_query_list query)) <= top_k)%Z ->
           forall r', In r' observed ->
             exists r, In r out
                       /\ LawSearchResult.law_id r = LawSearchResult.law_id r')).
  { intros (H1 & H2 & H3 & H4). repeat split; auto.
    - now apply H2.
    - intros r' Hr' Hid. destruct (H2 r H) as [_ Hmax]. now apply Hmax.
    - intros f. apply search_law_length. }
  revert Hrun. subst observed.
  unfold run, _db_search_laws, sub_result_sets.
  destruct (_split_query_list query) as [|q0 qs0] eqn:Q.
  - unfold ret. intros [= _ <-]. simpl.
    repeat split; try constructor; try contradiction; simpl; lia.
  - set (qs := q0 :: qs0) in *. set (pq := per_query_of top_k qs).
    unfold bind.
    destruct (search_loop env qs pq top_k filters [] []) as [log' [by_id|e]] eqn:L;
      [|discriminate].
    unfold ret. intros [= _ <-]. cbv zeta.
    pose proof (search_loop_merged env qs pq top_k filters [] by_id [] [] log'
                  merged_nil L) as M.
    rewrite app_nil_l in M.
    set (observed := List.concat (map (sub_result_set env pq top_k filters) qs)) in *.
    pose proof M as (Hnd & Hget & Hobs & Hlen).
    pose proof (sort_by_perm rank_leb (dict_values by_id)) as Hperm.
    split; [|split; [|split]].
    + rewrite map_slice_to. apply slice_to_NoDup.
      eapply Permutation_NoDup; [apply Permutation_sym, Permutation_map, Hperm|].
      now rewrite (merged_ids _ _ M).
    + intros r Hin. apply slice_to_incl in Hin.
      apply (Permutation_in _ Hperm) in Hin.
      unfold dict_values in Hin. apply in_map_iff in Hin as [[k r0] [Hr Hin]].
      simpl in Hr. subst r0. apply (dict_In_get _ _ _ Hnd) in Hin.
      destruct (Hget _ _ Hin) as [Hid Hin_obs]. split; [exact Hin_obs|].
      intros r' Hr' Hsame. destruct (Hobs r' Hr') as (r1 & G & Hle).
      rewrite Hsame, Hid, Hin in G. now injection G as <-.
    + apply slice_to_length.
    + intros Hn r' Hr'. destruct (Hobs r' Hr') as (r1 & G & _).
      exists r1. split.
      * rewrite slice_to_all.
        -- apply (Permutation_in _ (Permutation_sym Hperm)).
           unfold dict_values. apply in_map_iff.
           exists (LawSearchResult.law_id r', r1). split; [reflexivity|].
           now apply dict_get_In.
        -- rewrite sort_by_length. unfold dict_values. rewrite length_map.
           assert (Hb : (Z.of_nat (List.length observed)
                         <= Z.of_nat (List.length qs) * pq)%Z).
           { apply concat_length_bound. intros q.
             apply sub_result_set_length. unfold pq, per_query_of. lia. }
           assert (Hbud : (Z.of_nat (List.length qs) * pq <= top_k)%Z)
             by (apply budget; [discriminate | exact Hn]).
           lia.
      * now destruct (Hget _ _ G).
Qed.

(** The aggregation returns whenever every statement of the session does. *)
Lemma search_loop_returns (env : Env) (qs : list string) (per_query top_k : Z)
  (filters : option LawSearchFilters.t) (by_id : list (string * LawSearchResult.t))
  (log : list Event) :
  (forall stmt, exists rows, execute_select env stmt = Ok rows) ->
  exists log' out,
    search_loop env qs per_query top_k filters by_id log = (log', Ok out).
Proof.
  intros Hok. revert by_id log. induction qs as [|q qs IH]; intros by_id log; simpl.
  - eexists _, _. reflexivity.
  - unfold bind, call.
    destruct (Hok (sub_query_select q per_query top_k filters)) as [rows ->].
    apply IH.
Qed.

Lemma db_search_returns (env : Env) (query : string) (top_k : Z)
  (filters : option LawSearchFilters.t) :
  (forall stmt, exists rows, execute_select env stmt = Ok rows) ->
  exists log out, run (_db_search_laws env query top_k filters) = (log, Ok out).
Proof.
  intros Hok. unfold run, _db_search_laws.
  destruct (_split_query_list query) as [|q qs].
  - eexists _, _. reflexivity.
  - unfold bind.
    destruct (search_loop_returns env (q :: qs) (per_query_of top_k (q :: qs))
                top_k filters [] [] Hok) as (log' & by_id & ->).
    eexists _, _. reflexivity.
Qed.

Lemma db_search_merge_witness :
  exists log out,
    run (_db_search_laws (table_env demo_table) "alpha,beta" 10 None) = (log, Ok out)
    /\ map LawSearchResult.law_id out = ["L1"; "L2"]
    /\ NoDup (map LawSearchResult.law_id out)
    /\ (Z.of_nat (List.length out) <= 10)%Z.
Proof.
  eexists _, _. split; [vm_compute; reflexivity|]. split; [reflexivity|].
  destruct (db_search_merge (table_env demo_table) "alpha,beta" 10 None _ _ eq_refl)
    as (Hnodup & _ & Hlen & _).
  split; [exact Hnodup | apply Hlen; lia].
Defined.

(** C3, as stated, fails twice.  The remote aggregation [search_law] does
    not merge by id: a record found by two sub-queries is returned twice,
    once under each sub-query.  The persistent-store aggregation cuts the
    merged list at [top_k]: with three sub-queries and [top_k = 1] the id
    L2, which is in two result sets, is not in the output. *)
Lemma aggregation_counterexample :
  map (fun item => RawLaw.law_id (CollectorItem.law item))
    (Collector.search_law (fun _ _ => Ok [plain_raw "L1" "alpha"]) "a,b" 20)
  = ["L1"; "L1"]
  /\ map (map LawSearchResult.law_id)
       (sub_result_sets (table_env demo_table) "alpha,beta zz,beta yy" 1 None)
     = [["L1"]; ["L2"]; ["L2"]]
  /\ exists log out,
       run (_db_search_laws (table_env demo_table) "alpha,beta zz,beta yy" 1 None)
       = (log, Ok out)
       /\ map LawSearchResult.law_id out = ["L1"]
       /\ ~ In "L2" (map LawSearchResult.law_id out).
Proof.
  split; [reflexivity|]. split; [vm_compute; reflexivity|].
  eexists _, _. split; [vm_compute; reflexivity|]. split; [reflexivity|].
  simpl. intros [H | []]. discriminate H.
Qed.

End AggregatorFacts.

(* ================================================================== *)
(** * Strings: case, whitespace and containment *)
(* ================================================================== *)

Module StringFacts.
Import Py PyMore PyFacts.

Lemma isspace_lower_char (c : ascii) : isspace (lower_char c) = isspace c.
Proof. destruct c as [[] [] [] [] [] [] [] []]; reflexivity. Qed.

Lemma lower_char_idem (c : ascii) : lower_char (lower_char c) = lower_char c.
Proof. destruct c as [[] [] [] [] [] [] [] []]; reflexivity. Qed.

Lemma lower_idem (s : string) : lower (lower s) = lower s.
Proof.
  induction s as [|c s IH]; simpl; [reflexivity|].
  now rewrite lower_char_idem, IH.
Qed.

Lemma lstrip_lower (s : string) : lstrip (lower s) = lower (lstrip s).
Proof.
  induction s as [|c s IH]; [reflexivity|].
  cbn [lower lstrip]. rewrite isspace_lower_char.
  destruct (isspace c); [exact IH | reflexivity].
Qed.

Lemma rstrip_lower (s : string) : rstrip (lower s) = lower (rstrip s).
Proof.
  induction s as [|c s IH]; [reflexivity|].
  cbn [lower rstrip]. rewrite IH, isspace_lower_char.
  destruct (rstrip s); cbn [lower]; [destruct (isspace c) |]; reflexivity.
Qed.

Lemma strip_lower (s : string) : strip (lower s) = lower (strip s).
Proof. unfold strip. now rewrite lstrip_lower, rstrip_lower. Qed.

Lemma rstrip_cons_keep (c : ascii) (s : string) :
  isspace c = false -> rstrip (String c s) = String c (rstrip s).
Proof. intros H. cbn [rstrip]. rewrite H. destruct (rstrip s); reflexivity. Qed.

Lemma rstrip_idem (s : string) : rstrip (rstrip s) = rstrip s.
Proof.
  induction s as [|c s IH]; [reflexivity|].
  cbn [rstrip]. destruct (rstrip s) as [|d r] eqn:E.
  - destruct (isspace c) eqn:Hc; [reflexivity|].
    cbn [rstrip]. now rewrite Hc.
  - remember (String d r) as u eqn:Hu.
    cbn [rstrip]. rewrite IH. subst u. reflexivity.
Qed.

Lemma lstrip_starts_clean (s : string) : starts_clean (lstrip s) = true.
Proof.
  induction s as [|c s IH]; [reflexivity|].
  cbn [lstrip]. destruct (isspace c) eqn:E; [exact IH | simpl; now rewrite E].
Qed.

Lemma lstrip_clean (s : string) : starts_clean s = true -> lstrip s = s.
Proof.
  destruct s as [|c s]; [reflexivity|]. simpl. intros H.
  apply negb_true_iff in H. now rewrite H.
Qed.

Lemma rstrip_starts_clean (s : string) :
  starts_clean s = true -> starts_clean (rstrip s) = true.
Proof.
  destruct s as [|c s]; [reflexivity|]. intros H.
  assert (Hc : isspace c = false) by (now apply negb_true_iff).
  rewrite (rstrip_cons_keep c s Hc). exact H.
Qed.

Lemma strip_idem (s : string) : strip (strip s) = strip s.
Proof.
  unfold strip.
  rewrite (lstrip_clean (rstrip (lstrip s))).
  - apply rstrip_idem.
  - apply rstrip_starts_clean, lstrip_starts_clean.
Qed.

Lemma strip_not_blank (s : string) :
  is_empty (strip s) = false -> blank (strip s) = false.
Proof.
  unfold strip. pose proof (lstrip_starts_clean s) as H.
  destruct (lstrip s) as [|c r]; [discriminate|].
  simpl in H. apply negb_true_iff in H. rewrite (rstrip_cons_keep c r H).
  intros _. simpl. now rewrite H.
Qed.

Lemma lower_not_blank (s : string) : blank (lower s) = blank s.
Proof.
  induction s as [|c s IH]; [reflexivity|].
  cbn [lower blank]. now rewrite isspace_lower_char, IH.
Qed.

Lemma lower_is_empty (s : string) : is_empty (lower s) = is_empty s.
Proof. destruct s; reflexivity. Qed.

(** ** Containment *)

Lemma startswith_app (p b : string) : startswith p (String.append p b) = true.
Proof.
  induction p as [|c p IH]; [reflexivity|].
  simpl. now rewrite Ascii.eqb_refl, IH.
Qed.

Lemma startswith_elim (p s : string) :
  startswith p s = true -> exists b, s = String.append p b.
Proof.
  revert s. induction p as [|c p IH]; intros s H.
  - now exists s.
  - destruct s as [|d s]; [discriminate|]. simpl in H.
    apply andb_prop in H as [H1 H2]. apply Ascii.eqb_eq in H1. subst d.
    destruct (IH s H2) as [b ->]. now exists b.
Qed.

Lemma contains_intro (a p b : string) :
  contains p (String.append a (String.append p b)) = true.
Proof. apply contains_app_r, contains_here, startswith_app. Qed.

Lemma contains_elim (p s : string) :
  contains p s = true ->
  exists a b, s = String.append a (String.append p b).
Proof.
  rewrite contains_found. induction s as [|c s IH]; rewrite find_from_eq.
  - destruct (startswith p EmptyString) eqn:E; [|discriminate].
    intros _. destruct (startswith_elim _ _ E) as [b Hb]. now exists EmptyString, b.
  - destruct (startswith p (String c s)) eqn:E.
    + intros _. destruct (startswith_elim _ _ E) as [b Hb]. now exists EmptyString, b.
    + rewrite (find_from_found p s 1 0). intros H.
      destruct (IH H) as (a & b & ->). now exists (String c a), b.
Qed.

Lemma append_assoc (a b c : string) :
  String.append (String.append a b) c = String.append a (String.append b c).
Proof. induction a as [|x a IH]; simpl; [reflexivity | now rewrite IH]. Qed.

Lemma append_nil_r (a : string) : String.append a EmptyString = a.
Proof. induction a as [|x a IH]; simpl; [reflexivity | now rewrite IH]. Qed.

Lemma contains_trans (a b c : string) :
  contains a b = true -> contains b c = true -> contains a c = true.
Proof.
  intros H1 H2.
  destruct (contains_elim _ _ H1) as (x & y & ->).
  destruct (contains_elim _ _ H2) as (u & v & ->).
  rewrite !append_assoc, <- (append_assoc u x). apply contains_intro.
Qed.

(** ** Tokens *)

Lemma split_ws_go_sub (s cur t : string) :
  In t (split_ws_go s cur) -> contains t (String.append cur s) = true.
Proof.
  revert cur. induction s as [|c s IH]; intros cur; cbn [split_ws_go].
  - destruct (is_empty cur); [intros [] | intros [<- | []]].
    rewrite append_nil_r.
    rewrite <- (append_nil_r cur) at 2. apply (contains_intro EmptyString cur EmptyString).
  - destruct (isspace c).
    + destruct (is_empty cur) eqn:E.
      * intros H. apply IH in H. simpl in H.
        apply contains_app_r. now apply contains_cons.
      * intros [<- | H].
        -- apply (contains_intro EmptyString cur (String c s)).
        -- apply IH in H. simpl in H. apply contains_app_r. now apply contains_cons.
    + intros H. apply IH in H. unfold snoc in H.
      now rewrite append_assoc in H.
Qed.

Lemma split_ws_sub (s t : string) : In t (split_ws s) -> contains t s = true.
Proof. intros H. now apply split_ws_go_sub in H. Qed.

Lemma split_ws_go_nil (s cur : string) :
  split_ws_go s cur = [] -> cur = EmptyString /\ blank s = true.
Proof.
  revert cur. induction s as [|c s IH]; intros cur; cbn [split_ws_go blank].
  - destruct cur; [auto | discriminate].
  - destruct (isspace c).
    + destruct cur; simpl; [intros H; now apply IH in H | discriminate].
    + intros H. apply IH in H as [H _]. destruct cur; discriminate H.
Qed.

Lemma split_ws_nil (s : string) : split_ws s = [] -> blank s = true.
Proof. intros H. now apply split_ws_go_nil in H. Qed.

End StringFacts.

(* ================================================================== *)
(** * The lexical score, beyond its range *)
(* ================================================================== *)

Module ScoreFacts.
Import Py PyMore PyFacts StringFacts Scoring.
Local Open Scope Q_scope.

Lemma filter_all {A : Type} (f : A -> bool) (l : list A) :
  (forall x, In x l -> f x = true) -> filter f l = l.
Proof.
  induction l as [|a l IH]; intros H; [reflexivity|].
  simpl. rewrite (H a (or_introl eq_refl)). f_equal. apply IH.
  intros x Hx. apply H. now right.
Qed.

Lemma filter_length_le {A : Type} (f : A -> bool) (l : list A) :
  (List.length (filter f l) <= List.length l)%nat.
Proof.
  induction l as [|a l IH]; simpl; [lia|]. destruct (f a); simpl; lia.
Qed.

Lemma filter_nonempty_existsb {A : Type} (f : A -> bool) (l : list A) :
  (0 < List.length (filter f l))%nat <-> existsb f l = true.
Proof.
  induction l as [|a l IH]; simpl; [split; [lia | discriminate]|].
  destruct (f a); simpl; [split; [reflexivity | lia] | exact IH].
Qed.

Lemma nat_Q_pos (n : nat) : (0 < n)%nat -> 0 < inject_Z (Z.of_nat n).
Proof. intros H. change 0 with (inject_Z 0). rewrite <- Zlt_Qlt. lia. Qed.

Lemma hits_ratio_range (h n : nat) :
  (h <= n)%nat -> (0 < n)%nat ->
  0 <= inject_Z (Z.of_nat h) / inject_Z (Z.of_nat n)
  /\ inject_Z (Z.of_nat h) / inject_Z (Z.of_nat n) <= 1
  /\ (0 < inject_Z (Z.of_nat h) / inject_Z (Z.of_nat n) <-> (0 < h)%nat).
Proof.
  intros Hle Hn. pose proof (nat_Q_pos n Hn) as Hn'.
  assert (Hh : 0 <= inject_Z (Z.of_nat h)).
  { change 0 with (inject_Z 0). rewrite <- Zle_Qle. lia. }
  repeat split.
  - apply Qle_shift_div_l; [exact Hn'|]. now rewrite Qmult_0_l.
  - apply Qle_shift_div_r; [exact Hn'|]. rewrite Qmult_1_l, <- Zle_Qle. lia.
  - intros H. destruct h; [|lia]. exfalso. simpl in H.
    unfold Qdiv in H. rewrite Qmult_0_l in H. discriminate H.
  - intros H. apply Qlt_shift_div_l; [exact Hn'|].
    rewrite Qmult_0_l. now apply nat_Q_pos.
Qed.

Lemma same_ratio (n : nat) :
  (0 < n)%nat -> inject_Z (Z.of_nat n) / inject_Z (Z.of_nat n) == 1.
Proof.
  intros H. apply Qmult_inv_r. intros E.
  pose proof (nat_Q_pos n H) as Hn. rewrite E in Hn. discriminate.
Qed.

(** The query, stripped and lowered, has a token when it is not empty. *)
Lemma query_tokens (query : string) :
  is_empty (lower (strip query)) = false ->
  split_ws (lower (strip query)) <> [].
Proof.
  intros H E. apply split_ws_nil in E.
  rewrite lower_not_blank, strip_not_blank in E; [discriminate|].
  now rewrite lower_is_empty in H.
Qed.

(** The score in terms of the phrase test and of the token hits. *)
Lemma lexical_score_unfold (text query : string) :
  is_empty (lower (strip query)) = false ->
  _lexical_score text query
  = max2 0 (min2 1
      ((if contains (lower (strip query)) (lower text) then 0 + 0.8 else 0)
       + 0.2 * (inject_Z (Z.of_nat (List.length (token_hits text query)))
                / inject_Z (Z.of_nat (List.length (split_ws (lower (strip query)))))))).
Proof.
  intros H. pose proof (query_tokens query H) as Ht.
  unfold _lexical_score, token_hits. rewrite H.
  destruct (split_ws (lower (strip query))) as [|tok toks]; [now elim Ht|].
  reflexivity.
Qed.

Lemma phrase_tokens_hit (text query : string) :
  contains (lower (strip query)) (lower text) = true ->
  token_hits text query = split_ws (lower (strip query)).
Proof.
  intros H. unfold token_hits. apply filter_all. intros tok Htok.
  apply (contains_trans tok (lower (strip query)) (lower text));
    [now apply split_ws_sub | exact H].
Qed.

Lemma token_hits_bounds (text query : string) :
  is_empty (lower (strip query)) = false ->
  (List.length (token_hits text query)
   <= List.length (split_ws (lower (strip query))))%nat
  /\ (0 < List.length (split_ws (lower (strip query))))%nat.
Proof.
  intros H. split; [apply filter_length_le|].
  pose proof (query_tokens query H).
  destruct (split_ws (lower (strip query))); [congruence | simpl; lia].
Qed.

(** X1. For a query that is not blank, the lexical score of [src/main.py] is
    exactly 1 when the query (stripped, lower case) occurs as a phrase in
    the lower-cased text, and at most 0.2 when it does not: whatever the
    tokens do, a phrase match outranks every match by tokens only. *)
Theorem lexical_score_phrase_or_tokens (text query : string) :
  is_empty (strip query) = false ->
  (contains (lower (strip query)) (lower text) = true ->
   _lexical_score text query = 1)
  /\ (contains (lower (strip query)) (lower text) = false ->
      _lexical_score text query <= 0.2).
Proof.
  intros Hq. rewrite <- lower_is_empty in Hq.
  rewrite (lexical_score_unfold text query Hq).
  destruct (token_hits_bounds text query Hq) as [Hle Hpos].
  split; intros Hc; rewrite Hc.
  - rewrite (phrase_tokens_hit text query Hc).
    set (n := List.length (split_ws (lower (strip query)))) in *.
    assert (E : 0 + 0.8 + 0.2 * (inject_Z (Z.of_nat n) / inject_Z (Z.of_nat n)) == 1).
    { rewrite (same_ratio n Hpos). reflexivity. }
    unfold min2.
    destruct (Qlt_le_dec _ 1) as [Hlt | _].
    + rewrite E in Hlt. discriminate Hlt.
    + reflexivity.
  - destruct (hits_ratio_range _ _ Hle Hpos) as (H0 & H1 & _).
    set (r := inject_Z (Z.of_nat (List.length (token_hits text query)))
              / inject_Z (Z.of_nat (List.length (split_ws (lower (strip query)))))) in *.
    assert (Hx : 0 + 0.2 * r <= 0.2).
    { rewrite Qplus_0_l. rewrite <- (Qmult_1_r 0.2) at 2.
      apply Qmult_le_l; [reflexivity | exact H1]. }
    unfold max2, min2.
    destruct (Qlt_le_dec (0 + 0.2 * r) 1) as [_ | Hge].
    + destruct (Qlt_le_dec 0 (0 + 0.2 * r)); [exact Hx | discriminate].
    + exfalso. apply (Qle_not_lt _ _ (Qle_trans _ _ _ Hge Hx)). reflexivity.
Qed.

Lemma lexical_score_phrase_or_tokens_witness :
  _lexical_score "Road Traffic Act" " traffic ACT " = 1
  /\ _lexical_score "Road Traffic Act" "act on traffic" <= 0.2.
Proof.
  destruct (lexical_score_phrase_or_tokens "Road Traffic Act" " traffic ACT " eq_refl)
    as [H1 _].
  destruct (lexical_score_phrase_or_tokens "Road Traffic Act" "act on traffic" eq_refl)
    as [_ H2].
  split; [apply H1 | apply H2]; reflexivity.
Defined.

Lemma score_positive_nonblank (text query : string) :
  is_empty (lower (strip query)) = false ->
  (0 < _lexical_score text query
   <-> existsb (fun tok => contains tok (lower text))
         (split_ws (lower (strip query))) = true).
Proof.
  intros Hq. rewrite (lexical_score_unfold text query Hq).
  destruct (token_hits_bounds text query Hq) as [Hle Hpos].
  destruct (hits_ratio_range _ _ Hle Hpos) as (H0 & H1 & Hiff).
  rewrite <- (filter_nonempty_existsb
                (fun tok => contains tok (lower text))
                (split_ws (lower (strip query)))).
  fold (token_hits text query). rewrite <- Hiff.
  set (r := inject_Z (Z.of_nat (List.length (token_hits text query)))
            / inject_Z (Z.of_nat (List.length (split_ws (lower (strip query)))))) in *.
  assert (Hr : 0 <= 0.2 * r).
  { apply Qmult_le_0_compat; [discriminate | exact H0]. }
  assert (Hr' : 0 < r <-> 0 < 0.2 * r).
  { split; intros H.
    - rewrite <- (Qmult_0_r 0.2). apply Qmult_lt_l; [reflexivity | exact H].
    - rewrite <- (Qmult_0_r 0.2) in H. apply Qmult_lt_l in H; [exact H | reflexivity]. }
  set (x := (if contains (lower (strip query)) (lower text) then 0 + 0.8 else 0)
            + 0.2 * r).
  assert (Hx : 0 <= x /\ (0 < x <-> 0 < r)).
  { unfold x. destruct (contains (lower (strip query)) (lower text)) eqn:Hc.
    - assert (Hall : r == 1).
      { unfold r. rewrite (phrase_tokens_hit text query Hc). apply same_ratio, Hpos. }
      split; [|split; intros _].
      + rewrite Hall. discriminate.
      + rewrite Hall. reflexivity.
      + rewrite Hall. reflexivity.
    - rewrite Qplus_0_l. split; [exact Hr | symmetry; exact Hr']. }
  destruct Hx as [Hx0 Hx]. rewrite <- Hx.
  unfold max2, min2.
  destruct (Qlt_le_dec x 1) as [_ | Hge].
  + destruct (Qlt_le_dec 0 x) as [Hp | Hn].
    * split; intros _; exact Hp.
    * split; intros H; [discriminate H|].
      exfalso. apply (Qle_not_lt _ _ Hn H).
  + destruct (Qlt_le_dec 0 1) as [_ | Hbad]; [|exfalso; apply Hbad; reflexivity].
    split; intros _; [|reflexivity].
    apply (Qlt_le_trans 0 1 x); [reflexivity | exact Hge].
Qed.

(** X2. The lexical score is positive exactly when some token of the query
    (stripped, lower case, split at whitespace) occurs in the lower-cased
    text; so [_db_search_laws], which drops the rows of score 0, keeps a row
    exactly when one word of the sub-query occurs in its searchable text. *)
Theorem lexical_score_positive (text query : string) :
  0 < _lexical_score text query
  <-> existsb (fun tok => contains tok (lower text))
        (split_ws (lower (strip query))) = true.
Proof.
  destruct (is_empty (lower (strip query))) eqn:Hq.
  - unfold _lexical_score. rewrite Hq.
    destruct (lower (strip query)); [|discriminate Hq].
    simpl. split; discriminate.
  - exact (score_positive_nonblank text query Hq).
Qed.

(** X3. The lexical score does not depend on the letter case of the text or
    of the query: two texts with the same lower-case form, and two queries
    with the same lower-case form, score the same. *)
Theorem lexical_score_case_insensitive (text text' query query' : string) :
  lower text = lower text' -> lower query = lower query' ->
  _lexical_score text query = _lexical_score text' query'.
Proof.
  intros Ht Hq. unfold _lexical_score.
  rewrite <- !strip_lower, Ht, Hq. reflexivity.
Qed.

Lemma lexical_score_case_insensitive_witness :
  _lexical_score "ROAD Traffic Act" "Traffic" = _lexical_score "road traffic act" "tRAFFIC".
Proof.
  apply (lexical_score_case_insensitive "ROAD Traffic Act" "road traffic act"
           "Traffic" "tRAFFIC"); reflexivity.
Defined.

End ScoreFacts.

(* ================================================================== *)
(** * The comma-separated query *)
(* ================================================================== *)

Module QueryListFacts.
Import Py PyMore PyFacts StringFacts Scoring ScoringMore.

Lemma has_char_app (c : ascii) (a b : string) :
  has_char c (String.append a b) = has_char c a || has_char c b.
Proof.
  induction a as [|d a IH]; simpl; [reflexivity|].
  now rewrite IH, orb_assoc.
Qed.

Lemma blank_has_no (c : ascii) (s : string) :
  isspace c = false -> blank s = true -> has_char c s = false.
Proof.
  intros Hc. induction s as [|d s IH]; simpl; [reflexivity|].
  intros H. apply andb_prop in H as [Hd Hs]. rewrite (IH Hs), orb_false_r.
  destruct (Ascii.eqb_spec d c) as [->|]; [congruence | reflexivity].
Qed.

Lemma has_char_lstrip (c : ascii) (s : string) :
  has_char c s = false -> has_char c (lstrip s) = false.
Proof.
  induction s as [|d s IH]; [reflexivity|].
  cbn [lstrip]. destruct (isspace d); [|tauto].
  simpl. intros H. apply orb_false_elim in H as [_ H]. now apply IH.
Qed.

Lemma has_char_rstrip (c : ascii) (s : string) :
  has_char c s = false -> has_char c (rstrip s) = false.
Proof.
  induction s as [|d s IH]; [reflexivity|].
  simpl has_char. intros H. apply orb_false_elim in H as [Hd Hs].
  specialize (IH Hs). cbn [rstrip].
  destruct (rstrip s) as [|e r].
  - destruct (isspace d); simpl; [reflexivity | now rewrite Hd].
  - cbn [has_char]. cbn [has_char] in IH. now rewrite Hd, IH.
Qed.

Lemma has_char_strip (c : ascii) (s : string) :
  has_char c s = false -> has_char c (strip s) = false.
Proof. intros H. now apply has_char_rstrip, has_char_lstrip. Qed.

(** The parts of a split hold no separator and lie in the split string. *)
Lemma split_char_go_parts (sep : ascii) (s cur p : string) :
  has_char sep cur = false ->
  In p (split_char_go sep s cur) ->
  has_char sep p = false /\ contains p (String.append cur s) = true.
Proof.
  revert cur. induction s as [|c s IH]; intros cur Hcur; cbn [split_char_go].
  - intros [<- | []]. split; [exact Hcur|].
    apply (contains_intro EmptyString cur EmptyString).
  - destruct (Ascii.eqb_spec c sep) as [-> | Hne].
    + intros [<- | H].
      * split; [exact Hcur|]. apply (contains_intro EmptyString cur (String sep s)).
      * destruct (IH EmptyString eq_refl H) as [H1 H2]. split; [exact H1|].
        simpl in H2. apply contains_app_r. now apply contains_cons.
    + intros H.
      assert (Hs : has_char sep (snoc cur c) = false).
      { unfold snoc. rewrite has_char_app, Hcur. simpl.
        destruct (Ascii.eqb_spec c sep); [contradiction | reflexivity]. }
      destruct (IH _ Hs H) as [H1 H2]. split; [exact H1|].
      unfold snoc in H2. now rewrite append_assoc in H2.
Qed.

Lemma lstrip_suffix (s : string) : exists a, s = String.append a (lstrip s).
Proof.
  induction s as [|c s [a IH]]; [now exists EmptyString|].
  cbn [lstrip]. destruct (isspace c).
  - exists (String c a). simpl. now rewrite <- IH.
  - now exists EmptyString.
Qed.

Lemma rstrip_prefix (s : string) : exists b, s = String.append (rstrip s) b.
Proof.
  induction s as [|c s [b IH]]; [now exists EmptyString|].
  cbn [rstrip]. destruct (rstrip s) as [|d r].
  - destruct (isspace c).
    + now exists (String c s).
    + exists b. simpl. simpl in IH. now rewrite <- IH.
  - exists b. simpl. simpl in IH. now rewrite <- IH.
Qed.

Lemma contains_strip (s : string) : contains (strip s) s = true.
Proof.
  unfold strip. destruct (lstrip_suffix s) as [a Ha].
  destruct (rstrip_prefix (lstrip s)) as [b Hb].
  rewrite Ha at 2. rewrite Hb at 2. apply contains_intro.
Qed.

Lemma strip_fixed (t : string) :
  strip t = t -> lstrip t = t /\ rstrip t = t.
Proof.
  intros H.
  assert (Hc : starts_clean t = true).
  { rewrite <- H. apply rstrip_starts_clean, lstrip_starts_clean. }
  pose proof (lstrip_clean t Hc) as Hl. split; [exact Hl|].
  unfold strip in H. now rewrite Hl in H.
Qed.

Lemma lstrip_pad (a s : string) :
  blank a = true -> lstrip (String.append a s) = lstrip s.
Proof.
  induction a as [|c a IH]; [reflexivity|].
  simpl. intros H. apply andb_prop in H as [Hc Ha]. rewrite Hc. now apply IH.
Qed.

Lemma rstrip_blank (b : string) : blank b = true -> rstrip b = EmptyString.
Proof.
  induction b as [|c b IH]; [reflexivity|].
  simpl. intros H. apply andb_prop in H as [Hc Hb]. now rewrite (IH Hb), Hc.
Qed.

Lemma rstrip_pad (s b : string) :
  blank b = true -> rstrip (String.append s b) = rstrip s.
Proof.
  intros Hb. induction s as [|c s IH]; simpl.
  - now apply rstrip_blank.
  - now rewrite IH.
Qed.

Lemma strip_pad (a t b : string) :
  blank a = true -> blank b = true -> is_empty t = false -> strip t = t ->
  strip (String.append a (String.append t b)) = t.
Proof.
  intros Ha Hb Hne Ht. destruct (strip_fixed t Ht) as [Hl Hr].
  unfold strip. rewrite (lstrip_pad a _ Ha).
  assert (Hc : starts_clean t = true).
  { rewrite <- Ht. apply rstrip_starts_clean, lstrip_starts_clean. }
  rewrite lstrip_clean.
  - now rewrite (rstrip_pad t b Hb).
  - destruct t as [|c t]; [discriminate Hne | exact Hc].
Qed.

Lemma split_char_go_run (sep : ascii) (a s cur : string) :
  has_char sep a = false ->
  split_char_go sep (String.append a s) cur
  = split_char_go sep s (String.append cur a).
Proof.
  revert cur. induction a as [|c a IH]; intros cur H; simpl.
  - now rewrite append_nil_r.
  - simpl in H. apply orb_false_elim in H as [Hc Ha].
    rewrite Hc, (IH _ Ha). unfold snoc. now rewrite append_assoc.
Qed.

Lemma split_join_go (l r cur : string) (t : string) (ts : list string) :
  blank l = true -> blank r = true -> blank cur = true ->
  Forall term_ok (t :: ts) ->
  map strip
    (filter (fun part => negb (is_empty (strip part)))
       (split_char_go ","
          (join (String.append l (String "," r)) (t :: ts)) cur))
  = t :: ts.
Proof.
  intros Hl Hr. revert cur t. induction ts as [|t' ts IH]; intros cur t Hcur Hok.
  - inversion Hok as [|? ? (Hne & Hst & Hco) _]; subst.
    unfold join. simpl String.concat.
    rewrite <- (append_nil_r t) at 1.
    rewrite (split_char_go_run "," t EmptyString cur Hco).
    cbn [split_char_go filter map].
    pose proof (strip_pad cur t EmptyString Hcur eq_refl Hne Hst) as E.
    rewrite append_nil_r in E. rewrite E, Hne. simpl. now rewrite E.
  - inversion Hok as [|? ? (Hne & Hst & Hco) Hrest]; subst.
    unfold join. cbn [String.concat]. fold (join (String.append l (String "," r)) (t' :: ts)).
    rewrite (split_char_go_run "," t _ cur Hco).
    rewrite append_assoc.
    rewrite (split_char_go_run "," l _ (String.append cur t)
               (blank_has_no "," l eq_refl Hl)).
    cbn [String.append split_char_go]. rewrite Ascii.eqb_refl.
    rewrite (split_char_go_run "," r _ EmptyString (blank_has_no "," r eq_refl Hr)).
    cbn [String.append filter map].
    rewrite append_assoc, (strip_pad cur t l Hcur Hl Hne Hst), Hne. cbn [negb map].
    rewrite (strip_pad cur t l Hcur Hl Hne Hst). f_equal.
    apply (IH r t' Hr Hrest).
Qed.

Lemma split_query_list_term (query t : string) :
  In t (_split_query_list query) -> term_ok t /\ contains t query = true.
Proof.
  unfold _split_query_list, split_char. intros H.
  apply in_map_iff in H as (p & <- & Hp).
  apply filter_In in Hp as [Hp Hne].
  destruct (split_char_go_parts "," query EmptyString p eq_refl Hp) as [Hco Hin].
  simpl in Hin. repeat split.
  - now apply negb_true_iff in Hne.
  - apply strip_idem.
  - now apply has_char_strip.
  - apply (contains_trans _ p _); [apply contains_strip | exact Hin].
Qed.

(** X4. Every term that [_split_query_list] returns is well formed: it is
    not empty, it has no whitespace at either end, it holds no comma, and
    it occurs in the query. *)
Theorem split_query_list_terms (query : string) :
  Forall (fun t => is_empty t = false /\ strip t = t /\ has_char "," t = false
                   /\ contains t query = true)
    (_split_query_list query).
Proof.
  apply Forall_forall. intros t Ht.
  destruct (split_query_list_term query t Ht) as ((H1 & H2 & H3) & H4). auto.
Qed.

(** X5. Splitting undoes joining: for terms that are not empty, trimmed
    and comma-free, joined by a comma with any whitespace around it,
    [_split_query_list] returns the terms, in order. *)
Theorem split_query_list_join (l r : string) (terms : list string) :
  blank l = true -> blank r = true ->
  Forall (fun t => is_empty t = false /\ strip t = t /\ has_char "," t = false)
    terms ->
  _split_query_list (join (String.append l (String "," r)) terms) = terms.
Proof.
  intros Hl Hr Hok. destruct terms as [|t ts]; [reflexivity|].
  apply (split_join_go l r EmptyString t ts Hl Hr eq_refl Hok).
Qed.

Lemma split_query_list_join_witness :
  _split_query_list (join " , " ["road traffic"; "tax"; "civil act"])
  = ["road traffic"; "tax"; "civil act"].
Proof.
  apply (split_query_list_join " " " " ["road traffic"; "tax"; "civil act"]);
    [reflexivity | reflexivity |].
  repeat constructor.
Defined.

End QueryListFacts.

(* ================================================================== *)
(** * The ranking of the persistent-store search *)
(* ================================================================== *)

Module RankingFacts.
Import Py PyMore PyFacts StringFacts Scoring Db Main.
Local Open Scope list_scope.
Local Open Scope Q_scope.

(** ** The order on strings *)

Lemma ascii_compare_lt_trans (a b c : ascii) :
  Ascii.compare a b = Lt -> Ascii.compare b c = Lt -> Ascii.compare a c = Lt.
Proof.
  unfold Ascii.compare. rewrite !N.compare_lt_iff. apply N.lt_trans.
Qed.

Lemma string_compare_eq (a b : string) : String.compare a b = Datatypes.Eq <-> a = b.
Proof.
  split; [apply String.compare_eq_iff|]. intros <-.
  induction a as [|c a IH]; simpl; [reflexivity|].
  unfold Ascii.compare. now rewrite N.compare_refl.
Qed.

Lemma string_compare_lt_trans (a b c : string) :
  String.compare a b = Lt -> String.compare b c = Lt -> String.compare a c = Lt.
Proof.
  revert b c. induction a as [|x a IH]; intros [|y b] [|z c]; simpl;
    try congruence.
  destruct (Ascii.compare x y) eqn:Exy; try discriminate;
    destruct (Ascii.compare y z) eqn:Eyz; try discriminate; intros H1 H2.
  - apply Ascii.compare_eq_iff in Exy, Eyz. subst.
    unfold Ascii.compare. rewrite N.compare_refl. now apply (IH b c).
  - apply Ascii.compare_eq_iff in Exy. subst. now rewrite Eyz.
  - apply Ascii.compare_eq_iff in Eyz. subst. now rewrite Exy.
  - now rewrite (ascii_compare_lt_trans x y z Exy Eyz).
Qed.

Lemma string_leb_trans (a b c : string) :
  String.leb a b = true -> String.leb b c = true -> String.leb a c = true.
Proof.
  unfold String.leb.
  destruct (String.compare a b) eqn:Eab; try discriminate;
    destruct (String.compare b c) eqn:Ebc; try discriminate; intros _ _.
  - apply string_compare_eq in Eab, Ebc. subst.
    now rewrite (proj2 (string_compare_eq c c) eq_refl).
  - apply string_compare_eq in Eab. subst. now rewrite Ebc.
  - apply string_compare_eq in Ebc. subst. now rewrite Eab.
  - now rewrite (string_compare_lt_trans a b c Eab Ebc).
Qed.

(** ** The sort key [(-(r.score or 0.0), r.law_name_kr)] *)

Lemma rank_leb_spec (a b : LawSearchResult.t) :
  rank_leb a b = true
  <-> score_or_0 b < score_or_0 a
      \/ (score_or_0 a == score_or_0 b
          /\ String.leb (LawSearchResult.law_name_kr a)
               (LawSearchResult.law_name_kr b) = true).
Proof.
  unfold rank_leb. rewrite orb_true_iff, andb_true_iff, Qltb_lt, Qeq_bool_iff.
  split; intros [H | [H1 H2]].
  - left. now apply Qopp_lt_compat in H; rewrite !Qopp_involutive in H.
  - right. split; [|exact H2].
    rewrite <- (Qopp_involutive (score_or_0 a)), <- (Qopp_involutive (score_or_0 b)).
    now rewrite H1.
  - left. now apply Qopp_lt_compat.
  - right. split; [now rewrite H1 | exact H2].
Qed.

Lemma rank_leb_total (a b : LawSearchResult.t) :
  rank_leb a b = true \/ rank_leb b a = true.
Proof.
  rewrite !rank_leb_spec.
  destruct (Q_dec (score_or_0 a) (score_or_0 b)) as [[H | H] | H].
  - right. now left.
  - left. now left.
  - destruct (String.leb_total (LawSearchResult.law_name_kr a)
                (LawSearchResult.law_name_kr b)) as [L | L].
    + left. right. now split.
    + right. right. split; [now symmetry | exact L].
Qed.

Lemma rank_leb_trans (a b c : LawSearchResult.t) :
  rank_leb a b = true -> rank_leb b c = true -> rank_leb a c = true.
Proof.
  rewrite !rank_leb_spec. intros [H1 | [H1 L1]] [H2 | [H2 L2]].
  - left. now apply (Qlt_trans _ (score_or_0 b)).
  - left. now rewrite <- H2.
  - left. now rewrite H1.
  - right. split; [now rewrite H1 | now apply (string_leb_trans _ _ _ L1 L2)].
Qed.

Lemma db_search_sorted (env : Env) (query : string) (top_k : Z)
  (filters : option LawSearchFilters.t) (log log' : list Event)
  (out : list LawSearchResult.t) :
  _db_search_laws env query top_k filters log = (log', Ok out) ->
  StronglySorted (fun a b => rank_leb a b = true) out.
Proof.
  unfold _db_search_laws. destruct (_split_query_list query) as [|q qs].
  - intros H. inversion H. constructor.
  - unfold bind.
    destruct (search_loop env (q :: qs) _ top_k filters [] log) as [l [by_id|e]];
      [|discriminate].
    unfold ret. intros H. inversion H. subst.
    apply slice_to_StronglySorted.
    apply (sort_by_sorted rank_leb rank_leb_total rank_leb_trans).
Qed.

(** X6. The list that [_db_search_laws] returns is ranked: of two results,
    the earlier one has the higher score, or the same score and a name that
    does not come after the other's in the order of strings. *)
Theorem db_search_ranked (env : Env) (query : string) (top_k : Z)
  (filters : option LawSearchFilters.t) (log : list Event)
  (out : list LawSearchResult.t) :
  run (_db_search_laws env query top_k filters) = (log, Ok out) ->
  StronglySorted
    (fun a b =>
       score_or_0 b < score_or_0 a
       \/ (score_or_0 a == score_or_0 b
           /\ String.leb (LawSearchResult.law_name_kr a)
                (LawSearchResult.law_name_kr b) = true))
    out.
Proof.
  intros H. apply db_search_sorted in H.
  induction H as [|a l Hs IH Hall]; constructor; [exact IH|].
  eapply Forall_impl; [|exact Hall]. intros b Hb. now apply rank_leb_spec.
Qed.

Lemma db_search_ranked_witness :
  exists log out,
    run (_db_search_laws (table_env demo_table) "alpha, beta" 10 None) = (log, Ok out)
    /\ StronglySorted
         (fun a b =>
            score_or_0 b < score_or_0 a
            \/ (score_or_0 a == score_or_0 b
                /\ String.leb (LawSearchResult.law_name_kr a)
                     (LawSearchResult.law_name_kr b) = true))
         out
    /\ map LawSearchResult.law_id out = ["L1"; "L2"].
Proof.
  destruct (run (_db_search_laws (table_env demo_table) "alpha, beta" 10 None))
    as [log [out|e]] eqn:E; [|vm_compute in E; discriminate E].
  exists log, out. split; [reflexivity|]. split.
  - apply (db_search_ranked (table_env demo_table) "alpha, beta" 10 None log out E).
  - vm_compute in E. inversion E. reflexivity.
Defined.

End RankingFacts.

(* ================================================================== *)
(** * The persistent-store search: statements and results *)
(* ================================================================== *)

Module DbSearchFacts.
Import Py PyMore PyFacts StringFacts ScoreFacts QueryListFacts.
Import Scoring Db Main MainMore AggregatorFacts.
Local Open Scope list_scope.
Local Open Scope Q_scope.

(** ** Queries without a term *)

Lemma lstrip_empty_blank (s : string) : lstrip s = EmptyString -> blank s = true.
Proof.
  induction s as [|c s IH]; [reflexivity|].
  cbn [lstrip blank]. destruct (isspace c); [exact IH | discriminate].
Qed.

Lemma strip_empty_blank (s : string) : is_empty (strip s) = true <-> blank s = true.
Proof.
  split; [|intros H; now rewrite (strip_blank s H)].
  unfold strip. intros H. apply lstrip_empty_blank.
  pose proof (lstrip_starts_clean s) as Hc.
  destruct (lstrip s) as [|c r]; [reflexivity|].
  simpl in Hc. apply negb_true_iff in Hc.
  rewrite (rstrip_cons_keep c r Hc) in H. discriminate H.
Qed.

Lemma blank_snoc (cur : string) (c : ascii) :
  blank (snoc cur c) = blank cur && isspace c.
Proof.
  unfold snoc. induction cur as [|d cur IH]; simpl.
  - now rewrite andb_true_r.
  - now rewrite IH, andb_assoc.
Qed.

Lemma split_parts_blank (s cur : string) :
  forallb blank (split_char_go "," s cur) = blank cur && only_separators s.
Proof.
  revert cur. induction s as [|c s IH]; intros cur; cbn [split_char_go only_separators].
  - simpl. now rewrite !andb_true_r.
  - destruct (Ascii.eqb_spec c ",") as [-> | Hne].
    + cbn [forallb]. rewrite IH. reflexivity.
    + rewrite IH, blank_snoc, orb_false_r. now rewrite andb_assoc.
Qed.

Lemma filter_nil_forallb {A : Type} (f : A -> bool) (l : list A) :
  filter (fun x => negb (f x)) l = [] <-> forallb f l = true.
Proof.
  induction l as [|a l IH]; simpl; [tauto|].
  destruct (f a); simpl; [exact IH | split; discriminate].
Qed.

Lemma split_query_list_nil (query : string) :
  _split_query_list query = [] <-> only_separators query = true.
Proof.
  unfold _split_query_list, split_char.
  assert (E0 : only_separators query
               = forallb blank (split_char_go "," query EmptyString)).
  { now rewrite split_parts_blank. }
  rewrite E0. split.
  - intros H. apply map_eq_nil in H.
    apply (filter_nil_forallb (fun p => is_empty (strip p))) in H.
    rewrite forallb_forall in *. intros p Hp. apply strip_empty_blank. now apply H.
  - intros H.
    assert (E : filter (fun part => negb (is_empty (strip part)))
                  (split_char_go "," query EmptyString) = []).
    { apply (filter_nil_forallb (fun p => is_empty (strip p))).
      rewrite forallb_forall in *. intros p Hp. apply strip_empty_blank. now apply H. }
    now rewrite E.
Qed.

(** ** The statements of one call *)

Lemma search_loop_trace (env : Env) (qs : list string) (per_query top_k : Z)
  (filters : option LawSearchFilters.t) (by_id : list (string * LawSearchResult.t))
  (log log' : list Event) (r : result (list (string * LawSearchResult.t))) :
  search_loop env qs per_query top_k filters by_id log = (log', r) ->
  match r with
  | Ok _ =>
      log' = log ++ map (fun q => Selected (sub_query_select q per_query top_k filters)) qs
      /\ forall q, In q qs ->
           exists rows, execute_select env (sub_query_select q per_query top_k filters)
                        = Ok rows
  | Raise e =>
      exists qs1 q qs2,
        qs = qs1 ++ q :: qs2
        /\ log' = log ++ map (fun q => Selected (sub_query_select q per_query top_k filters))
                          (qs1 ++ [q])
        /\ execute_select env (sub_query_select q per_query top_k filters) = Raise e
        /\ forall q', In q' qs1 ->
             exists rows, execute_select env (sub_query_select q' per_query top_k filters)
                          = Ok rows
  end.
Proof.
  revert by_id log. induction qs as [|q qs IH]; intros by_id log; cbn [search_loop].
  - unfold ret. intros [= <- <-]. rewrite app_nil_r. split; [reflexivity | contradiction].
  - unfold bind, call.
    destruct (execute_select env (sub_query_select q per_query top_k filters))
      as [rows|e] eqn:E.
    + intros H. apply IH in H. destruct r as [out|e].
      * destruct H as [-> Hall]. split.
        -- now rewrite <- app_assoc.
        -- intros q' [<- | Hq']; [now exists rows | now apply Hall].
      * destruct H as (qs1 & q1 & qs2 & -> & -> & Hq1 & Hall).
        exists (q :: qs1), q1, qs2. repeat split.
        -- now rewrite <- app_assoc.
        -- exact Hq1.
        -- intros q' [<- | Hq']; [now exists rows | now apply Hall].
    + intros [= <- <-]. exists [], q, qs. repeat split; [exact E | contradiction].
Qed.


(** ** Where the results come from *)

Lemma scored_In (rows : list Law.t) (q : string) (r : LawSearchResult.t) :
  In r (scored rows q) ->
  exists law, In law rows /\ r = _law_row_to_search_result law q
              /\ 0 < _lexical_score (searchable law) q.
Proof.
  unfold scored. rewrite sort_by_In, filter_In, in_map_iff.
  intros [(law & <- & Hlaw) Hpos]. exists law. repeat split; [exact Hlaw|].
  apply negb_true_iff in Hpos.
  change (score_or_0 (_law_row_to_search_result law q))
    with (_lexical_score (searchable law) q) in Hpos.
  apply Qnot_le_lt. intros Hle. apply Qle_bool_iff in Hle. congruence.
Qed.

Lemma db_search_observed (env : Env) (query : string) (top_k : Z)
  (filters : option LawSearchFilters.t) (log : list Event)
  (out : list LawSearchResult.t) (r : LawSearchResult.t) :
  run (_db_search_laws env query top_k filters) = (log, Ok out) ->
  In r out -> In r (List.concat (sub_result_sets env query top_k filters)).
Proof.
  unfold run, _db_search_laws, sub_result_sets.
  destruct (_split_query_list query) as [|q0 qs0].
  - unfold ret. intros [= _ <-] [].
  - set (qs := q0 :: qs0). set (pq := per_query_of top_k qs). unfold bind.
    destruct (search_loop env qs pq top_k filters [] []) as [log' [by_id|e]] eqn:L;
      [|discriminate].
    unfold ret. intros [= _ <-] Hin.
    pose proof (search_loop_merged env qs pq top_k filters [] by_id [] [] log'
                  merged_nil L) as M.
    rewrite app_nil_l in M. destruct M as (Hnd & Hget & _).
    apply slice_to_incl in Hin. apply sort_by_In in Hin.
    unfold dict_values in Hin. apply in_map_iff in Hin as [[k r0] [Hr Hin]].
    simpl in Hr. subst r0. apply (dict_In_get _ _ _ Hnd) in Hin.
    now destruct (Hget _ _ Hin).
Qed.

Lemma db_search_result_origin (env : Env) (query : string) (top_k : Z)
  (filters : option LawSearchFilters.t) (log : list Event)
  (out : list LawSearchResult.t) (r : LawSearchResult.t) :
  run (_db_search_laws env query top_k filters) = (log, Ok out) ->
  In r out ->
  exists q rows law,
    In q (_split_query_list query)
    /\ execute_select env (statement_of query top_k filters q) = Ok rows
    /\ In law rows
    /\ r = _law_row_to_search_result law q
    /\ 0 < _lexical_score (searchable law) q.
Proof.
  intros Hrun Hin. pose proof (db_search_observed _ _ _ _ _ _ _ Hrun Hin) as Hobs.
  unfold sub_result_sets in Hobs. apply in_concat in Hobs as (set & Hset & Hr).
  apply in_map_iff in Hset as (q & <- & Hq).
  unfold sub_result_set in Hr.
  fold (statement_of query top_k filters q) in Hr.
  destruct (execute_select env (statement_of query top_k filters q)) as [rows|e] eqn:E;
    [|contradiction].
  unfold sub_results in Hr. apply slice_to_incl in Hr.
  apply scored_In in Hr as (law & Hlaw & -> & Hpos).
  now exists q, rows, law.
Qed.

(** X7. Every result of [_db_search_laws] is a row that the statement of
    one of the sub-queries returned, scored against that sub-query: its
    score is positive and at most 1, it carries the snippet of its
    searchable text, and a token of the sub-query occurs in that text. *)
Theorem db_search_results_match (env : Env) (query : string) (top_k : Z)
  (filters : option LawSearchFilters.t) (log : list Event)
  (out : list LawSearchResult.t) :
  run (_db_search_laws env query top_k filters) = (log, Ok out) ->
  forall r, In r out ->
    exists q rows law,
      In q (_split_query_list query)
      /\ execute_select env (statement_of query top_k filters q) = Ok rows
      /\ In law rows
      /\ LawSearchResult.law_id r = Law.law_id law
      /\ LawSearchResult.law_name_kr r = Law.law_name_kr law
      /\ LawSearchResult.score r = Some (_lexical_score (searchable law) q)
      /\ 0 < _lexical_score (searchable law) q <= 1
      /\ LawSearchResult.snippet r
         = Some (_make_snippet (searchable law) q default_window)
      /\ existsb (fun tok => contains tok (lower (searchable law)))
           (split_ws (lower (strip q))) = true.
Proof.
  intros Hrun r Hin.
  destruct (db_search_result_origin _ _ _ _ _ _ _ Hrun Hin)
    as (q & rows & law & Hq & Hsel & Hlaw & -> & Hpos).
  exists q, rows, law. repeat split; auto.
  - apply ScoringFacts.lexical_score_range.
  - simpl. now rewrite (proj2 (Qltb_lt _ _) Hpos).
  - destruct (is_empty (lower (strip q))) eqn:Hblank.
    + exfalso. unfold _lexical_score in Hpos. rewrite Hblank in Hpos.
      discriminate Hpos.
    + now apply (score_positive_nonblank _ _ Hblank).
Qed.

Lemma db_search_results_match_witness :
  exists q rows law,
    In q (_split_query_list "alpha, beta")
    /\ execute_select (table_env demo_table) (statement_of "alpha, beta" 10 None q)
       = Ok rows
    /\ In law rows
    /\ "L1" = Law.law_id law
    /\ 0 < _lexical_score (searchable law) q <= 1.
Proof.
  destruct (run (_db_search_laws (table_env demo_table) "alpha, beta" 10 None))
    as [log [out|e]] eqn:E; [|vm_compute in E; discriminate E].
  assert (Hin : In (_law_row_to_search_result (plain_law "L1" "alpha") "alpha") out).
  { vm_compute in E. inversion E. left. reflexivity. }
  destruct (db_search_results_match (table_env demo_table) "alpha, beta" 10 None
              log out E _ Hin)
    as (q & rows & law & H1 & H2 & H3 & H4 & _ & _ & H5 & _).
  exists q, rows, law. auto.
Defined.

(** X8. A query of commas and whitespace only has no search term:
    [_db_search_laws] then returns the empty list without executing any
    statement, whatever the state of the session; for every other query it
    executes at least one statement. *)
Theorem db_search_without_terms (env : Env) (query : string) (top_k : Z)
  (filters : option LawSearchFilters.t) :
  (only_separators query = true ->
   run (_db_search_laws env query top_k filters) = ([], Ok []))
  /\ (only_separators query = false ->
      exists s log, fst (run (_db_search_laws env query top_k filters))
                    = Selected s :: log).
Proof.
  split; intros H.
  - apply split_query_list_nil in H. unfold run, _db_search_laws. now rewrite H.
  - unfold run, _db_search_laws.
    destruct (_split_query_list query) as [|q qs] eqn:Q.
    + apply split_query_list_nil in Q. congruence.
    + set (pq := per_query_of top_k (q :: qs)). unfold bind.
      destruct (search_loop env (q :: qs) pq top_k filters [] []) as [log' r] eqn:L.
      pose proof (search_loop_trace _ _ _ _ _ _ _ _ _ L) as T.
      destruct r as [by_id|e].
      * destruct T as [-> _]. simpl. eauto.
      * destruct T as (qs1 & q1 & qs2 & _ & -> & _). simpl.
        destruct qs1; simpl; eauto.
Qed.

Lemma db_search_without_terms_witness :
  run (_db_search_laws down_env " , ," 10 None) = ([], Ok [])
  /\ exists s log, fst (run (_db_search_laws down_env "tax" 10 None)) = Selected s :: log.
Proof.
  destruct (db_search_without_terms down_env " , ," 10 None) as [H1 _].
  destruct (db_search_without_terms down_env "tax" 10 None) as [_ H2].
  split; [apply H1 | apply H2]; reflexivity.
Defined.

Lemma db_search_only_selects (env : Env) (query : string) (top_k : Z)
  (filters : option LawSearchFilters.t) (log : list Event)
  (r : result (list LawSearchResult.t)) :
  run (_db_search_laws env query top_k filters) = (log, r) ->
  forall ev, In ev log -> exists s, ev = Selected s.
Proof.
  unfold run, _db_search_laws.
  destruct (_split_query_list query) as [|q0 qs0].
  - unfold ret. intros [= <- <-] ev [].
  - unfold bind.
    destruct (search_loop env (q0 :: qs0) _ top_k filters [] []) as [log' r'] eqn:L.
    pose proof (search_loop_trace _ _ _ _ _ _ _ _ _ L) as T.
    assert (Hsel : forall l ev,
               In ev (map (fun q => Selected (sub_query_select q
                                      (per_query_of top_k (q0 :: qs0)) top_k filters)) l) ->
               exists s, ev = Selected s).
    { intros l ev Hin. apply in_map_iff in Hin as (q & <- & _). eauto. }
    destruct r' as [by_id|e].
    + unfold ret. intros [= <- <-]. destruct T as [-> _]. rewrite app_nil_l.
      apply Hsel.
    + intros [= <- <-]. destruct T as (qs1 & q1 & qs2 & _ & -> & _).
      rewrite app_nil_l. apply Hsel.
Qed.



End DbSearchFacts.

(* ================================================================== *)
(** * The search endpoint: short cut, errors and write-back *)
(* ================================================================== *)

Module EndpointFacts.
Import Py PyMore PyFacts StringFacts.
Import Scoring Db Main MainMore WriteBackMore OrchestratorFacts.
Local Open Scope list_scope.

Lemma is_nil_false {A : Type} (l : list A) : l <> [] -> is_nil l = false.
Proof. destruct l; [congruence | reflexivity]. Qed.

Lemma primary_hit (env : Env) (body : LawSearchRequest.t)
  (log1 : list Event) (results : list LawSearchResult.t) :
  run (_db_search_laws env (LawSearchRequest.query body)
         (LawSearchRequest.top_k body) (LawSearchRequest.filters body))
  = (log1, Ok results) ->
  results <> [] ->
  run (law_search env body)
  = (log1, Ok (respond body (law_api_key env) results (Some "postgres"))).
Proof.
  intros Hrun Hne. unfold run in *.
  unfold law_search, attempt_primary, attempt_secondary, bind, attempt, ret.
  rewrite Hrun. rewrite (is_nil_false results Hne). reflexivity.
Qed.

(** X10. When the persistent store finds something, [law_search] answers
    from it alone: the response holds exactly the results of
    [_db_search_laws], is marked as a cache hit, and the remote source is
    not called and nothing is written back, with or without API key. *)
Theorem law_search_primary_hit (env : Env) (body : LawSearchRequest.t)
  (log1 : list Event) (results : list LawSearchResult.t) :
  run (_db_search_laws env (LawSearchRequest.query body)
         (LawSearchRequest.top_k body) (LawSearchRequest.filters body))
  = (log1, Ok results) ->
  results <> [] ->
  exists response,
    run (law_search env body) = (log1, Ok response)
    /\ LawSearchResponse.results response = results
    /\ LawSearchResponse.total_count response = Z.of_nat (List.length results)
    /\ LawSearchMetadata.cache_hit (LawSearchResponse.search_metadata response) = true
    /\ write_backs log1 = 0%nat
    /\ forall q k, ~ In (CollectorSearch q k) log1.
Proof.
  intros Hrun Hne. eexists. split; [exact (primary_hit env body log1 results Hrun Hne)|].
  repeat split.
  - pose proof (db_search_log env (LawSearchRequest.query body)
                  (LawSearchRequest.top_k body) (LawSearchRequest.filters body) []) as H.
    unfold run in Hrun. now rewrite Hrun in H.
  - intros q k Hin.
    destruct (DbSearchFacts.db_search_only_selects env _ _ _ _ _ Hrun _ Hin)
      as [s Hs].
    discriminate Hs.
Qed.

Lemma law_search_primary_hit_witness :
  exists log1 response,
    run (law_search (table_env demo_table) (request "alpha" 10)) = (log1, Ok response)
    /\ map LawSearchResult.law_id (LawSearchResponse.results response) = ["L1"]
    /\ LawSearchMetadata.cache_hit (LawSearchResponse.search_metadata response) = true.
Proof.
  destruct (run (_db_search_laws (table_env demo_table) "alpha" 10 None))
    as [log1 [results|e]] eqn:E; [|vm_compute in E; discriminate E].
  assert (Hids : map LawSearchResult.law_id results = ["L1"]).
  { vm_compute in E. inversion E. reflexivity. }
  assert (Hne : results <> []) by (intros ->; discriminate Hids).
  destruct (law_search_primary_hit (table_env demo_table) (request "alpha" 10)
              log1 results E Hne) as (response & H1 & H2 & _ & H3 & _).
  exists log1, response. rewrite H2. auto.
Defined.


(** ** The two errors *)

Lemma law_search_outcome (env : Env) (body : LawSearchRequest.t)
  (log1 : list Event) (r1 : result (list LawSearchResult.t)) :
  run (_db_search_laws env (LawSearchRequest.query body)
         (LawSearchRequest.top_k body) (LawSearchRequest.filters body))
  = (log1, r1) ->
  let q := LawSearchRequest.query body in
  let k := LawSearchRequest.top_k body in
  let nothing := match r1 with Ok (_ :: _) => false | _ => true end in
  match snd (run (law_search env body)) with
  | Raise ex =>
      nothing = true
      /\ write_backs (fst (run (law_search env body))) = 0%nat
      /\ ((law_api_key env <> ""
           /\ exists e, collector_search_law env q k = Raise e
                        /\ ex = HTTPException 500 "InternalServerError" (exn_str e))
          \/ (law_api_key env = ""
              /\ exists e, r1 = Raise e
                           /\ ex = HTTPException 503 "ServiceUnavailable" (exn_str e)))
  | Ok _ =>
      nothing = false
      \/ (law_api_key env <> "" /\ exists raw, collector_search_law env q k = Ok raw)
      \/ (law_api_key env = "" /\ r1 = Ok [])
  end.
Proof.
  intros Hrun q k nothing.
  pose proof (db_search_log env (LawSearchRequest.query body)
                (LawSearchRequest.top_k body) (LawSearchRequest.filters body) [])
    as Hlog1.
  unfold run in *. rewrite Hrun in Hlog1. simpl in Hlog1.
  unfold law_search, attempt_primary, attempt_secondary, bind, attempt, ret, raise, call.
  rewrite Hrun. subst nothing q k.
  destruct r1 as [[|r rs]|e1]; cbn [is_nil andb].
  - destruct (law_api_key env) as [|c key] eqn:K; cbn [is_empty negb].
    + simpl. right. right. split; reflexivity.
    + destruct (collector_search_law env _ _) as [raw|e] eqn:C.
      * destruct (best_effort_cache_spec env raw
                    (log1 ++ [CollectorSearch (LawSearchRequest.query body)
                                (LawSearchRequest.top_k body)]))
          as (log & Hbe & _).
        rewrite Hbe. cbn [is_empty]. rewrite ?andb_false_r. simpl.
        right. left. split; [discriminate | now exists raw].
      * simpl. split; [reflexivity|]. split.
        -- rewrite write_backs_snoc. simpl. rewrite Hlog1. reflexivity.
        -- left. split; [discriminate | now exists e].
  - simpl. now left.
  - destruct (law_api_key env) as [|c key] eqn:K; cbn [is_empty negb].
    + simpl. split; [reflexivity|]. split; [exact Hlog1|].
      right. split; [reflexivity | now exists e1].
    + destruct (collector_search_law env _ _) as [raw|e] eqn:C.
      * destruct (best_effort_cache_spec env raw
                    (log1 ++ [CollectorSearch (LawSearchRequest.query body)
                                (LawSearchRequest.top_k body)]))
          as (log & Hbe & _).
        rewrite Hbe. cbn [is_empty]. rewrite ?andb_false_r. simpl.
        right. left. split; [discriminate | now exists raw].
      * simpl. split; [reflexivity|]. split.
        -- rewrite write_backs_snoc. simpl. rewrite Hlog1. reflexivity.
        -- left. split; [discriminate | now exists e].
Qed.

(** X11. [law_search] raises in two situations only, both with the
    persistent store having found nothing: with an API key, when the remote
    source raised (HTTP 500 InternalServerError carrying that exception,
    also when the persistent store had failed before); without API key,
    when the persistent store raised (HTTP 503 ServiceUnavailable carrying
    that exception).  In both nothing has been written back. *)
Theorem law_search_errors (env : Env) (body : LawSearchRequest.t)
  (log1 log : list Event) (r1 : result (list LawSearchResult.t)) (ex : exn) :
  run (_db_search_laws env (LawSearchRequest.query body)
         (LawSearchRequest.top_k body) (LawSearchRequest.filters body))
  = (log1, r1) ->
  run (law_search env body) = (log, Raise ex) ->
  (forall r rs, r1 <> Ok (r :: rs))
  /\ write_backs log = 0%nat
  /\ ((law_api_key env <> ""
       /\ exists e,
            collector_search_law env (LawSearchRequest.query body)
              (LawSearchRequest.top_k body) = Raise e
            /\ ex = HTTPException 500 "InternalServerError" (exn_str e))
      \/ (law_api_key env = ""
          /\ exists e, r1 = Raise e
                       /\ ex = HTTPException 503 "ServiceUnavailable" (exn_str e))).
Proof.
  intros Hrun Hls. pose proof (law_search_outcome env body log1 r1 Hrun) as H.
  rewrite Hls in H. simpl in H. destruct H as (Hn & Hw & Hcase).
  split; [|split; assumption].
  intros r rs ->. discriminate Hn.
Qed.

Lemma law_search_errors_witness :
  exists e, snd (run (law_search down_env (request "tax" 10)))
            = Raise (HTTPException 503 "ServiceUnavailable" (exn_str e)).
Proof.
  destruct (law_search_errors down_env (request "tax" 10)
              (fst (run (_db_search_laws down_env "tax" 10 None)))
              (fst (run (law_search down_env (request "tax" 10))))
              (Raise (ExternalError "connection refused"))
              (HTTPException 503 "ServiceUnavailable" "connection refused")
              eq_refl eq_refl)
    as (_ & _ & [[Hkey _] | [_ (e & He & _)]]).
  - now elim Hkey.
  - exists e. injection He as <-. reflexivity.
Defined.

(** X12. With an API key and nothing found in the persistent store, an
    exception of the remote source becomes HTTP 500 InternalServerError
    with the text of that exception, whether the persistent store had
    answered or failed; the write-back is not invoked. *)
Theorem law_search_remote_failure (env : Env) (body : LawSearchRequest.t)
  (log1 : list Event) (r1 : result (list LawSearchResult.t)) (e : exn) :
  law_api_key env <> "" ->
  run (_db_search_laws env (LawSearchRequest.query body)
         (LawSearchRequest.top_k body) (LawSearchRequest.filters body))
  = (log1, r1) ->
  r1 = Ok [] \/ (exists e1, r1 = Raise e1) ->
  collector_search_law env (LawSearchRequest.query body) (LawSearchRequest.top_k body)
  = Raise e ->
  run (law_search env body)
  = (log1 ++ [CollectorSearch (LawSearchRequest.query body)
                (LawSearchRequest.top_k body)],
     Raise (HTTPException 500 "InternalServerError" (exn_str e))).
Proof.
  intros Hkey Hrun Hr1 Hcoll. unfold run in *.
  unfold law_search, attempt_primary, attempt_secondary, bind, attempt, ret, raise, call.
  rewrite Hrun, (is_empty_false _ Hkey).
  destruct Hr1 as [-> | [e1 ->]]; cbn [is_nil andb negb]; now rewrite Hcoll.
Qed.


Lemma law_search_remote_failure_witness :
  run (law_search remote_down_env (request "tax" 10))
  = ([Selected (statement_of "tax" 10 None "tax"); CollectorSearch "tax" 10],
     Raise (HTTPException 500 "InternalServerError" "timed out")).
Proof.
  apply (law_search_remote_failure remote_down_env (request "tax" 10)
           [Selected (statement_of "tax" 10 None "tax")] (Ok [])
           (ExternalError "timed out")).
  - discriminate.
  - reflexivity.
  - left. reflexivity.
  - reflexivity.
Defined.

(** ** The write-back *)

Lemma upsert_items_trace (env : Env) (raw : list CollectorItem.t)
  (log log' : list Event) (r : result unit) :
  upsert_items env raw log = (log', r) ->
  match r with
  | Ok _ =>
      log' = log ++ map Upserted (storable raw)
      /\ all_upserts_ok env raw = true
  | Raise e =>
      all_upserts_ok env raw = false
      /\ exists us1 u us2,
           storable raw = us1 ++ u :: us2
           /\ log' = log ++ map Upserted (us1 ++ [u])
           /\ execute_upsert env u = Raise e
  end.
Proof.
  unfold all_upserts_ok, storable.
  revert log. induction raw as [|item raw IH]; intros log; cbn [upsert_items].
  - unfold ret. intros [= <- <-]. rewrite app_nil_r. split; reflexivity.
  - cbn [filter].
    destruct (is_empty (strip (RawLaw.law_id (CollectorItem.law item)))) eqn:E;
      cbn [negb]; [apply IH|].
    cbn [map forallb]. unfold bind, call.
    set (u := insert_values (strip (RawLaw.law_id (CollectorItem.law item))) item).
    destruct (execute_upsert env u) as [[]|e] eqn:U.
    + intros H. apply IH in H. destruct r as [[]|e].
      * destruct H as [-> Hall]. split; [|exact Hall].
        now rewrite <- app_assoc.
      * destruct H as (Hall & us1 & u1 & us2 & Hst & -> & Hu1).
        split; [exact Hall|]. exists (u :: us1), u1, us2. repeat split.
        -- cbn [app]. now rewrite Hst.
        -- now rewrite <- app_assoc.
        -- exact Hu1.
    + intros [= <- <-]. split; [reflexivity|].
      exists [], u, (map (fun item0 => insert_values
                             (strip (RawLaw.law_id (CollectorItem.law item0))) item0)
                       (filter (fun item0 =>
                                  negb (is_empty (strip (RawLaw.law_id
                                                          (CollectorItem.law item0)))))
                          raw)).
      repeat split. exact U.
Qed.

Lemma best_effort_cache_trace (env : Env) (raw : list CollectorItem.t) :
  exists log,
    run (best_effort_cache env raw) = (WriteBack raw :: log, Ok tt)
    /\ (if all_upserts_ok env raw
        then log = map Upserted (storable raw)
                   ++ Committed :: (if is_ok (commit env) then [] else [RolledBack])
        else exists us1 u us2 e,
               storable raw = us1 ++ u :: us2
               /\ execute_upsert env u = Raise e
               /\ log = map Upserted (us1 ++ [u]) ++ [RolledBack]).
Proof.
  unfold run, best_effort_cache, _cache_search_results_to_db, bind, attempt, emit,
    call, ret.
  cbn [app].
  destruct (upsert_items env raw [WriteBack raw]) as [log1 r] eqn:U.
  pose proof (upsert_items_trace env raw _ _ _ U) as T.
  destruct r as [[]|e].
  - destruct T as [-> Hall]. rewrite Hall.
    destruct (commit env) as [[]|ec]; cbn [is_ok].
    + exists (map Upserted (storable raw) ++ [Committed]).
      split; reflexivity.
    + exists (map Upserted (storable raw) ++ [Committed; RolledBack]).
      destruct (rollback env) as [[]|er];
        (split; [cbn [app]; now rewrite <- app_assoc | reflexivity]).
  - destruct T as (Hall & us1 & u & us2 & Hst & -> & Hu). rewrite Hall.
    exists (map Upserted (us1 ++ [u]) ++ [RolledBack]).
    destruct (rollback env) as [[]|er];
      (split; [reflexivity | exists us1, u, us2, e; repeat split; auto]).
Qed.

(** X13. The best-effort write-back never raises, and it leaves the session
    in a definite state: it upserts the storable records in order; when all
    upserts succeed it commits, and rolls back only if the commit fails;
    when an upsert fails it stops there and rolls back without committing. *)
Theorem write_back_protocol (env : Env) (raw : list CollectorItem.t) :
  exists log,
    run (best_effort_cache env raw) = (WriteBack raw :: log, Ok tt)
    /\ (all_upserts_ok env raw = true ->
        log = map Upserted (storable raw)
              ++ Committed :: (if is_ok (commit env) then [] else [RolledBack]))
    /\ (all_upserts_ok env raw = false ->
        ~ In Committed log
        /\ exists us1 u us2 e,
             storable raw = us1 ++ u :: us2
             /\ execute_upsert env u = Raise e
             /\ log = map Upserted (us1 ++ [u]) ++ [RolledBack]).
Proof.
  destruct (best_effort_cache_trace env raw) as (log & Hrun & H).
  exists log. split; [exact Hrun|].
  destruct (all_upserts_ok env raw); split; intros E; try discriminate E.
  - exact H.
  - split; [|exact H].
    destruct H as (us1 & u & us2 & e & _ & _ & ->). intros Hin.
    apply in_app_or in Hin as [Hin | [Hin | []]]; [|discriminate Hin].
    apply in_map_iff in Hin as (x & Hx & _). discriminate Hx.
Qed.

Lemma write_back_protocol_witness :
  run (best_effort_cache commit_fails_env two_records)
  = ([WriteBack two_records;
      Upserted (insert_values "L1" (CollectorItem.mk "tax" (plain_raw " L1 " "alpha")));
      Committed; RolledBack], Ok tt).
Proof.
  destruct (write_back_protocol commit_fails_env two_records) as (log & Hrun & H & _).
  rewrite Hrun, (H eq_refl). reflexivity.
Defined.

Lemma storable_wellformed (raw : list CollectorItem.t) (u : Upsert) :
  In u (storable raw) ->
  In (Db.raw u) raw
  /\ Law.law_id (values u) = strip (RawLaw.law_id (CollectorItem.law (Db.raw u)))
  /\ is_empty (Law.law_id (values u)) = false
  /\ strip (Law.law_id (values u)) = Law.law_id (values u)
  /\ is_empty (Law.law_name_kr (values u)) = false.
Proof.
  unfold storable. intros H. apply in_map_iff in H as (item & <- & Hitem).
  apply filter_In in Hitem as [Hin Hne]. apply negb_true_iff in Hne.
  cbn. repeat split; auto.
  - apply strip_idem.
  - destruct (RawLaw.name_kr (CollectorItem.law item)); [exact Hne | reflexivity].
Qed.

(** X14. Whatever the remote source delivered, every row that the
    write-back sends to the table comes from one of the delivered records
    and has a primary key that is the record's id without surrounding
    whitespace and is not empty, and a name that is not empty; records
    whose id is empty or blank are never sent. *)
Theorem write_back_rows (env : Env) (raw : list CollectorItem.t)
  (log : list Event) (r : result unit) (u : Upsert) :
  run (best_effort_cache env raw) = (log, r) ->
  In (Upserted u) log ->
  In (Db.raw u) raw
  /\ Law.law_id (values u) = strip (RawLaw.law_id (CollectorItem.law (Db.raw u)))
  /\ is_empty (Law.law_id (values u)) = false
  /\ strip (Law.law_id (values u)) = Law.law_id (values u)
  /\ is_empty (Law.law_name_kr (values u)) = false.
Proof.
  intros Hrun Hin. apply storable_wellformed.
  destruct (best_effort_cache_trace env raw) as (log0 & Hrun0 & H).
  rewrite Hrun0 in Hrun. injection Hrun as <- _.
  destruct Hin as [Hin | Hin]; [discriminate Hin|].
  destruct (all_upserts_ok env raw).
  - subst log0. apply in_app_or in Hin as [Hin | Hin].
    + apply in_map_iff in Hin as (x & [= ->] & Hx). exact Hx.
    + destruct Hin as [Hin | Hin]; [discriminate Hin|].
      destruct (is_ok (commit env)); [contradiction|].
      destruct Hin as [Hin | []]. discriminate Hin.
  - destruct H as (us1 & u1 & us2 & e & Hst & _ & ->).
    apply in_app_or in Hin as [Hin | [Hin | []]]; [|discriminate Hin].
    apply in_map_iff in Hin as (x & [= ->] & Hx). rewrite Hst.
    apply in_app_or in Hx as [Hx | [<- | []]]; apply in_or_app; [now left|].
    right. now left.
Qed.

Lemma write_back_rows_witness :
  Law.law_id (values (insert_values "L1"
                        (CollectorItem.mk "tax" (plain_raw " L1 " "alpha")))) = "L1"
  /\ In (CollectorItem.mk "tax" (plain_raw " L1 " "alpha")) two_records.
Proof.
  destruct (write_back_rows commit_fails_env two_records
              (fst (run (best_effort_cache commit_fails_env two_records)))
              (snd (run (best_effort_cache commit_fails_env two_records)))
              (insert_values "L1" (CollectorItem.mk "tax" (plain_raw " L1 " "alpha")))
              eq_refl)
    as (H1 & H2 & _).
  - vm_compute. right. left. reflexivity.
  - split; [reflexivity | exact H1].
Defined.

End EndpointFacts.

(* ================================================================== *)
(** * The in-process document store: writes, deletions and the ranking *)
(* ================================================================== *)

Module InMemoryStoreFacts.
Import Py PyFacts VectorStore StoreViews StoreFacts InMemoryVectorStore.
Local Open Scope list_scope.

Lemma dict_set_other {V : Type} (d : list (string * V)) (k k' : string) (v : V) :
  k' <> k -> dict_get (dict_set d k v) k' = dict_get d k'.
Proof.
  intros H. rewrite dict_get_set.
  destruct (String.eqb_spec k' k); [contradiction | reflexivity].
Qed.

Lemma dict_set_same {V : Type} (d : list (string * V)) (k : string) (v : V) :
  dict_get (dict_set d k v) k = Some v.
Proof. now rewrite dict_get_set, String.eqb_refl. Qed.

Lemma getitem_documents (s : t) (name name' : string) :
  snd (getitem s name) = documents_of (_collections s) name
  /\ documents_of (_collections (fst (getitem s name))) name'
     = documents_of (_collections s) name'
  /\ config (fst (getitem s name)) = config s.
Proof.
  unfold getitem, documents_of, Collection.
  destruct (@dict_get (list (string * VectorDocument)) (_collections s) name)
    as [c|] eqn:E;
    cbn [fst snd _collections with_collections config]; [auto|].
  split; [reflexivity|]. split; [|reflexivity].
  rewrite dict_get_set.
  destruct (String.eqb_spec name' name) as [-> | Hne]; [now rewrite E | reflexivity].
Qed.

Lemma store_document_documents (s : t) (name : string) (doc : VectorDocument) :
  documents_of (_collections (store_document s name doc)) name
  = dict_set (documents_of (_collections s) name) (id doc) doc
  /\ (forall name', name' <> name ->
        documents_of (_collections (store_document s name doc)) name'
        = documents_of (_collections s) name')
  /\ config (store_document s name doc) = config s.
Proof.
  unfold store_document.
  destruct (getitem_documents s name name) as (Hc & _ & Hcfg).
  pose proof (fun n => proj1 (proj2 (getitem_documents s name n))) as Hother.
  destruct (getitem s name) as [s1 c]. simpl in *. subst c.
  repeat split.
  - unfold documents_of at 1. now rewrite dict_set_same.
  - intros name' Hne. unfold documents_of at 1.
    rewrite (dict_set_other _ _ _ _ Hne). apply Hother.
  - exact Hcfg.
Qed.

Lemma find_snoc {A : Type} (f : A -> bool) (l : list A) (x : A) :
  List.find f (l ++ [x])
  = match List.find f l with
    | Some y => Some y
    | None => if f x then Some x else None
    end.
Proof.
  induction l as [|a l IH]; simpl; [reflexivity|].
  destruct (f a); [reflexivity | exact IH].
Qed.

Lemma add_documents_fold (docs : list VectorDocument) (s : t) (name : string) :
  let s' := fold_left (fun st doc => store_document st name doc) docs s in
  (forall k, dict_get (documents_of (_collections s') name) k
             = match last_with_id k docs with
               | Some d => Some d
               | None => dict_get (documents_of (_collections s) name) k
               end)
  /\ (forall name', name' <> name ->
        documents_of (_collections s') name' = documents_of (_collections s) name')
  /\ config s' = config s.
Proof.
  revert s. induction docs as [|d docs IH]; intros s; cbn [fold_left].
  - repeat split.
  - destruct (IH (store_document s name d)) as (Hget & Hother & Hcfg).
    destruct (store_document_documents s name d) as (Hd & Hdo & Hdc).
    cbv zeta. repeat split.
    + intros k. rewrite Hget. unfold last_with_id. cbn [rev]. rewrite find_snoc.
      destruct (List.find _ (rev docs)); [reflexivity|].
      rewrite Hd, dict_get_set. rewrite (String.eqb_sym (id d) k).
      destruct (String.eqb k (id d)); reflexivity.
    + intros name' Hne. rewrite (Hother name' Hne). now apply Hdo.
    + now rewrite Hcfg.
Qed.

(** X15. [add_documents] of the in-process store is an upsert in which the
    last write wins: it returns the ids of the documents given, in order;
    afterwards the collection holds under each id the last document given
    with that id, or what it held before when no document has that id; and
    the other collections are unchanged. *)
Theorem add_documents_last_write_wins (s : t) (docs : list VectorDocument)
  (collection : option string) :
  let name := _get_collection_name (config s) collection in
  let s' := fst (add_documents s docs collection) in
  snd (add_documents s docs collection) = Ok (map id docs)
  /\ (forall k, dict_get (documents_of (_collections s') name) k
                = match last_with_id k docs with
                  | Some d => Some d
                  | None => dict_get (documents_of (_collections s) name) k
                  end)
  /\ (forall name', name' <> name ->
        documents_of (_collections s') name' = documents_of (_collections s) name')
  /\ config s' = config s.
Proof.
  cbv zeta. split; [reflexivity|].
  apply (add_documents_fold docs s (_get_collection_name (config s) collection)).
Qed.

(** ** Deletion *)

Lemma dict_del_length {V : Type} (d : list (string * V)) (k : string) :
  dict_mem d k = true -> S (List.length (dict_del d k)) = List.length d.
Proof.
  unfold dict_mem. induction d as [|[k0 v0] d IH]; simpl; [discriminate|].
  destruct (String.eqb k k0); [reflexivity|]. simpl. intros H. now rewrite IH.
Qed.

Lemma dict_del_absent {V : Type} (d : list (string * V)) (k : string) :
  dict_mem d k = false -> dict_del d k = d.
Proof.
  unfold dict_mem. induction d as [|[k0 v0] d IH]; simpl; [reflexivity|].
  destruct (String.eqb k k0); [discriminate|]. intros H. now rewrite IH.
Qed.

Lemma delete_one_documents (name : string) (s : t) (n : Z) (k : string) :
  let '(s', n') := delete_one name (s, n) k in
  documents_of (_collections s') name
  = dict_del (documents_of (_collections s) name) k
  /\ (n' + Z.of_nat (List.length (documents_of (_collections s') name))
      = n + Z.of_nat (List.length (documents_of (_collections s) name)))%Z
  /\ (forall name', name' <> name ->
        documents_of (_collections s') name' = documents_of (_collections s) name')
  /\ config s' = config s.
Proof.
  unfold delete_one.
  destruct (getitem_documents s name name) as (Hc & Hsame & Hcfg).
  pose proof (fun n => proj1 (proj2 (getitem_documents s name n))) as Hother.
  destruct (getitem s name) as [s1 c]. simpl in *. subst c.
  destruct (dict_mem (documents_of (_collections s) name) k) eqn:M.
  - repeat split.
    + unfold documents_of at 1. simpl. now rewrite dict_set_same.
    + unfold documents_of at 1. simpl. rewrite dict_set_same.
      pose proof (dict_del_length _ _ M). lia.
    + intros name' Hne. unfold documents_of at 1. simpl.
      rewrite (dict_set_other _ _ _ _ Hne). apply Hother.
    + exact Hcfg.
  - repeat split.
    + now rewrite Hsame, (dict_del_absent _ _ M).
    + now rewrite Hsame.
    + intros name' _. apply Hother.
    + exact Hcfg.
Qed.

Lemma delete_fold (name : string) (ids : list string) (s : t) (n : Z) :
  NoDup (dict_keys (documents_of (_collections s) name)) ->
  let '(s', n') := fold_left (delete_one name) ids (s, n) in
  NoDup (dict_keys (documents_of (_collections s') name))
  /\ (forall k, dict_get (documents_of (_collections s') name) k
                = if mentions ids k then None
                  else dict_get (documents_of (_collections s) name) k)
  /\ (n' + Z.of_nat (List.length (documents_of (_collections s') name))
      = n + Z.of_nat (List.length (documents_of (_collections s) name)))%Z
  /\ (forall name', name' <> name ->
        documents_of (_collections s') name' = documents_of (_collections s) name')
  /\ config s' = config s.
Proof.
  revert s n. induction ids as [|i ids IH]; intros s n Hnd; cbn [fold_left].
  - repeat split; auto.
  - pose proof (delete_one_documents name s n i) as H1.
    destruct (delete_one name (s, n) i) as [s1 n1].
    destruct H1 as (Hd & Hn & Ho & Hc).
    assert (Hnd1 : NoDup (dict_keys (documents_of (_collections s1) name))).
    { rewrite Hd. now apply dict_del_NoDup. }
    specialize (IH s1 n1 Hnd1).
    destruct (fold_left (delete_one name) ids (s1, n1)) as [s' n'].
    destruct IH as (Hnd' & Hget & Hn' & Ho' & Hc').
    repeat split.
    + exact Hnd'.
    + intros k. rewrite Hget. unfold mentions. cbn [existsb].
      destruct (existsb (String.eqb k) ids); [now rewrite orb_true_r|].
      rewrite orb_false_r, Hd.
      destruct (String.eqb_spec k i) as [-> | Hne].
      * now apply dict_get_del_same.
      * now apply dict_get_del_other.
    + lia.
    + intros name' Hne. rewrite (Ho' name' Hne). now apply Ho.
    + now rewrite Hc'.
Qed.

(** X16. [delete_documents] of the in-process store removes exactly the
    listed ids: afterwards none of them is in the collection, every other
    document is as before, other collections are unchanged, and the count
    returned is the number of documents by which the collection shrank (an
    id that is listed twice or is not stored counts for nothing). *)
Theorem delete_documents_removes (s s' : t) (ids : list string)
  (collection : option string) (n : Z) :
  let name := _get_collection_name (config s) collection in
  NoDup (dict_keys (documents_of (_collections s) name)) ->
  delete_documents s ids collection = (s', Ok n) ->
  (forall k, dict_get (documents_of (_collections s') name) k
             = if mentions ids k then None
               else dict_get (documents_of (_collections s) name) k)
  /\ (Z.of_nat (List.length (documents_of (_collections s) name))
      = n + Z.of_nat (List.length (documents_of (_collections s') name)))%Z
  /\ (forall name', name' <> name ->
        documents_of (_collections s') name' = documents_of (_collections s) name')
  /\ NoDup (dict_keys (documents_of (_collections s') name)).
Proof.
  cbv zeta. intros Hnd. unfold delete_documents.
  pose proof (delete_fold (_get_collection_name (config s) collection) ids s 0 Hnd) as H.
  destruct (fold_left _ ids (s, 0%Z)) as [s1 n1].
  intros [= <- <-]. destruct H as (Hnd' & Hget & Hn & Ho & _).
  repeat split; auto; lia.
Qed.

Lemma delete_documents_removes_witness :
  exists s',
    delete_documents demo ["b"; "x"; "b"] None = (s', Ok 1%Z)
    /\ dict_get (documents_of (_collections s') "default") "b" = None
    /\ dict_get (documents_of (_collections s') "default") "a" = Some doc_a.
Proof.
  destruct (delete_documents demo ["b"; "x"; "b"] None) as [s' r] eqn:E.
  assert (Hr : r = Ok 1%Z) by (vm_compute in E; now inversion E).
  subst r. exists s'. split; [reflexivity|].
  assert (Hnd : NoDup (dict_keys (documents_of (_collections demo) "default"))).
  { vm_compute. repeat constructor; simpl; intuition discriminate. }
  destruct (delete_documents_removes demo s' ["b"; "x"; "b"] None 1 Hnd E)
    as (Hget & _).
  split; [exact (Hget "b") | exact (Hget "a")].
Defined.


(** ** The ranking *)

Lemma slice_to_firstn {A : Type} (l : list A) (k : Z) :
  exists n, slice_to l k = firstn n l /\ ((0 <= k)%Z -> n = Z.to_nat k).
Proof.
  unfold slice_to. destruct (k <? 0)%Z eqn:E.
  - eexists. split; [reflexivity|]. intros H. apply Z.ltb_lt in E. lia.
  - eexists. split; [reflexivity|]. reflexivity.
Qed.

Lemma sorted_firstn_skipn {A : Type} (R : A -> A -> Prop) (n : nat) (l : list A) :
  StronglySorted R l ->
  forall x y, In x (firstn n l) -> In y (skipn n l) -> R x y.
Proof.
  intros H. revert n. induction H as [|a l Hs IH Hall]; intros n x y.
  - rewrite firstn_nil. contradiction.
  - destruct n as [|n]; [contradiction|]. cbn [firstn skipn].
    intros [<- | Hx] Hy.
    + rewrite Forall_forall in Hall. apply Hall.
      rewrite <- (firstn_skipn n l). apply in_or_app. now right.
    + now apply (IH n).
Qed.

Lemma rank_top (np : Numerics) (scored : list (VectorDocument * float))
  (top_k : Z) :
  has_nan scored = false ->
  exists rest,
    Permutation (map to_result scored) (rank np scored top_k ++ rest)
    /\ (forall r r', In r (rank np scored top_k) -> In r' rest ->
          fge (score r) (score r') = true)
    /\ ((0 <= top_k)%Z ->
        List.length (rank np scored top_k)
        = Nat.min (Z.to_nat top_k) (List.length scored)).
Proof.
  intros Hnan. unfold rank. set (sorted := sort_desc np scored).
  destruct (slice_to_firstn sorted top_k) as (n & -> & Hn).
  exists (map to_result (skipn n sorted)). repeat split.
  - rewrite <- map_app, firstn_skipn. apply Permutation_map, Permutation_sym.
    now apply sort_desc_perm.
  - intros r r' Hr Hr'.
    apply in_map_iff in Hr as ([d sc] & <- & Hd).
    apply in_map_iff in Hr' as ([d' sc'] & <- & Hd').
    exact (sorted_firstn_skipn _ n sorted (sort_desc_sorted np scored Hnan)
             _ _ Hd Hd').
  - intros H. rewrite length_map, length_firstn, (Hn H).
    unfold sorted.
    now rewrite (Permutation_length (sort_desc_perm np scored Hnan)).
Qed.

(** X17. [search] of the in-process store changes no stored document, and
    it returns the best candidates when no score is NaN.  The candidates
    are the documents of the collection that pass the filters, each scored
    by the cosine similarity of its embedding to the query embedding; when
    none of these scores is NaN, the results are
    [min(top_k, number of candidates)] of them (for [top_k >= 0]), each
    candidate is either returned or left out exactly once, and every
    returned one scores at least as high as every one left out. *)
Theorem search_top_k (np : Numerics) (s s' : t) (q : list Q) (top_k : Z)
  (collection : option string) (filters : option (list (string * string)))
  (results : list SearchResult) :
  search np s q top_k collection filters = (s', Ok results) ->
  let name := _get_collection_name (config s) collection in
  let candidates :=
    apply_filters filters (dict_values (documents_of (_collections s) name)) in
  (forall name', documents_of (_collections s') name'
                 = documents_of (_collections s) name')
  /\ ((forall doc, In doc candidates ->
         _cosine_similarity np q (embedding doc) <> Ok NaN) ->
      exists scored rest,
        map fst scored = candidates
        /\ (forall doc sc, In (doc, sc) scored ->
              _cosine_similarity np q (embedding doc) = Ok sc)
        /\ Permutation (map to_result scored) (results ++ rest)
        /\ (forall r r', In r results -> In r' rest ->
              fge (score r) (score r') = true)
        /\ ((0 <= top_k)%Z ->
            List.length results
            = Nat.min (Z.to_nat top_k) (List.length candidates))).
Proof.
  unfold search. cbv zeta.
  set (name := _get_collection_name (config s) collection).
  destruct (getitem_documents s name name) as (Hc & _ & _).
  pose proof (fun n => proj1 (proj2 (getitem_documents s name n))) as Hframe.
  destruct (getitem s name) as [s1 c]. simpl in Hc, Hframe. subst c.
  destruct (apply_filters filters (dict_values (documents_of (_collections s) name)))
    as [|d ds] eqn:F.
  - intros [= <- <-]. split; [exact Hframe|]. intros _.
    exists [], []. split; [reflexivity|].
    split; [contradiction|]. split; [constructor|]. split; [contradiction|].
    intros _. simpl. now rewrite Nat.min_0_r.
  - destruct (score_all _ (d :: ds)) as [scored|e] eqn:S; [|discriminate].
    intros [= <- <-]. split; [exact Hframe|]. intros Hnan.
    destruct (HybridSearchFacts.score_all_fst _ _ _ S) as [Hm Hf].
    assert (Hnum : has_nan scored = false).
    { apply has_nan_false. intros doc sc Hin ->. apply (Hnan doc).
      - rewrite <- Hm. apply in_map_iff. now exists (doc, NaN).
      - now apply Hf. }
    destruct (rank_top np scored top_k Hnum) as (rest & Hperm & Hle & Hlen).
    exists scored, rest. split; [exact Hm|]. split; [exact Hf|].
    split; [exact Hperm|]. split; [exact Hle|].
    intros H. rewrite (Hlen H). f_equal.
    now rewrite <- Hm, length_map.
Qed.

Lemma search_top_k_witness :
  exists s' results,
    search exact_floats demo [1; 0] 2 None None = (s', Ok results)
    /\ map result_id results = ["a"; "c"]
    /\ List.length results = 2%nat.
Proof.
  destruct (search exact_floats demo [1; 0] 2 None None) as [s' r] eqn:E.
  destruct r as [results|e]; [|vm_compute in E; discriminate E].
  exists s', results. split; [reflexivity|].
  destruct (search_top_k exact_floats demo s' [1; 0] 2 None None results E)
    as (_ & Hbest).
  destruct Hbest as (scored & rest & Hm & _ & _ & _ & Hlen).
  { intros doc [<- | [<- | [<- | []]]]; vm_compute; discriminate. }
  split.
  - vm_compute in E. inversion E. reflexivity.
  - rewrite Hlen by lia. reflexivity.
Defined.

(** With a NaN among the scores the order is lost: a stored embedding so
    large that the dot product and the norm both overflow scores NaN, and
    the store returns, for [top_k = 1], the first document and not the
    nearest one. *)
Lemma search_with_nan :
  _cosine_similarity overflowing_floats [10; 10] (embedding doc_huge) = Ok NaN
  /\ (exists l,
        snd (search overflowing_floats demo_overflow [10; 10] 1 None None) = Ok l
        /\ map result_id l = ["a"])
  /\ (exists l,
        snd (search overflowing_floats demo_overflow [10; 10] 3 None None) = Ok l
        /\ map result_id l = ["a"; "h"; "n"]
        /\ ~ StronglySorted score_desc l).
Proof.
  split; [vm_compute; reflexivity|]. split.
  - eexists. split; vm_compute; reflexivity.
  - eexists. split; [vm_compute; reflexivity|]. split; [reflexivity|].
    intros H. inversion H as [|? ? _ Hall]; subst.
    apply Forall_inv in Hall. vm_compute in Hall. discriminate Hall.
Qed.

End InMemoryStoreFacts.

(* ================================================================== *)
(** * The file-backed and the remote document store *)
(* ================================================================== *)

Module FileStoreFacts.
Import Py PyFacts VectorStore StoreViews FileSystemVectorStore.
Local Open Scope list_scope.

Lemma file_name_hidden (doc_id : string) :
  startswith "." (file_name doc_id) = hidden doc_id.
Proof.
  unfold file_name, hidden. destruct doc_id as [|c rest]; [reflexivity|].
  simpl. now rewrite !andb_true_r.
Qed.

Lemma listing_skips {V : Type} (d : list (string * V)) (k : string) (v : V) :
  startswith "." k = true ->
  filter (fun '(name, _) => negb (startswith "." name)) (dict_set d k v)
  = filter (fun '(name, _) => negb (startswith "." name)) d.
Proof.
  intros Hk. induction d as [|[k0 v0] d IH]; cbn [dict_set filter].
  - now rewrite Hk.
  - destruct (String.eqb_spec k k0) as [<- | Hne]; cbn [filter].
    + now rewrite Hk.
    + now rewrite IH.
Qed.

Lemma dict_set_In {V : Type} (d : list (string * V)) (k : string) (v : V) :
  In (k, v) (dict_set d k v).
Proof.
  induction d as [|[k0 v0] d IH]; simpl; [now left|].
  destruct (String.eqb_spec k k0) as [<- | Hne]; [now left | now right].
Qed.

Lemma save_in_dir (host : Host) (s : t) (doc : VectorDocument) (coll_name : string) :
  in_collection_dir coll_name (id doc) = true ->
  _save_document host s doc coll_name
  = (with_storage s
       (dict_set (storage s) coll_name
          (dict_set (match dict_get (storage s) coll_name with
                     | Some d => d
                     | None => []
                     end) (file_name (id doc)) doc)),
     Ok tt).
Proof. intros H. unfold _save_document. now rewrite H. Qed.

Lemma save_hidden (host : Host) (s : t) (doc : VectorDocument)
  (coll_name name' : string) :
  in_collection_dir coll_name (id doc) = true ->
  hidden (id doc) = true ->
  snd (_save_document host s doc coll_name) = Ok tt
  /\ config (fst (_save_document host s doc coll_name)) = config s
  /\ _get_all_documents (fst (_save_document host s doc coll_name)) name'
     = _get_all_documents s name'.
Proof.
  intros Hdir H. rewrite <- file_name_hidden in H.
  rewrite (save_in_dir host s doc coll_name Hdir). cbn [fst snd].
  split; [reflexivity|]. split; [reflexivity|].
  unfold _get_all_documents. cbn [storage with_storage].
  rewrite dict_get_set. destruct (String.eqb_spec name' coll_name) as [-> | Hne];
    [|reflexivity].
  rewrite (listing_skips _ _ _ H).
  destruct (dict_get (storage s) coll_name); reflexivity.
Qed.

Lemma save_visible (host : Host) (s : t) (doc : VectorDocument) (coll_name : string) :
  in_collection_dir coll_name (id doc) = true ->
  hidden (id doc) = false ->
  In doc (_get_all_documents (fst (_save_document host s doc coll_name)) coll_name).
Proof.
  intros Hdir H. rewrite <- file_name_hidden in H.
  rewrite (save_in_dir host s doc coll_name Hdir). cbn [fst].
  unfold _get_all_documents. cbn [storage with_storage].
  rewrite dict_get_set, String.eqb_refl.
  apply in_map_iff. exists (file_name (id doc), doc). split; [reflexivity|].
  apply filter_In. split; [apply dict_set_In | now rewrite H].
Qed.

Lemma save_all_hidden (host : Host) (docs : list VectorDocument) (s : t)
  (coll_name : string) :
  Forall (fun d => in_collection_dir coll_name (id d) = true
                   /\ hidden (id d) = true) docs ->
  snd (save_all host s docs coll_name) = Ok tt
  /\ config (fst (save_all host s docs coll_name)) = config s
  /\ forall name', _get_all_documents (fst (save_all host s docs coll_name)) name'
                   = _get_all_documents s name'.
Proof.
  intros H. revert s. induction H as [|d docs [Hdir Hd] _ IH]; intros s;
    cbn [save_all].
  - repeat split.
  - pose proof (fun n => save_hidden host s d coll_name n Hdir Hd) as H1.
    destruct (_save_document host s d coll_name) as [s1 r].
    destruct (H1 coll_name) as (Hr & Hc & _). cbn [fst snd] in *. subst r.
    destruct (IH s1) as (Hr' & Hc' & Hl'). split; [exact Hr'|].
    split; [now rewrite Hc'|].
    intros name'. rewrite Hl'. now destruct (H1 name') as (_ & _ & ->).
Qed.

(** X18. The file-backed store accepts documents that it will not find
    again.  Where the collection name and the file name of each document
    are names of one directory entry (so that the file lands in the
    collection directory itself): a document whose id is empty or starts
    with a dot is written by [add_documents], which reports its id as
    added, but its file is skipped by the listing, so that
    [count_documents] and the documents that [search] ranks are the same
    before and after; a document with any other id is listed after it has
    been added. *)
Theorem file_store_hidden_ids (host : Host) (s : t) (docs : list VectorDocument)
  (collection : option string) :
  let coll_name := _get_collection_name (config s) collection in
  (Forall (fun d => in_collection_dir coll_name (id d) = true
                    /\ hidden (id d) = true) docs ->
   snd (add_documents host s docs collection) = Ok (map id docs)
   /\ (forall name',
         _get_all_documents (fst (add_documents host s docs collection)) name'
         = _get_all_documents s name')
   /\ (forall filters,
         snd (count_documents (fst (add_documents host s docs collection))
                collection filters)
         = snd (count_documents s collection filters)))
  /\ (forall doc,
        in_collection_dir coll_name (id doc) = true ->
        hidden (id doc) = false ->
        In doc (_get_all_documents (fst (add_documents host s [doc] collection))
                  coll_name)).
Proof.
  cbv zeta. split.
  - intros H.
    destruct (save_all_hidden host docs s _ H) as (Hr & Hc & Hl).
    unfold add_documents.
    destruct (save_all host s docs (_get_collection_name (config s) collection))
      as [s1 r].
    cbn [fst snd] in *. subst r. cbn [fst snd].
    split; [reflexivity|]. split; [exact Hl|].
    intros filters. unfold count_documents. cbn [snd]. now rewrite Hc, Hl.
  - intros doc Hdir H. unfold add_documents. cbn [save_all].
    pose proof (save_visible host s doc _ Hdir H) as Hin.
    rewrite (save_in_dir host s doc _ Hdir) in *. exact Hin.
Qed.

Lemma file_store_hidden_ids_witness :
  snd (add_documents refusing_host demo
         [mkDocument ".draft" [1; 0] "Draft" [] None;
          mkDocument "" [0; 1] "Untitled" [] None] None)
  = Ok [".draft"; ""]
  /\ snd (count_documents
            (fst (add_documents refusing_host demo
                    [mkDocument ".draft" [1; 0] "Draft" [] None;
                     mkDocument "" [0; 1] "Untitled" [] None] None))
            None None)
     = Ok 3%Z.
Proof.
  destruct (file_store_hidden_ids refusing_host demo
              [mkDocument ".draft" [1; 0] "Draft" [] None;
               mkDocument "" [0; 1] "Untitled" [] None] None) as [H _].
  destruct H as (H1 & _ & H3); [repeat constructor|].
  split; [exact H1 | rewrite H3; reflexivity].
Defined.

(** An id with a path separator is not a file of the collection directory:
    the write is the host's, and nothing is said here about where the
    listing finds it. *)
Lemma save_nested (host : Host) (s : t) (doc : VectorDocument) (coll_name : string) :
  contains "/" (id doc) = true ->
  _save_document host s doc coll_name
  = (with_storage s
       (fst (write_path host (storage s) coll_name (file_name (id doc)) doc)),
     snd (write_path host (storage s) coll_name (file_name (id doc)) doc)).
Proof.
  intros H. unfold _save_document.
  assert (E : in_collection_dir coll_name (id doc) = false).
  { unfold in_collection_dir, entry_name.
    assert (C : contains "/" (file_name (id doc)) = true).
    { unfold file_name.
      destruct (StringFacts.contains_elim _ _ H) as (a & b & ->).
      rewrite !StringFacts.append_assoc. apply StringFacts.contains_intro. }
    rewrite C. cbn. now rewrite !andb_false_r. }
  rewrite E. now destruct (write_path host _ _ _ _).
Qed.

End FileStoreFacts.

Module QdrantFacts.
Import Py PyFacts VectorStore StoreViews QdrantVectorStore QdrantViews.
Local Open Scope list_scope.

Lemma dict_set_fresh {V : Type} (d : list (string * V)) (k : string) (v : V) :
  ~ In k (dict_keys d) -> dict_set d k v = d ++ [(k, v)].
Proof.
  induction d as [|[k0 v0] d IH]; simpl; [reflexivity|].
  intros H. destruct (String.eqb_spec k k0) as [-> | Hne]; [tauto|].
  rewrite IH; [reflexivity | tauto].
Qed.

Lemma update_fresh {V : Type} (m acc : list (string * V)) :
  NoDup (dict_keys m) ->
  (forall k, In k (dict_keys m) -> ~ In k (dict_keys acc)) ->
  fold_left (fun d '(k, v) => dict_set d k v) m acc = acc ++ m.
Proof.
  revert acc. induction m as [|[k v] m IH]; intros acc Hnd Hdis; cbn [fold_left].
  - now rewrite app_nil_r.
  - inversion Hnd as [|? ? Hk Hnd']; subst.
    rewrite (dict_set_fresh acc k v) by (apply Hdis; now left).
    rewrite IH; [now rewrite <- app_assoc | exact Hnd'|].
    intros k' Hk' Hin. unfold dict_keys in Hin. rewrite map_app in Hin.
    apply in_app_or in Hin as [Hin | [<- | []]].
    + apply (Hdis k'); [now right | exact Hin].
    + now apply Hk.
Qed.

Lemma update_get {V : Type} (m acc : list (string * V)) (k : string) :
  NoDup (dict_keys m) ->
  dict_get (fold_left (fun d '(k, v) => dict_set d k v) m acc) k
  = match dict_get m k with
    | Some v => Some v
    | None => dict_get acc k
    end.
Proof.
  revert acc. induction m as [|[k0 v0] m IH]; intros acc Hnd; cbn [fold_left].
  - reflexivity.
  - inversion Hnd as [|? ? Hk Hnd']; subst. rewrite (IH _ Hnd'). simpl.
    destruct (String.eqb_spec k k0) as [-> | Hne].
    + apply dict_get_None in Hk. rewrite Hk. now rewrite dict_get_set, String.eqb_refl.
    + destruct (dict_get m k); [reflexivity|].
      rewrite dict_get_set. now destruct (String.eqb_spec k k0).
Qed.

(** X19. What the remote store sends comes back: for a document without
    extra payload whose metadata has no key named content, the point built
    by [_to_qdrant_point], returned by the service with a score and read by
    [_to_search_result], gives the id, the content and the metadata of the
    document.  A metadata key named content, however, takes the place of
    the document text in the point, and its value comes back as content. *)
Theorem qdrant_point_round_trip (doc : VectorDocument) (sc : float) :
  NoDup (dict_keys (metadata doc)) ->
  payload doc = None \/ payload doc = Some [] ->
  (~ In "content" (dict_keys (metadata doc)) ->
   result_id (returned doc sc) = id doc
   /\ score (returned doc sc) = sc
   /\ result_content (returned doc sc) = Some (content doc)
   /\ result_metadata (returned doc sc) = metadata doc)
  /\ (forall v, dict_get (metadata doc) "content" = Some v ->
        result_content (returned doc sc) = Some v).
Proof.
  intros Hnd Hp.
  assert (Hpay : point_payload (_to_qdrant_point doc)
                 = fold_left (fun d '(k, v) => dict_set d k v) (metadata doc)
                     [("content", content doc)]).
  { unfold _to_qdrant_point. destruct Hp as [-> | ->]; reflexivity. }
  unfold returned, _to_search_result. cbn [scored_id scored_score scored_payload].
  rewrite Hpay. split.
  - intros Hno. rewrite update_fresh.
    + cbn. repeat split.
    + exact Hnd.
    + intros k Hk [<- | []]. now apply Hno.
  - intros v Hv. cbn [result_content]. now rewrite (update_get _ _ _ Hnd), Hv.
Qed.

Lemma qdrant_point_round_trip_witness :
  result_content (returned doc_a (Num 1)) = Some "Road Traffic Act"
  /\ result_metadata (returned doc_a (Num 1)) = [("kind", "act")].
Proof.
  destruct (qdrant_point_round_trip doc_a (Num 1)) as [H _].
  - repeat constructor. simpl. tauto.
  - left. reflexivity.
  - destruct H as (_ & _ & H3 & H4).
    + simpl. intros [H | []]. discriminate H.
    + split; [exact H3 | exact H4].
Defined.

End QdrantFacts.

(* ================================================================== *)
(** * The in-process cache: fresh entries, prefixes and keys *)
(* ================================================================== *)

Module CacheMoreFacts.
Import Py PyFacts StringFacts InMemoryCache CacheViews CacheFacts.
Local Open Scope list_scope.
Local Open Scope Q_scope.

Lemma Qltb_ge (a b : Q) : a <= b -> Qltb b a = false.
Proof.
  intros H. destruct (Qltb b a) eqn:E; [|reflexivity].
  apply Qltb_lt in E. exfalso. now apply (Qlt_not_le _ _ E).
Qed.

Lemma mentions_keys {V : Type} (d : list (string * V)) (f : string * V -> bool)
  (k : string) :
  existsb (String.eqb k) (map fst (filter f d)) = true ->
  exists v, In (k, v) d /\ f (k, v) = true.
Proof.
  intros H. apply existsb_exists in H as (k' & Hin & Hk).
  apply String.eqb_eq in Hk. subst k'.
  apply in_map_iff in Hin as ([k0 v] & Hk0 & Hin). simpl in Hk0. subst k0.
  apply filter_In in Hin as [Hin Hf]. now exists v.
Qed.

Lemma sweep_keeps (s s1 : t) (key value : string) (e a : Q) :
  holds s key value e s1 -> a <= e -> holds s key value e (_cleanup_expired s1 a).
Proof.
  intros (Hi & Hnd & Hget & Hcfg) Ha. unfold _cleanup_expired.
  set (ks := map fst (filter (expired_before a) (_store s1))).
  destruct (dict_get_dels (_store s1) ks key Hnd) as [Hnd' Hget'].
  repeat split; simpl; auto.
  rewrite Hget'. destruct (existsb (String.eqb key) ks) eqn:E; [|exact Hget].
  exfalso. apply mentions_keys in E as ([v exp] & Hin & Hexp).
  apply (dict_In_get _ _ _ Hnd) in Hin. rewrite Hget in Hin. injection Hin as <- <-.
  unfold expired_before in Hexp. simpl in Hexp.
  rewrite (Qltb_ge _ _ Ha) in Hexp. discriminate.
Qed.

Lemma get_keeps (s s1 : t) (key value : string) (e : Q) (k : string) (a b : Q) :
  holds s key value e s1 -> a <= e -> (k = key -> b <= e) ->
  holds s key value e (fst (get s1 k a b))
  /\ (k = key -> snd (get s1 k a b) = Ok (Some value)).
Proof.
  intros H Ha Hb. pose proof (sweep_keeps s s1 key value e a H Ha) as H1.
  destruct H as (Hi & _). unfold get. rewrite Hi. cbn [negb].
  set (s2 := _cleanup_expired s1 a) in *.
  destruct H1 as (Hi2 & Hnd2 & Hget2 & Hcfg2).
  destruct (String.eqb_spec k key) as [-> | Hne].
  - rewrite Hget2, (Qltb_ge _ _ (Hb eq_refl)). cbn [fst snd].
    split; [repeat split; auto | reflexivity].
  - split; [|intros; contradiction].
    destruct (dict_get (_store s2) k) as [[v exp]|]; [|repeat split; auto].
    destruct (Qltb exp b); cbn [fst]; [|repeat split; auto].
    repeat split; simpl; auto.
    + now apply dict_del_NoDup.
    + rewrite dict_get_del_other; [exact Hget2 | congruence].
Qed.

Lemma step_keeps (s s1 : t) (key value : string) (e : Q) (op : Op) :
  holds s key value e s1 -> keeps s key e op -> holds s key value e (step s1 op).
Proof.
  intros H K. destruct op as [k a b | k v ttl_arg now | k | k a b | p];
    cbn [step keeps] in *.
  - destruct K as [Ha Hb]. now apply get_keeps.
  - destruct H as (Hi & Hnd & Hget & Hcfg). unfold set. rewrite Hi. cbn [negb fst].
    repeat split; simpl; auto.
    + now apply dict_set_NoDup.
    + rewrite dict_get_set. destruct (String.eqb_spec key k); [congruence | exact Hget].
  - destruct H as (Hi & Hnd & Hget & Hcfg). unfold delete. rewrite Hi. cbn [negb].
    destruct (dict_mem (_store s1) k); cbn [fst]; [|repeat split; auto].
    repeat split; simpl; auto.
    + now apply dict_del_NoDup.
    + rewrite dict_get_del_other; [exact Hget | congruence].
  - destruct K as [Ha Hb]. unfold exists_.
    pose proof (get_keeps s s1 key value e k a b H Ha Hb) as [G _].
    destruct (get s1 k a b) as [s2 [[v|]|ex]]; exact G.
  - destruct H as (Hi & Hnd & Hget & Hcfg). unfold clear_prefix. rewrite Hi.
    cbn [negb fst].
    set (ks := filter (startswith (full_prefix s1 p)) (dict_keys (_store s1))).
    destruct (dict_get_dels (_store s1) ks key Hnd) as [Hnd' Hget'].
    repeat split; simpl; auto.
    rewrite Hget'. destruct (existsb (String.eqb key) ks) eqn:E; [|exact Hget].
    exfalso. apply existsb_exists in E as (k' & Hin & Hk).
    apply String.eqb_eq in Hk. subst k'. apply filter_In in Hin as [_ Hp].
    unfold full_prefix in *. rewrite Hcfg in Hp. congruence.
Qed.

Lemma steps_keep (s : t) (key value : string) (e : Q) (ops : list Op) (s1 : t) :
  holds s key value e s1 -> Forall (keeps s key e) ops ->
  holds s key value e (steps s1 ops).
Proof.
  intros H Hall. revert s1 H. induction Hall as [|op ops Hop _ IH]; intros s1 H.
  - exact H.
  - apply IH. now apply step_keeps.
Qed.

(** X20. A fresh entry is served: after [set(key, value, ttl)] at time t0
    on the initialised in-process cache, [get(key)] returns the value at
    every time up to and including the expiry t0 + ttl (the default ttl when
    none or 0 is given), through any operations in between that do not
    store under the key, delete it or clear a prefix of it and that read the
    clock no later than the expiry. *)
Theorem fresh_entry_served (s : t) (key value : string) (ttl_arg : option Z)
  (t0 : Q) (ops : list Op) (now_sweep now_check : Q) :
  _initialized s = true ->
  NoDup (dict_keys (_store s)) ->
  let e := t0 + inject_Z (effective_ttl s ttl_arg) in
  Forall (keeps s key e) ops ->
  now_sweep <= e -> now_check <= e ->
  snd (get (steps (fst (set s key value ttl_arg t0)) ops) key now_sweep now_check)
  = Ok (Some value).
Proof.
  intros Hi Hnd e Hops Ha Hb.
  assert (H0 : holds s key value e (fst (set s key value ttl_arg t0))).
  { unfold set. rewrite Hi. cbn [negb fst]. repeat split; simpl; auto.
    - now apply dict_set_NoDup.
    - now rewrite dict_get_set, String.eqb_refl. }
  pose proof (steps_keep s key value e ops _ H0 Hops) as H1.
  now apply (get_keeps s _ key value e key now_sweep now_check H1 Ha (fun _ => Hb)).
Qed.

Lemma fresh_entry_served_witness :
  snd (get (steps (fst (set demo "k" "v" (Some 60%Z) 100))
              [OpGet "k" 120 120; OpSet "other" "x" None 130; OpDelete "gone";
               OpClearPrefix "laws"])
         "k" 160 160)
  = Ok (Some "v").
Proof.
  apply (fresh_entry_served demo "k" "v" (Some 60%Z) 100
           [OpGet "k" 120 120; OpSet "other" "x" None 130; OpDelete "gone";
            OpClearPrefix "laws"] 160 160).
  - reflexivity.
  - constructor.
  - repeat constructor; simpl; try discriminate; intros _; discriminate.
  - discriminate.
  - discriminate.
Defined.


(** ** Clearing a prefix *)

Lemma mentions_filter (P : string -> bool) (keys : list string) (k : string) :
  existsb (String.eqb k) (filter P keys) = P k && existsb (String.eqb k) keys.
Proof.
  induction keys as [|x keys IH]; cbn [filter existsb].
  - now rewrite andb_false_r.
  - destruct (P x) eqn:Px; cbn [existsb]; rewrite IH.
    + destruct (String.eqb_spec k x) as [-> | Hne]; [now rewrite Px | reflexivity].
    + destruct (String.eqb_spec k x) as [-> | Hne]; [now rewrite Px | reflexivity].
Qed.

Lemma mentions_keys_get {V : Type} (d : list (string * V)) (k : string) :
  existsb (String.eqb k) (dict_keys d) = dict_mem d k.
Proof.
  unfold dict_mem. induction d as [|[k0 v0] d IH]; simpl; [reflexivity|].
  destruct (String.eqb k k0); [reflexivity | exact IH].
Qed.

Lemma dels_length {V : Type} (ks : list string) (d : list (string * V)) :
  NoDup ks -> (forall k, In k ks -> dict_mem d k = true) ->
  (List.length (fold_left (fun d key => dict_del d key) ks d) + List.length ks
   = List.length d)%nat.
Proof.
  intros Hnd. revert d. induction Hnd as [|k ks Hk Hnd IH]; intros d Hin;
    cbn [fold_left List.length].
  - lia.
  - assert (Hm : dict_mem d k = true) by (apply Hin; now left).
    assert (Hd : S (List.length (dict_del d k)) = List.length d).
    { clear -Hm. unfold dict_mem in Hm.
      induction d as [|[k0 v0] d IHd]; simpl in *; [discriminate|].
      destruct (String.eqb k k0); [reflexivity|]. simpl. now rewrite IHd. }
    assert (Hrest : forall k', In k' ks -> dict_mem (dict_del d k) k' = true).
    { intros k' Hk'. unfold dict_mem. rewrite dict_get_del_other.
      - apply Hin. now right.
      - intros ->. contradiction. }
    specialize (IH (dict_del d k) Hrest). lia.
Qed.

Lemma NoDup_filter {A : Type} (f : A -> bool) (l : list A) :
  NoDup l -> NoDup (filter f l).
Proof.
  induction 1 as [|x l Hx Hnd IH]; simpl; [constructor|].
  destruct (f x); [|exact IH]. constructor; [|exact IH].
  intros H. apply filter_In in H. tauto.
Qed.

Lemma clear_prefix_spec (s : t) (logical : string) :
  _initialized s = true -> NoDup (dict_keys (_store s)) ->
  exists s',
    clear_prefix s logical
    = (s', Ok (Z.of_nat (List.length
                           (filter (startswith (full_prefix s logical))
                              (dict_keys (_store s))))))
    /\ (forall k, dict_get (_store s') k
                  = if startswith (full_prefix s logical) k then None
                    else dict_get (_store s) k)
    /\ (List.length (_store s')
         + List.length (filter (startswith (full_prefix s logical))
                          (dict_keys (_store s)))
        = List.length (_store s))%nat
    /\ NoDup (dict_keys (_store s'))
    /\ _initialized s' = true
    /\ config s' = config s.
Proof.
  intros Hi Hnd. unfold clear_prefix. rewrite Hi. cbn [negb].
  set (ks := filter (startswith (full_prefix s logical)) (dict_keys (_store s))).
  eexists. split; [reflexivity|]. cbn [_store with_store _initialized config].
  destruct (dict_get_dels (_store s) ks) with (k := "") as [Hnd' _]; [exact Hnd|].
  repeat split; auto.
  - intros k. destruct (dict_get_dels (_store s) ks k Hnd) as [_ ->].
    unfold ks. rewrite mentions_filter, mentions_keys_get.
    destruct (startswith (full_prefix s logical) k); [|reflexivity].
    cbn [andb]. unfold dict_mem. destruct (dict_get (_store s) k); reflexivity.
  - apply dels_length.
    + unfold ks. now apply NoDup_filter.
    + intros k Hk. unfold ks in Hk. apply filter_In in Hk as [Hk _].
      rewrite <- mentions_keys_get. apply existsb_exists. exists k.
      split; [exact Hk | apply String.eqb_refl].
Qed.

(** X21. [clear_prefix(p)] of the initialised in-process cache removes
    exactly the keys that start with [<config prefix>:p:]: afterwards none
    of them is stored, every other entry is as before, and the number
    returned is the number of entries removed. *)
Theorem clear_prefix_exact (s s' : t) (logical : string) (n : Z) :
  _initialized s = true ->
  NoDup (dict_keys (_store s)) ->
  clear_prefix s logical = (s', Ok n) ->
  (forall k, dict_get (_store s') k
             = if startswith (full_prefix s logical) k then None
               else dict_get (_store s) k)
  /\ (Z.of_nat (List.length (_store s)) = Z.of_nat (List.length (_store s')) + n)%Z
  /\ n = Z.of_nat (List.length (filter (startswith (full_prefix s logical))
                                  (dict_keys (_store s)))).
Proof.
  intros Hi Hnd Hrun.
  destruct (clear_prefix_spec s logical Hi Hnd) as (s1 & E & Hget & Hlen & _).
  rewrite E in Hrun. injection Hrun as <- <-.
  repeat split; [exact Hget | lia].
Qed.

Lemma clear_prefix_exact_witness :
  exists s',
    clear_prefix (steps demo [OpSet "law_search:q:tax" "r1" None 0;
                              OpSet "law_search:detail:1" "r2" None 0;
                              OpSet "law_search:q:road" "r3" None 0]) "q"
    = (s', Ok 2%Z)
    /\ dict_get (_store s') "law_search:q:tax" = None
    /\ dict_get (_store s') "law_search:detail:1" = Some ("r2", 0 + inject_Z 3600).
Proof.
  set (s := steps demo [OpSet "law_search:q:tax" "r1" None 0;
                        OpSet "law_search:detail:1" "r2" None 0;
                        OpSet "law_search:q:road" "r3" None 0]).
  destruct (clear_prefix s "q") as [s' r] eqn:E.
  assert (Hr : r = Ok 2%Z) by (vm_compute in E; now inversion E).
  subst r. exists s'. split; [reflexivity|].
  assert (Hnd : NoDup (dict_keys (_store s))).
  { vm_compute. repeat constructor; simpl; intuition discriminate. }
  destruct (clear_prefix_exact s s' "q" 2 eq_refl Hnd E) as (Hget & _).
  split; [exact (Hget "law_search:q:tax") | exact (Hget "law_search:detail:1")].
Defined.

(** ** Keys *)

Lemma join_two_more (sep a b c : string) (rest : list string) :
  join sep (a :: b :: c :: rest)
  = String.append (String.append a (String.append sep (String.append b sep)))
      (join sep (c :: rest)).
Proof.
  unfold join. cbn [String.concat]. now rewrite !append_assoc.
Qed.

Lemma set_last_cons (c : string) (rest : list string) (x : string) :
  exists c' rest', set_last (c :: rest) x = c' :: rest'.
Proof.
  destruct rest as [|d rest]; simpl; eauto.
Qed.

Lemma make_key_prefix (md5_hex : string -> string) (s : t) (logical : string)
  (args : list string) :
  args <> [] ->
  startswith (full_prefix s logical) (_make_key md5_hex s logical args) = true.
Proof.
  intros Hne. destruct args as [|c rest]; [congruence|].
  unfold _make_key, full_prefix. cbv zeta.
  destruct (len _ >? 250)%Z.
  - cbn [set_last].
    destruct (set_last_cons c rest
                (md5_hex (join ":" (prefix (config s) :: logical :: c :: rest))))
      as (c' & rest' & E).
    replace (match rest with
             | [] => [md5_hex (join ":" (prefix (config s) :: logical :: c :: rest))]
             | _ :: _ => c :: set_last rest
                             (md5_hex (join ":" (prefix (config s) :: logical :: c :: rest)))
             end) with (c' :: rest') by (rewrite <- E; destruct rest; reflexivity).
    rewrite join_two_more. apply startswith_app.
  - rewrite join_two_more. apply startswith_app.
Qed.

Lemma get_absent (s : t) (key : string) (a b : Q) :
  _initialized s = true -> NoDup (dict_keys (_store s)) ->
  dict_get (_store s) key = None -> snd (get s key a b) = Ok None.
Proof.
  intros Hi Hnd Hget. unfold get. rewrite Hi. cbn [negb].
  unfold _cleanup_expired. cbn [_store with_store].
  destruct (dict_get_dels (_store s)
              (map fst (filter (expired_before a) (_store s))) key Hnd) as [_ ->].
  rewrite Hget. now destruct (existsb _ _).
Qed.

(** X22. Keys built by [_make_key] with at least one argument stay under
    their logical prefix, also when the key is long and its last part is
    replaced by a digest; so an entry stored under such a key is removed by
    [clear_prefix] of that prefix and is absent afterwards. *)
Theorem made_key_cleared (md5_hex : string -> string) (s : t)
  (logical : string) (args : list string) (value : string) (ttl_arg : option Z)
  (t0 : Q) :
  _initialized s = true ->
  NoDup (dict_keys (_store s)) ->
  args <> [] ->
  let key := _make_key md5_hex s logical args in
  startswith (full_prefix s logical) key = true
  /\ exists s' n,
       clear_prefix (fst (set s key value ttl_arg t0)) logical = (s', Ok n)
       /\ (1 <= n)%Z
       /\ forall a b, snd (get s' key a b) = Ok None.
Proof.
  intros Hi Hnd Hargs key.
  pose proof (make_key_prefix md5_hex s logical args Hargs) as Hp. fold key in Hp.
  split; [exact Hp|].
  set (s1 := fst (set s key value ttl_arg t0)).
  assert (H1 : _initialized s1 = true /\ NoDup (dict_keys (_store s1))
               /\ dict_mem (_store s1) key = true /\ config s1 = config s).
  { unfold s1, set. rewrite Hi. cbn [negb fst]. repeat split; simpl.
    - exact Hi.
    - now apply dict_set_NoDup.
    - unfold dict_mem. now rewrite dict_get_set, String.eqb_refl. }
  destruct H1 as (Hi1 & Hnd1 & Hm1 & Hc1).
  destruct (clear_prefix_spec s1 logical Hi1 Hnd1)
    as (s' & E & Hget & _ & Hnd' & Hi' & _).
  assert (Hfp : full_prefix s1 logical = full_prefix s logical).
  { unfold full_prefix. now rewrite Hc1. }
  rewrite Hfp in *.
  eexists s', _. split; [exact E|]. split.
  - assert (Hin : In key (filter (startswith (full_prefix s logical))
                            (dict_keys (_store s1)))).
    { apply filter_In. split; [|exact Hp].
      rewrite <- mentions_keys_get in Hm1.
      apply existsb_exists in Hm1 as (k' & Hk' & Hk). apply String.eqb_eq in Hk.
      now subst k'. }
    destruct (filter _ (dict_keys (_store s1))); [contradiction | simpl; lia].
  - intros a b. apply (get_absent s' key a b Hi' Hnd').
    now rewrite Hget, Hp.
Qed.

Lemma made_key_cleared_witness :
  startswith "law_search:q:" (_make_key (fun _ => "d41d8cd9") demo "q" ["road"; "10"])
  = true.
Proof.
  destruct (made_key_cleared (fun _ => "d41d8cd9") demo "q" ["road"; "10"] "r" None 0
              eq_refl (NoDup_nil _)) as [H _].
  - discriminate.
  - exact H.
Defined.

End CacheMoreFacts.

(* ================================================================== *)
(** * The remote aggregation *)
(* ================================================================== *)

Module CollectorFacts.
Import Py PyFacts Collector CollectorViews.
Local Open Scope list_scope.

Lemma flat_map_combine {A B C : Type} (f : A -> B) (g : A -> B -> list C)
  (l : list A) :
  flat_map (fun '(a, b) => g a b) (combine l (map f l))
  = flat_map (fun a => g a (f a)) l.
Proof.
  induction l as [|a l IH]; simpl; [reflexivity | now rewrite IH].
Qed.

Lemma search_law_gathered
  (fetch_law_for_query : string -> Z -> result (list RawLaw.t))
  (query : string) (top_k : Z) :
  search_law fetch_law_for_query query top_k
  = slice_to (gathered fetch_law_for_query query top_k) top_k.
Proof.
  unfold search_law, gathered, per_query.
  destruct (to_query_list query) as [|q qs] eqn:Q.
  - unfold slice_to. cbn [flat_map]. rewrite !firstn_nil. now destruct (top_k <? 0)%Z.
  - f_equal.
    apply (flat_map_combine
             (fun q0 => fetch_law_for_query q0
                          (Z.max 1 (top_k / Z.of_nat (List.length (q :: qs)))))
             tag_results).
Qed.

Lemma gathered_In
  (fetch_law_for_query : string -> Z -> result (list RawLaw.t))
  (query : string) (top_k : Z) (item : CollectorItem.t) :
  In item (gathered fetch_law_for_query query top_k)
  <-> In (CollectorItem.search_term item) (to_query_list query)
      /\ exists laws,
           fetch_law_for_query (CollectorItem.search_term item)
             (per_query query top_k) = Ok laws
           /\ In (CollectorItem.law item) laws.
Proof.
  unfold gathered. rewrite in_flat_map. split.
  - intros (q & Hq & Hin). unfold tag_results in Hin.
    destruct (fetch_law_for_query q (per_query query top_k)) as [laws|e] eqn:F;
      [|contradiction].
    apply in_map_iff in Hin as (l & <- & Hl). simpl. split; [exact Hq|].
    exists laws. now split.
  - intros (Hq & laws & F & Hl). exists (CollectorItem.search_term item).
    split; [exact Hq|]. unfold tag_results. rewrite F.
    apply in_map_iff. exists (CollectorItem.law item). split; [|exact Hl].
    now destruct item.
Qed.

(** X23. [search_law] isolates the failures of its sub-queries and keeps
    the provenance of what it returns: every record returned is tagged with
    a sub-query of the query whose fetch succeeded and delivered that
    record, so a sub-query whose fetch raised contributes nothing and takes
    nothing away from the others; and when all that was delivered fits
    into [top_k], every delivered record is returned, in the order of the
    sub-queries. *)
Theorem search_law_provenance
  (fetch_law_for_query : string -> Z -> result (list RawLaw.t))
  (query : string) (top_k : Z) :
  (forall item, In item (search_law fetch_law_for_query query top_k) ->
     In (CollectorItem.search_term item) (to_query_list query)
     /\ exists laws,
          fetch_law_for_query (CollectorItem.search_term item)
            (per_query query top_k) = Ok laws
          /\ In (CollectorItem.law item) laws)
  /\ ((Z.of_nat (List.length (gathered fetch_law_for_query query top_k)) <= top_k)%Z ->
      search_law fetch_law_for_query query top_k
      = gathered fetch_law_for_query query top_k)
  /\ (forall q laws law,
        (Z.of_nat (List.length (gathered fetch_law_for_query query top_k)) <= top_k)%Z ->
        In q (to_query_list query) ->
        fetch_law_for_query q (per_query query top_k) = Ok laws ->
        In law laws ->
        In (CollectorItem.mk q law) (search_law fetch_law_for_query query top_k)).
Proof.
  rewrite search_law_gathered. repeat split.
  - apply slice_to_incl in H. now apply gathered_In in H.
  - apply slice_to_incl in H. now apply gathered_In in H.
  - intros H. now apply slice_to_all.
  - intros q laws law Hfit Hq F Hl. rewrite slice_to_all by exact Hfit.
    apply gathered_In. simpl. split; [exact Hq|]. now exists laws.
Qed.

Lemma search_law_provenance_witness :
  search_law flaky_fetch "road, tax, civil" 10
  = [CollectorItem.mk "road" (Main.plain_raw "L1" "road");
     CollectorItem.mk "civil" (Main.plain_raw "L1" "civil")].
Proof.
  destruct (search_law_provenance flaky_fetch "road, tax, civil" 10) as (_ & H & _).
  rewrite H; [reflexivity | vm_compute; discriminate].
Defined.

End CollectorFacts.

(* ================================================================== *)
(** * The listing endpoint: guard, failures and pagination *)
(* ================================================================== *)

Module ListLawsFacts.
Import Py PyFacts Db ListLaws.
Local Open Scope list_scope.
Local Open Scope Z_scope.

Lemma invalid_spec (p : Params) :
  invalid p = true <-> page p < 1 \/ page_size p < 1 \/ 100 < page_size p.
Proof.
  unfold invalid. rewrite !orb_true_iff, !Z.ltb_lt, Z.gtb_ltb, Z.ltb_lt. tauto.
Qed.

(** X24. [list_laws] answers HTTP 400 exactly when [page < 1],
    [page_size < 1] or [page_size > 100], and then before any statement is
    executed; with valid parameters it counts first and selects second, and
    answers HTTP 503 with the text of the exception exactly when one of the
    two statements raises, the selection not being attempted after a failed
    count; otherwise it returns one item per selected row, in order. *)
Theorem list_laws_outcomes (env : Env) (p : Params) :
  (page p < 1 \/ page_size p < 1 \/ 100 < page_size p ->
   list_laws env p = ([], ValidationError (page p) (page_size p)))
  /\ (1 <= page p -> 1 <= page_size p <= 100 ->
      match scalar_count env (filters_of p), execute_page env (statement p) with
      | Raise e, _ =>
          list_laws env p = ([Counted (filters_of p)], ServiceUnavailable (exn_str e))
      | Ok _, Raise e =>
          list_laws env p
          = ([Counted (filters_of p); Listed (statement p)],
             ServiceUnavailable (exn_str e))
      | Ok _, Ok rows =>
          exists r,
            list_laws env p
            = ([Counted (filters_of p); Listed (statement p)], Returned r)
            /\ items r = map to_item rows
            /\ pagination_page (pagination r) = page p
            /\ pagination_page_size (pagination r) = page_size p
      end).
Proof.
  split.
  - intros H. apply invalid_spec in H. unfold list_laws. now rewrite H.
  - intros H1 H2.
    assert (Hv : invalid p = false).
    { destruct (invalid p) eqn:E; [|reflexivity]. apply invalid_spec in E. lia. }
    unfold list_laws. rewrite Hv.
    destruct (scalar_count env (filters_of p)) as [c|e]; [|reflexivity].
    destruct (execute_page env (statement p)) as [rows|e]; [|reflexivity].
    eexists. split; [reflexivity|]. repeat split.
Qed.

Lemma list_laws_outcomes_witness :
  list_laws (table_env Main.demo_table) (first_page 0)
  = ([], ValidationError 1 0)
  /\ exists r, list_laws (table_env Main.demo_table) (first_page 1)
               = ([Counted []; Listed (statement (first_page 1))], Returned r)
               /\ map item_law_id (items r) = ["L1"%string].
Proof.
  destruct (list_laws_outcomes (table_env Main.demo_table) (first_page 0)) as [H0 _].
  destruct (list_laws_outcomes (table_env Main.demo_table) (first_page 1)) as [_ H1].
  split.
  - apply H0. right. left. reflexivity.
  - specialize (H1 ltac:(discriminate) ltac:(split; discriminate)).
    destruct H1 as (r & Hr & Hitems & _). exists r. split; [exact Hr|].
    rewrite Hitems. reflexivity.
Defined.

Lemma total_pages_ceiling (total page_size : Z) :
  0 <= total -> 1 <= page_size ->
  (total_pages_of total page_size - 1) * page_size < total
    \/ (total = 0 /\ total_pages_of total page_size = 0).
Proof.
  intros Ht Hp. unfold total_pages_of. destruct (Z.eqb_spec total 0) as [-> | Hne].
  - now right.
  - left. pose proof (Z.div_mod (total + page_size - 1) page_size ltac:(lia)).
    pose proof (Z.mod_pos_bound (total + page_size - 1) page_size ltac:(lia)). nia.
Qed.

Lemma total_pages_cover (total page_size : Z) :
  0 <= total -> 1 <= page_size ->
  total <= total_pages_of total page_size * page_size
  /\ 0 <= total_pages_of total page_size.
Proof.
  intros Ht Hp. unfold total_pages_of. destruct (Z.eqb_spec total 0) as [-> | Hne].
  - lia.
  - pose proof (Z.div_mod (total + page_size - 1) page_size ltac:(lia)).
    pose proof (Z.mod_pos_bound (total + page_size - 1) page_size ltac:(lia)).
    split; [nia|]. apply Z.div_pos; lia.
Qed.

Lemma pagination_of_run (env : Env) (p : Params) (log : list Event)
  (r : LawListResponse) :
  list_laws env p = (log, Returned r) ->
  1 <= page_size p <= 100
  /\ In (Listed (statement p)) log
  /\ total_pages (pagination r)
     = total_pages_of (total_items (pagination r)) (page_size p)
  /\ (forall n, scalar_count env (filters_of p) = Ok (Some n) ->
                total_items (pagination r) = n)
  /\ (scalar_count env (filters_of p) = Ok None -> total_items (pagination r) = 0).
Proof.
  unfold list_laws. destruct (invalid p) eqn:Hv; [discriminate|].
  assert (Hps : 1 <= page_size p <= 100).
  { destruct (Z_lt_dec (page_size p) 1) as [H | H];
      [assert (invalid p = true) by (apply invalid_spec; tauto); congruence|].
    destruct (Z_lt_dec 100 (page_size p)) as [H' | H'];
      [assert (invalid p = true) by (apply invalid_spec; tauto); congruence|].
    lia. }
  destruct (scalar_count env (filters_of p)) as [c|e]; [|discriminate].
  destruct (execute_page env (statement p)) as [rows|e]; [|discriminate].
  intros [= <- <-]. cbn. repeat split; try lia; try tauto.
  - intros n [= ->]. reflexivity.
  - intros [= ->]. reflexivity.
Qed.

(** X25. The pagination of [list_laws] tiles the result set: with
    [total_items >= 0] rows counted, [total_pages] is 0 when there is no row
    and otherwise the number of the last page that is not empty; the
    statement of page n asks for the rows from [(n - 1) * page_size], at most
    [page_size] of them; and every row index below [total_items] lies in
    the window of exactly one page, which is between 1 and [total_pages]. *)
Theorem list_laws_pagination (env : Env) (p : Params) (log : list Event)
  (r : LawListResponse) :
  list_laws env p = (log, Returned r) ->
  0 <= total_items (pagination r) ->
  let size := page_size p in
  let total := total_items (pagination r) in
  let pages := total_pages (pagination r) in
  offset (statement p) = (page p - 1) * size
  /\ page_limit (statement p) = size
  /\ (total = 0 -> pages = 0)
  /\ (0 < total -> 1 <= pages /\ (pages - 1) * size < total <= pages * size)
  /\ (forall i, 0 <= i < total ->
        exists n, 1 <= n <= pages /\ in_window size n i
                  /\ forall n', in_window size n' i -> n' = n).
Proof.
  intros Hrun Htot. cbv zeta.
  destruct (pagination_of_run env p log r Hrun) as (Hsize & _ & Hpages & _).
  rewrite Hpages.
  set (size := page_size p) in *. set (total := total_items (pagination r)) in *.
  destruct (total_pages_ceiling total size Htot ltac:(lia)) as [Hc | [Hz Hz']];
    pose proof (total_pages_cover total size Htot ltac:(lia)) as [Hcov Hnn].
  - split; [reflexivity|]. split; [reflexivity|]. split.
    + intros ->. unfold total_pages_of. reflexivity.
    + split.
      * intros Hpos. split; [nia | lia].
      * intros i Hi. exists (i / size + 1).
        pose proof (Z.div_mod i size ltac:(lia)).
        pose proof (Z.mod_pos_bound i size ltac:(lia)).
        unfold in_window. repeat split; nia.
  - split; [reflexivity|]. split; [reflexivity|]. split; [auto|].
    split; [lia|]. intros i Hi. lia.
Qed.

Lemma list_laws_pagination_witness :
  exists log r,
    list_laws (table_env Main.demo_table) (first_page 1) = (log, Returned r)
    /\ total_pages (pagination r) = 2
    /\ exists n, 1 <= n <= 2 /\ in_window 1 n 1.
Proof.
  destruct (list_laws (table_env Main.demo_table) (first_page 1)) as [log o] eqn:E.
  destruct o as [r | a b | c]; try (vm_compute in E; discriminate E).
  assert (Hp : total_pages (pagination r) = 2 /\ total_items (pagination r) = 2).
  { vm_compute in E. inversion E. split; reflexivity. }
  destruct Hp as [Hp Ht].
  exists log, r. split; [reflexivity|]. split; [exact Hp|].
  destruct (list_laws_pagination (table_env Main.demo_table) (first_page 1) log r E)
    as (_ & _ & _ & _ & H); [rewrite Ht; discriminate|].
  destruct (H 1) as (n & Hn & Hw & _); [rewrite Ht; lia|].
  exists n. rewrite Hp in Hn. split; [exact Hn | exact Hw].
Defined.

End ListLawsFacts.

(* ================================================================== *)
(** * The detail endpoint: what is served and how it fails *)
(* ================================================================== *)

Module LawDetailFacts.
Import Py PyFacts LawDetail.
Local Open Scope list_scope.

Lemma best_effort_shape (env : Env) (d : Detail) :
  exists tail, best_effort env d = CacheDetail d :: tail
               /\ List.length (filter is_cache tail) = 0%nat
               /\ List.length (filter is_fetch tail) = 0%nat.
Proof.
  unfold best_effort.
  destruct (cache_detail env d); [destruct (commit env)|]; eexists; repeat split.
Qed.

Lemma detail_failures (env : Env) (id : string) (ia ift : bool) :
  let looked := lookup env id ia ift in
  let fetched := fetch env id ia ift in
  let nothing_local :=
    match looked with Ok (Some _) => false | _ => true end in
  match snd (get_law_detail env id ia ift) with
  | ServiceUnavailable cause =>
      law_api_key env = ""
      /\ exists e, looked = Raise e /\ cause = exn_str e
  | Uncaught e =>
      law_api_key env <> "" /\ nothing_local = true /\ fetched = Raise e
  | NotFound id' =>
      id' = id
      /\ ((law_api_key env = "" /\ looked = Ok None)
          \/ looked = Ok (Some [])
          \/ (law_api_key env <> "" /\ nothing_local = true /\ fetched = Ok []))
  | Served r =>
      (source r = "postgres" /\ looked = Ok (Some (detail r)) /\ detail r <> []
       /\ fst (get_law_detail env id ia ift) = [Lookup id])
      \/ (source r = "law.go.kr" /\ law_api_key env <> "" /\ nothing_local = true
          /\ fetched = Ok (detail r) /\ detail r <> []
          /\ exists tail,
               fst (get_law_detail env id ia ift)
               = Lookup id :: Fetch id :: CacheDetail (detail r) :: tail
               /\ List.length (filter is_cache tail) = 0%nat)
  end
  /\ (match snd (get_law_detail env id ia ift) with
      | Served _ => True
      | _ => List.length (filter is_cache (fst (get_law_detail env id ia ift))) = 0%nat
      end).
Proof.
  cbv zeta. unfold get_law_detail.
  destruct (lookup env id ia ift) as [[d|]|e] eqn:L.
  - unfold finish. destruct d as [|x d]; cbn.
    + split; [|reflexivity]. split; [reflexivity|]. right. now left.
    + split; [|exact I]. left. repeat split. discriminate.
  - destruct (law_api_key env) as [|c k] eqn:K; cbn [is_empty].
    + cbn. split; [|reflexivity]. split; [reflexivity|]. now left.
    + destruct (fetch env id ia ift) as [d|e] eqn:F.
      * destruct d as [|x d]; cbn [truthy].
        -- unfold finish. cbn. split; [|reflexivity]. split; [reflexivity|].
           right. right. repeat split. discriminate.
        -- destruct (best_effort_shape env (x :: d)) as (tail & -> & Hc & _).
           unfold finish. cbn [truthy snd fst detail source].
           split; [|exact I]. right. repeat split; try discriminate.
           now exists tail.
      * cbn. repeat split. discriminate.
  - destruct (law_api_key env) as [|c k] eqn:K; cbn [is_empty].
    + unfold finish. rewrite K. cbn. split; [|reflexivity].
      split; [reflexivity|]. now exists e.
    + destruct (fetch env id ia ift) as [d|e'] eqn:F.
      * destruct d as [|x d]; cbn [truthy].
        -- unfold finish. rewrite K. cbn. split; [|reflexivity]. split; [reflexivity|].
           right. right. repeat split. discriminate.
        -- destruct (best_effort_shape env (x :: d)) as (tail & -> & Hc & _).
           unfold finish. cbn [truthy snd fst detail source].
           split; [|exact I]. right. repeat split; try discriminate.
           now exists tail.
      * cbn. repeat split. discriminate.
Qed.

(** X26. [get_law_detail] fails in three ways only.  HTTP 503 is answered
    exactly when the lookup in the persistent store raised and no API key
    is set.  With an API key, an exception of the remote fetch is not
    caught by the endpoint.  In every other case without a record -- also
    when the persistent store raised but an API key is set and the remote
    source has no record -- the answer is HTTP 404 for the requested id.
    Nothing is written back on any of these paths. *)
Theorem get_law_detail_failures (env : Env) (id : string) (ia ift : bool)
  (log : list Event) (o : Outcome) :
  get_law_detail env id ia ift = (log, o) ->
  (forall r, o <> Served r) ->
  List.length (filter is_cache log) = 0%nat
  /\ match o with
     | ServiceUnavailable cause =>
         law_api_key env = ""
         /\ exists e, lookup env id ia ift = Raise e /\ cause = exn_str e
     | Uncaught e =>
         law_api_key env <> ""
         /\ (forall d, lookup env id ia ift <> Ok (Some d))
         /\ fetch env id ia ift = Raise e
     | NotFound id' =>
         id' = id
         /\ ((law_api_key env = "" /\ lookup env id ia ift = Ok None)
             \/ lookup env id ia ift = Ok (Some [])
             \/ (law_api_key env <> ""
                 /\ (forall d, lookup env id ia ift <> Ok (Some d))
                 /\ fetch env id ia ift = Ok []))
     | Served _ => False
     end.
Proof.
  intros Hrun Hns. pose proof (detail_failures env id ia ift) as [H Hw].
  rewrite Hrun in H, Hw. cbn [fst snd] in H, Hw.
  assert (Hloc : match lookup env id ia ift with Ok (Some _) => false | _ => true end
                 = true -> forall d, lookup env id ia ift <> Ok (Some d)).
  { intros Hn d E. rewrite E in Hn. discriminate. }
  destruct o as [r | id' | cause | e].
  - now elim (Hns r).
  - split; [exact Hw|]. destruct H as [-> H]. split; [reflexivity|].
    destruct H as [H | [H | (H1 & H2 & H3)]].
    + now left.
    + right. now left.
    + right. right. split; [exact H1|]. split; [now apply Hloc | exact H3].
  - split; [exact Hw | exact H].
  - split; [exact Hw|]. destruct H as (H1 & H2 & H3).
    split; [exact H1|]. split; [now apply Hloc | exact H3].
Qed.

Lemma get_law_detail_failures_witness :
  get_law_detail db_down_remote_empty "L1" true false
  = ([Lookup "L1"; Fetch "L1"], NotFound "L1")
  /\ fetch db_down_remote_empty "L1" true false = Ok [].
Proof.
  destruct (get_law_detail_failures db_down_remote_empty "L1" true false
              [Lookup "L1"; Fetch "L1"] (NotFound "L1") eq_refl) as [_ [_ H]].
  - discriminate.
  - split; [reflexivity|].
    destruct H as [[H _] | [H | (_ & _ & H)]];
      [discriminate H | discriminate H | exact H].
Defined.

Lemma get_or_nonempty (d : Detail) (key fallback : string) :
  fallback <> "" -> get_or d key fallback <> "".
Proof.
  intros H. unfold get_or. destruct (dict_get d key) as [[|c v]|]; simpl; auto.
  discriminate.
Qed.

Lemma served_fields (env : Env) (id : string) (ia ift : bool) (r : Response) :
  snd (get_law_detail env id ia ift) = Served r ->
  law_id r = get_or (detail r) "law_id" id
  /\ law_name_kr r = get_or (detail r) "law_name_kr" id.
Proof.
  unfold get_law_detail, finish.
  destruct (lookup env id ia ift) as [[d|]|e].
  - destruct (truthy d); cbn; [intros [= <-]; now split | discriminate].
  - destruct (is_empty (law_api_key env)); [cbn; discriminate|].
    destruct (fetch env id ia ift) as [d|e]; [|cbn; discriminate].
    destruct (truthy d) eqn:T; cbn; rewrite ?T; [intros [= <-]; now split | discriminate].
  - destruct (is_empty (law_api_key env)); [cbn; discriminate|].
    destruct (fetch env id ia ift) as [d|e']; [|cbn; discriminate].
    destruct (truthy d) eqn:T; cbn; rewrite ?T; [intros [= <-]; now split|].
    destruct (is_empty (law_api_key env)); discriminate.
Qed.

(** X27. What [get_law_detail] serves comes from one of two places.  A
    record of the persistent store is served as it is, marked postgres,
    and then the remote source is not called and nothing is written.  The
    record of the remote source is served, marked law.go.kr, only when the
    persistent store had none or raised and an API key is set; the
    write-back is then attempted once, and the record is served whatever
    the write-back, the commit and the rollback do.  In both cases the
    response carries an id and a name that are not empty when the
    requested id is not: each falls back to the requested id. *)
Theorem get_law_detail_served (env : Env) (id : string) (ia ift : bool)
  (log : list Event) (r : Response) :
  get_law_detail env id ia ift = (log, Served r) ->
  ((source r = "postgres"
    /\ lookup env id ia ift = Ok (Some (detail r))
    /\ log = [Lookup id])
   \/ (source r = "law.go.kr"
       /\ law_api_key env <> ""
       /\ (forall d, lookup env id ia ift <> Ok (Some d))
       /\ fetch env id ia ift = Ok (detail r)
       /\ exists tail, log = Lookup id :: Fetch id :: CacheDetail (detail r) :: tail
                       /\ List.length (filter is_cache tail) = 0%nat))
  /\ detail r <> []
  /\ (id <> "" -> law_id r <> "" /\ law_name_kr r <> "").
Proof.
  intros Hrun. pose proof (detail_failures env id ia ift) as [H _].
  pose proof (served_fields env id ia ift r) as Hf.
  rewrite Hrun in H, Hf. cbn [fst snd] in H, Hf. destruct (Hf eq_refl) as [Hid Hname].
  split; [|split].
  - destruct H as [(H1 & H2 & _ & H4) | (H1 & H2 & H3 & H4 & _ & H6)].
    + left. auto.
    + right. repeat split; auto.
      intros d E. rewrite E in H3. discriminate.
  - destruct H as [(_ & _ & H & _) | (_ & _ & _ & _ & H & _)]; exact H.
  - intros Hne. rewrite Hid, Hname. split; now apply get_or_nonempty.
Qed.

Lemma get_law_detail_served_witness :
  exists log r,
    get_law_detail remote_only "L1" true false = (log, Served r)
    /\ source r = "law.go.kr"
    /\ law_name_kr r <> ""
    /\ exists tail,
         log = Lookup "L1" :: Fetch "L1" :: CacheDetail (detail r) :: tail.
Proof.
  destruct (get_law_detail remote_only "L1" true false) as [log o] eqn:E.
  destruct o as [r | a | c | e]; try (vm_compute in E; discriminate E).
  exists log, r. split; [reflexivity|].
  destruct (get_law_detail_served remote_only "L1" true false log r E)
    as ([(_ & H & _) | (Hs & _ & _ & _ & tail & Hlog & _)] & _ & Hid).
  - discriminate H.
  - split; [exact Hs|]. split; [apply Hid; discriminate | now exists tail].
Defined.

End LawDetailFacts.

(* ================================================================== *)
(** * The article search endpoint: ranking, outcomes and the two paths *)
(* ================================================================== *)

Module ArticlesFacts.
Import Py PyFacts StringFacts Scoring Articles.
Local Open Scope list_scope.
Local Open Scope Q_scope.













(** ** Outcomes *)






(** ** The two paths *)

Lemma lexical_score_strip (text query : string) :
  _lexical_score text (strip query) = _lexical_score text query.
Proof. unfold _lexical_score. now rewrite strip_idem. Qed.

Lemma make_snippet_strip (text query : string) (window : Z) :
  _make_snippet text (strip query) window = _make_snippet text query window.
Proof. unfold _make_snippet. now rewrite strip_idem. Qed.

(** X30. An article is scored the same on both paths of [search_articles]:
    the result built from a row of the table, against the stripped query,
    and the result built from the article of the remote record with the
    same fields, against the query as given, are equal whenever the article
    number is not empty and number and content carry no surrounding
    whitespace (which is how the write-back stores them). *)
Theorem article_paths_agree (query no body : string) (heading : option string) :
  is_empty no = false -> strip no = no -> strip body = body ->
  score_remote query (mkRemoteArticle (Some no) heading (Some body))
  = score_row (strip query) (mkArticle no heading body).
Proof.
  intros Hne Hno Hbody. unfold score_remote, score_row.
  cbn [remote_article_no remote_title remote_content article_no title content
       Articles.or_empty].
  rewrite Hno, Hbody, Hne, lexical_score_strip, make_snippet_strip. reflexivity.
Qed.

Lemma article_paths_agree_witness :
  score_remote " road " (mkRemoteArticle (Some "Art. 1") (Some "Purpose")
                           (Some "safe traffic on every road"))
  = score_row "road" (mkArticle "Art. 1" (Some "Purpose") "safe traffic on every road").
Proof.
  apply (article_paths_agree " road " "Art. 1" "safe traffic on every road"
           (Some "Purpose")); reflexivity.
Defined.

End ArticlesFacts.
